(** * Warlot Go SDK: the request execution engine

    A shallow embedding of the retrying executors [doJSON] and [doRequest],
    of the streaming [RowScanner] and of the [Pager] of the package
    [warlot], with the helpers they call.  Go values are modelled as
    follows.

    - [int] and [time.Duration] are 64-bit integers: a [Z] together with
      the wrap-around [wrap64] wherever the source does arithmetic.
    - A Go [string] is a sequence of bytes: a [string] whose characters
      are the bytes.
    - [http.Header] is a [map[string][]string]: a [gmap string (list string)].
    - The network, the remote service, the clock and the cancellation
      signal form an explicit world that the executors thread through. *)

From Stdlib Require Import ZArith String Ascii List Bool Lia.
From stdpp Require Import base option numbers strings list gmap fin_maps.

Local Open Scope string_scope.
Local Open Scope Z_scope.

(** ** Go integers and strings *)

Module GoInt.

(** Two's complement wrap-around of a 64-bit signed integer. *)
Definition wrap64 (z : Z) : Z := (z + 2 ^ 63) `mod` 2 ^ 64 - 2 ^ 63.

Definition minInt64 : Z := - 2 ^ 63.
Definition maxInt64 : Z := 2 ^ 63 - 1.

(** Saturation, as [time.Time.Sub] does for durations out of range. *)
Definition sat64 (z : Z) : Z :=
  if z <? minInt64 then minInt64 else if maxInt64 <? z then maxInt64 else z.

End GoInt.

Module GoString.

Definition byte (c : ascii) : Z := Z.of_N (N_of_ascii c).

Definition chr (z : Z) : ascii := ascii_of_N (Z.to_N z).

(** The double quote and the backslash. *)
Definition dquote : ascii := chr 34.
Definition backslash : ascii := chr 92.

(** [len(s)] *)
Definition len (s : string) : Z := Z.of_nat (String.length s).

Definition isDigit (c : ascii) : bool := (48 <=? byte c) && (byte c <=? 57).
Definition isLower (c : ascii) : bool := (97 <=? byte c) && (byte c <=? 122).
Definition isUpper (c : ascii) : bool := (65 <=? byte c) && (byte c <=? 90).

Definition toUpper (c : ascii) : ascii := if isLower c then chr (byte c - 32) else c.
Definition toLower (c : ascii) : ascii := if isUpper c then chr (byte c + 32) else c.

Definition allb (p : ascii -> bool) (s : string) : bool :=
  forallb p (list_ascii_of_string s).

(** The digits of a decimal numeral, most significant first. *)
Fixpoint digitsValue (acc : Z) (s : string) : Z :=
  match s with
  | EmptyString => acc
  | String c rest => digitsValue (acc * 10 + (byte c - 48)) rest
  end.

(** [strconv.Atoi]: an optional sign and at least one decimal digit, the
    value within the range of [int]; [None] stands for a non-nil error. *)
Definition Atoi (s : string) : option Z :=
  let '(neg, digits) :=
    match s with
    | String "-" rest => (true, rest)
    | String "+" rest => (false, rest)
    | _ => (false, s)
    end in
  if (0 <? len digits) && allb isDigit digits then
    let n := digitsValue 0 digits in
    let n := if neg then - n else n in
    if (GoInt.minInt64 <=? n) && (n <=? GoInt.maxInt64) then Some n else None
  else None.

(** [strings.EqualFold(s, t)] for a [t] of ASCII characters.  Under
    Unicode simple case folding a byte of [t] is matched by the same
    ASCII letter in either case, and besides that only [k] by the Kelvin
    sign (U+212A, bytes E2 84 AA) and [s] by the long s (U+017F, bytes
    C5 BF). *)
Fixpoint EqualFold (s t : string) : bool :=
  match t with
  | EmptyString => match s with EmptyString => true | _ => false end
  | String b t' =>
      match s with
      | EmptyString => false
      | String a s' =>
          if Ascii.eqb (toLower a) (toLower b) then EqualFold s' t'
          else
            match s' with
            | String a2 (String a3 s3) =>
                if (byte a =? 226) && (byte a2 =? 132) && (byte a3 =? 170)
                   && Ascii.eqb (toLower b) "k"
                then EqualFold s3 t'
                else if (byte a =? 197) && (byte a2 =? 191)
                        && Ascii.eqb (toLower b) "s"
                then EqualFold (String a3 s3) t'
                else false
            | String a2 s2 =>
                if (byte a =? 197) && (byte a2 =? 191)
                   && Ascii.eqb (toLower b) "s"
                then EqualFold s2 t'
                else false
            | EmptyString => false
            end
      end
  end.

End GoString.

(** ** [net/http] headers *)

Module Http.
Import GoString.

Abbreviation Header := (gmap string (list string)).

(** The bytes a header field name may hold (RFC 7230 token characters). *)
Definition validHeaderFieldByte (c : ascii) : bool :=
  isDigit c || isLower c || isUpper c
  || existsb (Ascii.eqb c) (list_ascii_of_string "!#$%&'*+-.^_`|~").

Fixpoint canonicalize (upper : bool) (s : string) : string :=
  match s with
  | EmptyString => EmptyString
  | String c rest =>
      let c' := if upper then toUpper c else toLower c in
      String c' (canonicalize (Ascii.eqb c' "-") rest)
  end.

(** [textproto.CanonicalMIMEHeaderKey]: a name with a byte that is not a
    token character is returned as it is. *)
Definition CanonicalMIMEHeaderKey (s : string) : string :=
  if allb validHeaderFieldByte s then canonicalize true s else s.

Definition values (h : Header) (key : string) : list string :=
  default [] (h !! key).

(** [h.Set(key, value)] *)
Definition Set_ (h : Header) (key value : string) : Header :=
  <[CanonicalMIMEHeaderKey key := [value]]> h.

(** [h.Add(key, value)] *)
Definition Add (h : Header) (key value : string) : Header :=
  let k := CanonicalMIMEHeaderKey key in
  <[k := (values h k ++ [value])%list]> h.

(** [h.Get(key)] *)
Definition Get (h : Header) (key : string) : string :=
  match values h (CanonicalMIMEHeaderKey key) with
  | v :: _ => v
  | [] => ""
  end.

(** [for k, vs := range src { for _, v := range vs { f(k, v) } }] with
    an accumulator. *)
Definition rangeValues {A} (f : A -> string -> string -> A) (src : Header) (a : A) : A :=
  map_fold (fun k vs acc => fold_left (fun acc v => f acc k v) vs acc) a src.

(** [mergeHeaders] appends values from [src] into [dst]. *)
Definition mergeHeaders (dst src : Header) : Header :=
  rangeValues Add src dst.

(** The separator the source writes between the two ends of a key: the
    seven bytes C3 A2 E2 82 AC C2 A6 of the literal in [redactHeaders]. *)
Definition ellipsis : string :=
  string_of_list_ascii (map chr [195; 162; 226; 130; 172; 194; 166]).

(** The value [redactHeaders] writes for a value [v] of the key header. *)
Definition redactValue (v : string) : string :=
  if 8 <? len v
  then substring 0 4 v ++ ellipsis ++ substring (String.length v - 4) 4 v
  else "********".

(** [redactHeaders] masks sensitive header values for logging. *)
Definition redactHeaders (h : Header) : Header :=
  rangeValues
    (fun cp k v =>
       if EqualFold k "x-api-key" then Add cp k (redactValue v) else Add cp k v)
    h ∅.

(** Every key of the map is in canonical form, as the keys that [Set]
    and [Add] write are. *)
Definition canonicalKeys (h : Header) : Prop :=
  forall k, is_Some (h !! k) -> CanonicalMIMEHeaderKey k = k.

End Http.

(** ** Errors ([errors.go] and the values built with [fmt.Errorf]) *)

Module APIError.
(** [APIError] represents a non-success HTTP response from the API.
    [Details] holds the text of the optional details payload. *)
Record t := mk {
  StatusCode : Z;
  Body : string;
  Message : string;
  Code : string;
  Details : option string
}.
End APIError.

(** What [HTTPClient.Do] reports when no response was obtained. *)
Inductive TransportError :=
| ContextCanceled
| DeadlineExceeded
| NetworkError (msg : string).

(** The error values of the executors.  A constructor per dynamic type or
    per [fmt.Errorf] format, the wrapped error ([%w]) as an argument. *)
#[warnings="-register-all"]
Inductive error :=
| ErrTransport (e : TransportError)
| ErrAPI (e : APIError.t)                      (* a pointer to [APIError] *)
| ErrMarshal                                   (* "marshal request: %w" *)
| ErrNewRequest (method url : string)          (* from [http.NewRequestWithContext] *)
| ErrCall (method url : string) (err : error)  (* "%s %s: %w" *)
| ErrDecode (body : string)                    (* "decode response: %w (body=%s)" *)
| ErrAttempts (n : Z) (lastErr : option error) (* "warlot request failed after %d attempts: %w" *).

(** The type assertion of [lastErr] to a pointer to [APIError]. *)
Definition asAPIError (lastErr : option error) : option APIError.t :=
  match lastErr with
  | Some (ErrAPI e) => Some e
  | _ => None
  end.

(** ** Requests, responses and the world around a call *)

Module Request.
Record t := mk {
  Method : string;
  URL : string;
  Header : Http.Header;
  Body : option string
}.

Definition withHeader (r : t) (h : Http.Header) : t :=
  {| Method := Method r; URL := URL r; Header := h; Body := Body r |}.
End Request.

Module Response.
(** [Body] is the byte sequence the response body delivers. *)
Record t := mk {
  StatusCode : Z;
  Header : Http.Header;
  Body : string
}.
End Response.

(** The two results of [c.HTTPClient.Do(req)]: [(nil, err)] and [(res, nil)]. *)
Inductive DoResult :=
| DoError (err : TransportError)
| DoResponse (res : Response.t).

(** [context.Context]: the instant (in nanoseconds of the clock) at which
    its [Done] channel is closed, by cancellation or by a deadline;
    [None] when that never happens. *)
Record Context := { doneAt : option Z }.

Definition isDone (ctx : Context) (clock : Z) : bool :=
  match doneAt ctx with
  | Some d => d <=? clock
  | None => false
  end.

(** What a call does that can be observed from outside, newest first;
    [Do] carries the instant at which [HTTPClient.Do] is called. *)
Inductive Event :=
| LogRequest (method url : string) (headers : Http.Header) (attempt : Z)
| LogResponse (method url : string) (status : Z) (attempt : Z)
| Do (clock : Z) (req : Request.t) (res : DoResult)
| AfterHook (index : nat) (res : DoResult)
| Sleep (timer : Z) (slept : Z).

(** The clock ([time.Now().UnixNano()]), the state of the remote service
    and of the connection to it, and the events so far. *)
Record World (S : Type) := mkWorld {
  now : Z;
  server : S;
  trace : list Event
}.
Arguments mkWorld {S}.
Arguments now {S}.
Arguments server {S}.
Arguments trace {S}.

Definition record {S} (e : Event) (w : World S) : World S :=
  {| now := now w; server := server w; trace := e :: trace w |}.

(** The anonymous struct [msg] that [parseAPIError] decodes a body into. *)
Module Msg.
Record t := mk {
  Message : string;
  Error : string;
  Code : string;
  Details : option string
}.
End Msg.

(** What the executors use and the repository does not define:
    [encoding/json], [net/http] and the transport behind [HTTPClient].
    [None] stands for a non-nil error of [json.Marshal], [json.Unmarshal]
    and [http.ParseTime], which gives the instant a date denotes.
    [RoundTrip ctx req clock s] stands for [c.HTTPClient.Do(req)] followed
    by reading the body: the result, the clock when it is back and the
    next state of the service. *)
Record Runtime (S In Out : Type) := mkRuntime {
  Marshal : In -> option string;
  Unmarshal : string -> option Out;
  UnmarshalMsg : string -> option Msg.t;
  ParseTime : string -> option Z;
  ValidRequest : string -> string -> bool;
  RoundTrip : Context -> Request.t -> Z -> S -> DoResult * Z * S
}.
Arguments mkRuntime {S In Out}.
Arguments Marshal {S In Out}.
Arguments Unmarshal {S In Out}.
Arguments UnmarshalMsg {S In Out}.
Arguments ParseTime {S In Out}.
Arguments ValidRequest {S In Out}.
Arguments RoundTrip {S In Out}.

(** [Client] contains shared configuration.  [Logger] says whether the
    hook is set; a before-hook may change the request it is given, an
    after-hook only observes. *)
Record Client := mkClient {
  BaseURL : string;
  APIKey : string;
  HolderID : string;
  ProjectName : string;
  UserAgent : string;
  MaxRetries : Z;
  InitialBackoff : Z;
  MaxBackoff : Z;
  Logger : bool;
  BeforeHooks : list (Request.t -> Request.t);
  AfterHooks : nat
}.

(** ** Helpers of the executors *)

Module Helpers.
Import GoInt GoString Http.

Definition Millisecond : Z := 1000000.
Definition Second : Z := 1000000000.

(** [authHeaders] builds the authentication headers from the Client
    configuration. *)
Definition authHeaders (c : Client) : Header :=
  let h : Header := ∅ in
  let h := if String.eqb (APIKey c) "" then h else Set_ h "x-api-key" (APIKey c) in
  let h := if String.eqb (HolderID c) "" then h else Set_ h "x-holder-id" (HolderID c) in
  let h := if String.eqb (ProjectName c) "" then h else Set_ h "x-project-name" (ProjectName c) in
  h.

(** [statusOf] returns the HTTP status code or zero if the response is nil. *)
Definition statusOf (res : DoResult) : Z :=
  match res with
  | DoError _ => 0
  | DoResponse r => Response.StatusCode r
  end.

(** [parseAPIError] decodes an error body and captures
    message/code/details when available. *)
Definition parseAPIError (unmarshal : string -> option Msg.t) (code : Z) (b : string)
  : APIError.t :=
  match unmarshal b with
  | Some msg =>
      APIError.mk code b
        (if negb (String.eqb (Msg.Message msg) "") then Msg.Message msg
         else if negb (String.eqb (Msg.Error msg) "") then Msg.Error msg
         else "")
        (Msg.Code msg) (Msg.Details msg)
  | None => APIError.mk code b "" "" None
  end.

(** [parseRetryAfter] interprets Retry-After header values (seconds or
    HTTP-date), read at the instant [clock]. *)
Definition parseRetryAfter (parseTime : string -> option Z) (clock : Z) (v : string) : Z :=
  if String.eqb v "" then 0
  else
    match Atoi v with
    | Some secs =>
        if 0 <=? secs then wrap64 (secs * Second)
        else
          match parseTime v with
          | Some t => let d := sat64 (t - clock) in if 0 <? d then d else 0
          | None => 0
          end
    | None =>
        match parseTime v with
        | Some t => let d := sat64 (t - clock) in if 0 <? d then d else 0
        | None => 0
        end
    end.

(** [randFloat64] returns a pseudo-random value in [0,1), computed from
    the clock.  The result here is the integer [n%1000] whose quotient
    by 1000 the source returns. *)
Definition randFloat64 (clock : Z) : Z :=
  let n := clock in
  let n := Z.lxor n (wrap64 (Z.shiftl n 13)) in
  let n := Z.lxor n (Z.shiftr n 7) in
  let n := Z.lxor n (wrap64 (Z.shiftl n 17)) in
  let n := if n <? 0 then wrap64 (- n) else n in
  Z.rem n 1000.

(** [normalizeBackoff] ensures sane defaults for backoff windows. *)
Definition normalizeBackoff (initial max : Z) : Z * Z :=
  let initial := if initial <=? 0 then 200 * Millisecond else initial in
  let max := if max <=? 0 then 2 * Second else max in
  (initial, max).

(** [normalizeRetries] ensures non-negative retry counts. *)
Definition normalizeRetries (r : Z) : Z :=
  if r <? 0 then 0 else r.

(** The timer of [jitterSleep]:
    [float64(backoff) * (0.5 + 0.5*randFloat64())] converted to a
    duration and capped by [maxBack].  The product is taken exactly,
    as [backoff * (1000 + n%1000) / 2000], and truncated towards zero as
    the conversion does; the rounding of the float64 operations is left
    out. *)
Definition jitter (backoff maxBack : Z) (rand : Z) : Z :=
  let jitter := Z.quot (backoff * (1000 + rand)) 2000 in
  if maxBack <? jitter then maxBack else jitter.

(** [jitterSleep] sleeps for a randomized duration based on the current
    backoff.  The [select] returns when the timer fires or when the
    context is done, whichever comes first. *)
Definition jitterSleep {S} (ctx : Context) (backoff maxBack : Z) (w : World S) : World S :=
  let timer := jitter backoff maxBack (randFloat64 (now w)) in
  let fire := now w + Z.max 0 timer in
  let wake :=
    match doneAt ctx with
    | Some d => Z.min fire (Z.max (now w) d)
    | None => fire
    end in
  {| now := wake; server := server w; trace := Sleep timer (wake - now w) :: trace w |}.

(** [nextBackoff] doubles backoff up to maxBack. *)
Definition nextBackoff (backoff maxBack : Z) : Z :=
  let backoff := wrap64 (backoff * 2) in
  if maxBack <? backoff then maxBack else backoff.

End Helpers.

(** ** The executors [doJSON] and [doRequest] *)

Module Executor.
Import GoInt GoString Http Helpers.

(** How a function ends: with its results and a nil error, or with a
    non-nil error. *)
Inductive Outcome (A : Type) :=
| Returned (v : A)
| Failed (err : error).
Arguments Returned {A}.
Arguments Failed {A}.

(** How one round of the retry loop ends: the function returns, or the
    loop goes on with the assigned [lastErr] and [backoff]. *)
Inductive Flow (A : Type) :=
| Return (r : Outcome A)
| Continue (lastErr : option error) (backoff : Z).
Arguments Return {A}.
Arguments Continue {A}.

Section WithRuntime.
Context {S In Out : Type} (rt : Runtime S In Out).

(** The closure [makeBody]: the reader over the encoded [in], nil for
    a nil [in]. *)
Definition makeBody (in_ : option In) : Outcome (option string) :=
  match in_ with
  | None => Returned None
  | Some v =>
      match Marshal rt v with
      | Some b => Returned (Some b)
      | None => Failed ErrMarshal
      end
  end.

(** [http.NewRequestWithContext] *)
Definition NewRequestWithContext (method u : string) (rc : option string)
  : Outcome Request.t :=
  if ValidRequest rt method u
  then Returned (Request.mk method u ∅ rc)
  else Failed (ErrNewRequest method u).

(** The headers of an attempt: content type, user agent, then the
    values of [hdr] added one by one. *)
Definition applyHeaders (c : Client) (hdr : Header) (req : Request.t) : Request.t :=
  let h := Set_ (Request.Header req) "Content-Type" "application/json" in
  let h := if String.eqb (UserAgent c) "" then h else Set_ h "User-Agent" (UserAgent c) in
  Request.withHeader req (rangeValues Add hdr h).

Definition logRequest (c : Client) (method u : string) (req : Request.t) (attempt : Z)
           (w : World S) : World S :=
  if Logger c
  then record (LogRequest method u (redactHeaders (Request.Header req)) attempt) w
  else w.

Definition logResponse (c : Client) (method u : string) (res : DoResult) (attempt : Z)
           (w : World S) : World S :=
  if Logger c
  then record (LogResponse method u (statusOf res) attempt) w
  else w.

Definition runBeforeHooks (c : Client) (req : Request.t) : Request.t :=
  fold_left (fun r h => h r) (BeforeHooks c) req.

Definition runAfterHooks (c : Client) (res : DoResult) (w : World S) : World S :=
  fold_left (fun w i => record (AfterHook i res) w) (seq 0 (AfterHooks c)) w.

(** [c.HTTPClient.Do(req)], and the body read in full. *)
Definition HTTPClientDo (ctx : Context) (req : Request.t) (w : World S)
  : DoResult * World S :=
  let '(res, clock, s) := RoundTrip rt ctx req (now w) (server w) in
  (res, {| now := clock; server := s; trace := Do (now w) req res :: trace w |}).

(** The Retry-After of a retryable response raises the backoff. *)
Definition raiseBackoff (res : Response.t) (clock backoff : Z) : Z :=
  let ra := parseRetryAfter (ParseTime rt) clock (Get (Response.Header res) "Retry-After") in
  if (0 <? ra) && (backoff <? ra) then ra else backoff.

(** One round of the loop of [doJSON]. *)
Definition doJSON_round (c : Client) (ctx : Context) (method u : string) (hdr : Header)
           (in_ : option In) (out : bool) (retries maxBack : Z)
           (attempt backoff : Z) (w : World S)
  : Flow (option Out) * World S :=
  match makeBody in_ with
  | Failed err => (Return (Failed err), w)
  | Returned rc =>
  match NewRequestWithContext method u rc with
  | Failed err => (Return (Failed err), w)
  | Returned req =>
      let req := applyHeaders c hdr req in
      let w := logRequest c method u req attempt w in
      let req := runBeforeHooks c req in
      let '(res, w) := HTTPClientDo ctx req w in
      let w := logResponse c method u res attempt w in
      let w := runAfterHooks c res w in
      let flow : Flow (option Out) :=
        match res with
        | DoError err => Continue (Some (ErrCall method u (ErrTransport err))) backoff
        | DoResponse res =>
            let body := Response.Body res in
            if Z.quot (Response.StatusCode res) 100 =? 2 then
              if out && (0 <? len body) then
                match Unmarshal rt body with
                | None => Continue (Some (ErrDecode body)) backoff
                | Some v => Return (Returned (Some v))
                end
              else Return (Returned None)
            else
              let apiErr := parseAPIError (UnmarshalMsg rt) (Response.StatusCode res) body in
              if (Response.StatusCode res =? 429)
                 || (Z.quot (Response.StatusCode res) 100 =? 5)
              then Continue (Some (ErrCall method u (ErrAPI apiErr)))
                            (raiseBackoff res (now w) backoff)
              else Return (Failed (ErrAPI apiErr))
        end in
      match flow with
      | Return r => (Return r, w)
      | Continue lastErr backoff =>
          (* Backoff with jitter. *)
          let next :=
            if attempt <? retries
            then (Continue lastErr (nextBackoff backoff maxBack),
                  jitterSleep ctx backoff maxBack w)
            else (Continue lastErr backoff, w) in
          (* Stop retrying on non-retriable errors. *)
          match asAPIError lastErr with
          | Some e =>
              if negb (APIError.StatusCode e =? 429)
                 && negb (Z.quot (APIError.StatusCode e) 100 =? 5)
              then (Return (Failed (ErrAPI e)), w)
              else next
          | None => next
          end
      end
  end
  end.

(** The loop [for attempt := 0; attempt <= retries; attempt++] of
    [doJSON] and the return after it.  [None]: the loop has not
    ended within [fuel] rounds. *)
Fixpoint doJSON_loop (fuel : nat) (c : Client) (ctx : Context) (method u : string)
         (hdr : Header) (in_ : option In) (out : bool) (retries maxBack : Z)
         (attempt backoff : Z) (lastErr : option error) (w : World S)
  : option (Outcome (option Out) * World S) :=
  match fuel with
  | O => None
  | Datatypes.S fuel =>
      if attempt <=? retries then
        match doJSON_round c ctx method u hdr in_ out retries maxBack
                attempt backoff w with
        | (Return r, w) => Some (r, w)
        | (Continue lastErr backoff, w) =>
            doJSON_loop fuel c ctx method u hdr in_ out retries maxBack
              (wrap64 (attempt + 1)) backoff lastErr w
        end
      else Some (Failed (ErrAttempts (wrap64 (retries + 1)) lastErr), w)
  end.

(** [doJSON] sends an HTTP request with a JSON encoded body and
    decodes a JSON response.  [out] says whether a decode target is
    given; the decoded value is returned in place of being stored
    through the pointer.  The loop ends within [retries + 1] rounds
    unless [retries] is the greatest [int]. *)
Definition doJSON (c : Client) (ctx : Context) (method path : string) (hdr : Header)
           (in_ : option In) (out : bool) (w : World S)
  : option (Outcome (option Out) * World S) :=
  let u := BaseURL c ++ path in
  let '(backoff, maxBack) := normalizeBackoff (InitialBackoff c) (MaxBackoff c) in
  let retries := normalizeRetries (MaxRetries c) in
  doJSON_loop (Z.to_nat retries + 2) c ctx method u hdr in_ out retries maxBack
    0 backoff None w.

(** One round of the loop of [doRequest]. *)
Definition doRequest_round (c : Client) (ctx : Context) (method u : string) (hdr : Header)
           (in_ : option In) (retries maxBack : Z)
           (attempt backoff : Z) (w : World S)
  : Flow Response.t * World S :=
  match makeBody in_ with
  | Failed err => (Return (Failed err), w)
  | Returned rc =>
  match NewRequestWithContext method u rc with
  | Failed err => (Return (Failed err), w)
  | Returned req =>
      let req := applyHeaders c hdr req in
      let w := logRequest c method u req attempt w in
      let req := runBeforeHooks c req in
      let '(res, w) := HTTPClientDo ctx req w in
      let flow : Flow Response.t :=
        match res with
        | DoError err => Continue (Some (ErrCall method u (ErrTransport err))) backoff
        | DoResponse res =>
            if Z.quot (Response.StatusCode res) 100 =? 2 then Return (Returned res)
            else
              let apiErr :=
                parseAPIError (UnmarshalMsg rt) (Response.StatusCode res)
                  (Response.Body res) in
              if (Response.StatusCode res =? 429)
                 || (Z.quot (Response.StatusCode res) 100 =? 5)
              then Continue (Some (ErrCall method u (ErrAPI apiErr)))
                            (raiseBackoff res (now w) backoff)
              else Return (Failed (ErrAPI apiErr))
        end in
      match flow with
      | Return r => (Return r, w)
      | Continue lastErr backoff =>
          if attempt <? retries
          then (Continue lastErr (nextBackoff backoff maxBack),
                jitterSleep ctx backoff maxBack w)
          else (Continue lastErr backoff, w)
      end
  end
  end.

Fixpoint doRequest_loop (fuel : nat) (c : Client) (ctx : Context) (method u : string)
         (hdr : Header) (in_ : option In) (retries maxBack : Z)
         (attempt backoff : Z) (lastErr : option error) (w : World S)
  : option (Outcome Response.t * World S) :=
  match fuel with
  | O => None
  | Datatypes.S fuel =>
      if attempt <=? retries then
        match doRequest_round c ctx method u hdr in_ retries maxBack
                attempt backoff w with
        | (Return r, w) => Some (r, w)
        | (Continue lastErr backoff, w) =>
            doRequest_loop fuel c ctx method u hdr in_ retries maxBack
              (wrap64 (attempt + 1)) backoff lastErr w
        end
      else Some (Failed (ErrAttempts (wrap64 (retries + 1)) lastErr), w)
  end.

(** [doRequest] is similar to [doJSON] but returns a raw response for
    streaming: on a 2xx status the response comes back with its body
    unread. *)
Definition doRequest (c : Client) (ctx : Context) (method path : string) (hdr : Header)
           (in_ : option In) (w : World S)
  : option (Outcome Response.t * World S) :=
  let u := BaseURL c ++ path in
  let '(backoff, maxBack) := normalizeBackoff (InitialBackoff c) (MaxBackoff c) in
  let retries := normalizeRetries (MaxRetries c) in
  doRequest_loop (Z.to_nat retries + 2) c ctx method u hdr in_ retries maxBack
    0 backoff None w.

End WithRuntime.

End Executor.

(** ** [encoding/json]: the scanner and the streaming decoder

    [RowScanner] reads its rows through [json.Decoder].  The part of the
    package it uses is modelled here: the byte-at-a-time scanner, and
    [Token], [More] and [Decode] over it.  Offsets in error values are left
    out. *)

Module Json.
Import GoString.

Definition isSpace (c : ascii) : bool :=
  (byte c =? 32) || (byte c =? 9) || (byte c =? 13) || (byte c =? 10).

Definition isHex (c : ascii) : bool :=
  isDigit c || ((97 <=? byte c) && (byte c <=? 102)) || ((65 <=? byte c) && (byte c <=? 70)).

(** The errors of the decoder, and the one [RowScanner] makes itself. *)
Inductive SyntaxError :=
| InvalidCharacter (c : ascii) (context : string)
| NotAtBeginningOfValue
| ExpectedCommaAfterArrayElement
| ExpectedColonAfterObjectKey.

Inductive jerror :=
| EOF                                  (* io.EOF *)
| ErrUnexpectedEOF                     (* io.ErrUnexpectedEOF *)
| ErrBodyClosed                        (* a read on a closed response body *)
| ErrSyntax (e : SyntaxError)
| ErrUnmarshal.                        (* the value does not fit the destination *)

(** *** The scanner *)

Inductive ScanCode :=
| scanContinue | scanBeginLiteral | scanBeginObject | scanObjectKey | scanObjectValue
| scanEndObject | scanBeginArray | scanArrayValue | scanEndArray | scanSkipSpace
| scanEnd | scanError.

Inductive ParseState := parseObjectKey | parseObjectValue | parseArrayValue.

(** The state functions of the scanner, as values of its field [step]. *)
Inductive Step :=
| BeginValue | BeginValueOrEmpty | BeginStringOrEmpty | BeginString
| EndValue | EndTop
| InString | InStringEsc | InStringEscU | InStringEscU1 | InStringEscU12 | InStringEscU123
| Neg | Num1 | Num0 | Dot | Dot0 | ExpE | ESign | E0
| LitT | LitTr | LitTru | LitF | LitFa | LitFal | LitFals | LitN | LitNu | LitNul
| Error.

(** [parseState] is a stack, its top first. *)
Record scanner := mkScanner {
  step : Step;
  parseState : list ParseState;
  err : option SyntaxError
}.

Definition maxNestingDepth : Z := 10000.

Definition reset : scanner := mkScanner BeginValue [] None.

Definition setStep (s : scanner) (st : Step) : scanner :=
  mkScanner st (parseState s) (err s).

Definition setTop (s : scanner) (p : ParseState) : scanner :=
  mkScanner (step s) (p :: tail (parseState s)) (err s).

(** [s.error(c, context)] *)
Definition error (s : scanner) (c : ascii) (context : string) : ScanCode * scanner :=
  (scanError, mkScanner Error (parseState s) (Some (InvalidCharacter c context))).

Definition pushParseState (s : scanner) (c : ascii) (newParseState : ParseState)
           (successState : ScanCode) : ScanCode * scanner :=
  let s := mkScanner (step s) (newParseState :: parseState s) (err s) in
  if Z.of_nat (List.length (parseState s)) <=? maxNestingDepth then (successState, s)
  else error s c "exceeded max depth".

Definition popParseState (s : scanner) : scanner :=
  let ps := tail (parseState s) in
  match ps with
  | [] => mkScanner EndTop ps (err s)
  | _ => mkScanner EndValue ps (err s)
  end.

Definition stateEndTop (s : scanner) (c : ascii) : ScanCode * scanner :=
  if negb (isSpace c)
  then (scanEnd, snd (error s c "after top-level value"))
  else (scanEnd, s).

Definition stateEndValue (s : scanner) (c : ascii) : ScanCode * scanner :=
  match parseState s with
  | [] => stateEndTop (setStep s EndTop) c
  | ps :: _ =>
      if isSpace c then (scanSkipSpace, setStep s EndValue)
      else
        match ps with
        | parseObjectKey =>
            if Ascii.eqb c ":"
            then (scanObjectKey, setStep (setTop s parseObjectValue) BeginValue)
            else error s c "after object key"
        | parseObjectValue =>
            if Ascii.eqb c ","
            then (scanObjectValue, setStep (setTop s parseObjectKey) BeginString)
            else if Ascii.eqb c "}" then (scanEndObject, popParseState s)
            else error s c "after object key:value pair"
        | parseArrayValue =>
            if Ascii.eqb c "," then (scanArrayValue, setStep s BeginValue)
            else if Ascii.eqb c "]" then (scanEndArray, popParseState s)
            else error s c "after array element"
        end
  end.

Definition stateBeginValue (s : scanner) (c : ascii) : ScanCode * scanner :=
  if isSpace c then (scanSkipSpace, s)
  else if Ascii.eqb c "{"
  then pushParseState (setStep s BeginStringOrEmpty) c parseObjectKey scanBeginObject
  else if Ascii.eqb c "["
  then pushParseState (setStep s BeginValueOrEmpty) c parseArrayValue scanBeginArray
  else if Ascii.eqb c dquote then (scanBeginLiteral, setStep s InString)
  else if Ascii.eqb c "-" then (scanBeginLiteral, setStep s Neg)
  else if Ascii.eqb c "0" then (scanBeginLiteral, setStep s Num0)
  else if Ascii.eqb c "t" then (scanBeginLiteral, setStep s LitT)
  else if Ascii.eqb c "f" then (scanBeginLiteral, setStep s LitF)
  else if Ascii.eqb c "n" then (scanBeginLiteral, setStep s LitN)
  else if (49 <=? byte c) && (byte c <=? 57) then (scanBeginLiteral, setStep s Num1)
  else error s c "looking for beginning of value".

Definition stateBeginValueOrEmpty (s : scanner) (c : ascii) : ScanCode * scanner :=
  if isSpace c then (scanSkipSpace, s)
  else if Ascii.eqb c "]" then stateEndValue s c
  else stateBeginValue s c.

Definition stateBeginString (s : scanner) (c : ascii) : ScanCode * scanner :=
  if isSpace c then (scanSkipSpace, s)
  else if Ascii.eqb c dquote then (scanBeginLiteral, setStep s InString)
  else error s c "looking for beginning of object key string".

Definition stateBeginStringOrEmpty (s : scanner) (c : ascii) : ScanCode * scanner :=
  if isSpace c then (scanSkipSpace, s)
  else if Ascii.eqb c "}" then stateEndValue (setTop s parseObjectValue) c
  else stateBeginString s c.

Definition stateInString (s : scanner) (c : ascii) : ScanCode * scanner :=
  if Ascii.eqb c dquote then (scanContinue, setStep s EndValue)
  else if Ascii.eqb c backslash then (scanContinue, setStep s InStringEsc)
  else if byte c <? 32 then error s c "in string literal"
  else (scanContinue, s).

Definition stateInStringEsc (s : scanner) (c : ascii) : ScanCode * scanner :=
  if existsb (Ascii.eqb c) (dquote :: backslash :: list_ascii_of_string "bfnrt/")
  then (scanContinue, setStep s InString)
  else if Ascii.eqb c "u" then (scanContinue, setStep s InStringEscU)
  else error s c "in string escape code".

Definition stateHex (next : Step) (s : scanner) (c : ascii) : ScanCode * scanner :=
  if isHex c then (scanContinue, setStep s next)
  else error s c "in unicode hexadecimal character escape".

Definition stateNeg (s : scanner) (c : ascii) : ScanCode * scanner :=
  if Ascii.eqb c "0" then (scanContinue, setStep s Num0)
  else if (49 <=? byte c) && (byte c <=? 57) then (scanContinue, setStep s Num1)
  else error s c "in numeric literal".

Definition stateE0 (s : scanner) (c : ascii) : ScanCode * scanner :=
  if isDigit c then (scanContinue, s) else stateEndValue s c.

Definition stateESign (s : scanner) (c : ascii) : ScanCode * scanner :=
  if isDigit c then (scanContinue, setStep s E0)
  else error s c "in exponent of numeric literal".

Definition stateE (s : scanner) (c : ascii) : ScanCode * scanner :=
  if Ascii.eqb c "+" || Ascii.eqb c "-" then (scanContinue, setStep s ESign)
  else stateESign s c.

Definition stateDot0 (s : scanner) (c : ascii) : ScanCode * scanner :=
  if isDigit c then (scanContinue, s)
  else if Ascii.eqb c "e" || Ascii.eqb c "E" then (scanContinue, setStep s ExpE)
  else stateEndValue s c.

Definition stateDot (s : scanner) (c : ascii) : ScanCode * scanner :=
  if isDigit c then (scanContinue, setStep s Dot0)
  else error s c "after decimal point in numeric literal".

Definition state0 (s : scanner) (c : ascii) : ScanCode * scanner :=
  if Ascii.eqb c "." then (scanContinue, setStep s Dot)
  else if Ascii.eqb c "e" || Ascii.eqb c "E" then (scanContinue, setStep s ExpE)
  else stateEndValue s c.

Definition state1 (s : scanner) (c : ascii) : ScanCode * scanner :=
  if isDigit c then (scanContinue, setStep s Num1) else state0 s c.

(** The states inside [true], [false] and [null]. *)
Definition stateLit (expect : ascii) (next : Step) (context : string)
           (s : scanner) (c : ascii) : ScanCode * scanner :=
  if Ascii.eqb c expect then (scanContinue, setStep s next)
  else error s c context.

(** [s.step(s, c)] *)
Definition scanStep (s : scanner) (c : ascii) : ScanCode * scanner :=
  match step s with
  | BeginValue => stateBeginValue s c
  | BeginValueOrEmpty => stateBeginValueOrEmpty s c
  | BeginStringOrEmpty => stateBeginStringOrEmpty s c
  | BeginString => stateBeginString s c
  | EndValue => stateEndValue s c
  | EndTop => stateEndTop s c
  | InString => stateInString s c
  | InStringEsc => stateInStringEsc s c
  | InStringEscU => stateHex InStringEscU1 s c
  | InStringEscU1 => stateHex InStringEscU12 s c
  | InStringEscU12 => stateHex InStringEscU123 s c
  | InStringEscU123 => stateHex InString s c
  | Neg => stateNeg s c
  | Num1 => state1 s c
  | Num0 => state0 s c
  | Dot => stateDot s c
  | Dot0 => stateDot0 s c
  | ExpE => stateE s c
  | ESign => stateESign s c
  | E0 => stateE0 s c
  | LitT => stateLit "r" LitTr "in literal true (expecting 'r')" s c
  | LitTr => stateLit "u" LitTru "in literal true (expecting 'u')" s c
  | LitTru => stateLit "e" EndValue "in literal true (expecting 'e')" s c
  | LitF => stateLit "a" LitFa "in literal false (expecting 'a')" s c
  | LitFa => stateLit "l" LitFal "in literal false (expecting 'l')" s c
  | LitFal => stateLit "s" LitFals "in literal false (expecting 's')" s c
  | LitFals => stateLit "e" EndValue "in literal false (expecting 'e')" s c
  | LitN => stateLit "u" LitNu "in literal null (expecting 'u')" s c
  | LitNu => stateLit "l" LitNul "in literal null (expecting 'l')" s c
  | LitNul => stateLit "l" EndValue "in literal null (expecting 'l')" s c
  | Error => (scanError, s)
  end.

(** *** Values and their decoding into [any]

    A number keeps its literal where Go holds the nearest float64.  An
    object keeps its members in the order of the text; as a Go map the
    last binding of a name is the one that counts.  Bytes above 127 in
    a string are copied as they are, where Go replaces ill-formed UTF-8
    by U+FFFD. *)

#[warnings="-register-all"]
Inductive Value :=
| Null
| Bool (b : bool)
| Number (literal : string)
| Str (s : string)
| Array (elements : list Value)
| Object (members : list (string * Value)).

Fixpoint skipSpace (s : string) : string :=
  match s with
  | String c rest => if isSpace c then skipSpace rest else s
  | EmptyString => EmptyString
  end.

Definition hexValue (c : ascii) : Z :=
  if isDigit c then byte c - 48
  else if (97 <=? byte c) && (byte c <=? 102) then byte c - 87
  else byte c - 55.

(** [getu4]: the code unit of a [\uXXXX] escape at the head of [s]. *)
Definition getu4 (s : string) : option (Z * string) :=
  match s with
  | String b (String u (String h1 (String h2 (String h3 (String h4 rest))))) =>
      if Ascii.eqb b backslash && Ascii.eqb u "u"
         && isHex h1 && isHex h2 && isHex h3 && isHex h4
      then Some (((hexValue h1 * 16 + hexValue h2) * 16 + hexValue h3) * 16 + hexValue h4,
                 rest)
      else None
  | _ => None
  end.

(** [utf8.EncodeRune] *)
Definition encodeRune (r : Z) : string :=
  let str := fun l => string_of_list_ascii (map chr l) in
  if r <? 128 then str [r]
  else if r <? 2048 then str [192 + r / 64; 128 + r `mod` 64]
  else if r <? 65536 then str [224 + r / 4096; 128 + (r / 64) `mod` 64; 128 + r `mod` 64]
  else str [240 + r / 262144; 128 + (r / 4096) `mod` 64; 128 + (r / 64) `mod` 64;
            128 + r `mod` 64].

Definition replacementChar : Z := 65533.

Definition isSurrogate (r : Z) : bool := (55296 <=? r) && (r <? 57344).

(** [utf16.DecodeRune] *)
Definition decodeSurrogates (r1 r2 : Z) : Z :=
  if (55296 <=? r1) && (r1 <? 56320) && (56320 <=? r2) && (r2 <? 57344)
  then (r1 - 55296) * 1024 + (r2 - 56320) + 65536
  else replacementChar.

Definition simpleEscape (c : ascii) : option ascii :=
  if Ascii.eqb c dquote || Ascii.eqb c backslash || Ascii.eqb c "/" then Some c
  else if Ascii.eqb c "b" then Some (chr 8)
  else if Ascii.eqb c "f" then Some (chr 12)
  else if Ascii.eqb c "n" then Some (chr 10)
  else if Ascii.eqb c "r" then Some (chr 13)
  else if Ascii.eqb c "t" then Some (chr 9)
  else None.

(** [unquote], from the byte after the opening quote: the text of the
    string and what follows its closing quote. *)
Fixpoint unquote (fuel : nat) (s : string) : option (string * string) :=
  match fuel with
  | O => None
  | S fuel =>
      match s with
      | EmptyString => None
      | String c rest =>
          if Ascii.eqb c dquote then Some (EmptyString, rest)
          else if Ascii.eqb c backslash then
            match rest with
            | String e rest' =>
                if Ascii.eqb e "u" then
                  match getu4 s with
                  | Some (rr, after) =>
                      let '(rune, after) :=
                        if isSurrogate rr then
                          match getu4 after with
                          | Some (rr1, after1) =>
                              if decodeSurrogates rr rr1 =? replacementChar
                              then (replacementChar, after)
                              else (decodeSurrogates rr rr1, after1)
                          | None => (replacementChar, after)
                          end
                        else (rr, after) in
                      match unquote fuel after with
                      | Some (t, r) => Some (encodeRune rune ++ t, r)
                      | None => None
                      end
                  | None => None
                  end
                else
                  match simpleEscape e, unquote fuel rest' with
                  | Some x, Some (t, r) => Some (String x t, r)
                  | _, _ => None
                  end
            | EmptyString => None
            end
          else if byte c <? 32 then None
          else
            match unquote fuel rest with
            | Some (t, r) => Some (String c t, r)
            | None => None
            end
      end
  end.

Definition isNumberByte (c : ascii) : bool :=
  isDigit c || existsb (Ascii.eqb c) (list_ascii_of_string "+-.eE").

Fixpoint spanNumber (s : string) : string * string :=
  match s with
  | String c rest =>
      if isNumberByte c then let '(n, r) := spanNumber rest in (String c n, r)
      else (EmptyString, s)
  | EmptyString => (EmptyString, EmptyString)
  end.

Definition stripPrefix (p s : string) : option string :=
  if String.prefix p s
  then Some (substring (String.length p) (String.length s - String.length p) s)
  else None.

(** The value at the head of a text that the scanner has accepted. *)
Fixpoint parseValue (fuel : nat) (s : string) : option (Value * string) :=
  match fuel with
  | O => None
  | S fuel =>
      match skipSpace s with
      | EmptyString => None
      | String c rest =>
          if Ascii.eqb c "{" then
            match skipSpace rest with
            | String "}" rest' => Some (Object [], rest')
            | _ => parseMembers fuel rest []
            end
          else if Ascii.eqb c "[" then
            match skipSpace rest with
            | String "]" rest' => Some (Array [], rest')
            | _ => parseElements fuel rest []
            end
          else if Ascii.eqb c dquote then
            match unquote (Datatypes.S (String.length rest)) rest with
            | Some (t, r) => Some (Str t, r)
            | None => None
            end
          else if Ascii.eqb c "t" then
            option_map (fun r => (Bool true, r)) (stripPrefix "rue" rest)
          else if Ascii.eqb c "f" then
            option_map (fun r => (Bool false, r)) (stripPrefix "alse" rest)
          else if Ascii.eqb c "n" then
            option_map (fun r => (Null, r)) (stripPrefix "ull" rest)
          else
            let '(n, r) := spanNumber (String c rest) in
            match n with
            | EmptyString => None
            | _ => Some (Number n, r)
            end
      end
  end
with parseElements (fuel : nat) (s : string) (acc : list Value)
     : option (Value * string) :=
  match fuel with
  | O => None
  | S fuel =>
      match parseValue fuel s with
      | Some (v, rest) =>
          match skipSpace rest with
          | String "," rest' => parseElements fuel rest' (v :: acc)
          | String "]" rest' => Some (Array (rev (v :: acc)), rest')
          | _ => None
          end
      | None => None
      end
  end
with parseMembers (fuel : nat) (s : string) (acc : list (string * Value))
     : option (Value * string) :=
  match fuel with
  | O => None
  | S fuel =>
      match skipSpace s with
      | String q rest =>
          if Ascii.eqb q dquote then
            match unquote (Datatypes.S (String.length rest)) rest with
            | Some (k, rest) =>
                match skipSpace rest with
                | String ":" rest =>
                    match parseValue fuel rest with
                    | Some (v, rest) =>
                        match skipSpace rest with
                        | String "," rest' => parseMembers fuel rest' ((k, v) :: acc)
                        | String "}" rest' => Some (Object (rev ((k, v) :: acc)), rest')
                        | _ => None
                        end
                    | None => None
                    end
                | _ => None
                end
            | None => None
            end
          else None
      | EmptyString => None
      end
  end.

(** Decoding into a destination of type [*any] (or [*string] for a text
    that is a string): the destination is overwritten. *)
Definition unmarshalAny (data : string) : jerror + Value :=
  match parseValue (2 * String.length data + 2) data with
  | Some (v, _) => inr v
  | None => inl ErrUnmarshal
  end.

(** *** The decoder

    [buf] is the input not yet consumed ([dec.buf[dec.scanp:]] and what
    the body still holds): the body is taken to arrive whole, and a read
    past its end reports [io.EOF], or the error of a closed body once
    [closed] is set.  The body is shared with whoever closes it. *)

Inductive TokenState :=
| tokenTopValue | tokenArrayStart | tokenArrayValue | tokenArrayComma
| tokenObjectStart | tokenObjectKey | tokenObjectColon | tokenObjectValue
| tokenObjectComma.

Record Decoder := mkDecoder {
  buf : string;
  closed : bool;
  derr : option jerror;
  tokenState : TokenState;
  tokenStack : list TokenState
}.

(** A [json.Token]: a delimiter or a basic value. *)
Inductive Token :=
| Delim (c : ascii)
| Basic (v : Value).

Definition NewDecoder (body : string) : Decoder :=
  mkDecoder body false None tokenTopValue [].

Definition setBuf (d : Decoder) (b : string) : Decoder :=
  mkDecoder b (closed d) (derr d) (tokenState d) (tokenStack d).

Definition setErr (d : Decoder) (e : jerror) : Decoder :=
  mkDecoder (buf d) (closed d) (Some e) (tokenState d) (tokenStack d).

Definition setState (d : Decoder) (st : TokenState) : Decoder :=
  mkDecoder (buf d) (closed d) (derr d) st (tokenStack d).

Definition closeBody (d : Decoder) : Decoder :=
  mkDecoder (buf d) true (derr d) (tokenState d) (tokenStack d).

(** The error of [dec.refill()] at the end of the body. *)
Definition readError (d : Decoder) : jerror :=
  if closed d then ErrBodyClosed else EOF.

(** [dec.peek()]: the next byte that is not a space. *)
Definition peek (d : Decoder) : (jerror + ascii) * Decoder :=
  match skipSpace (buf d) with
  | EmptyString => (inl (readError d), d)
  | String c rest => (inr c, setBuf d (String c rest))
  end.

(** [dec.advance] by one byte ([dec.scanp++]). *)
Definition advance (d : Decoder) : Decoder :=
  match buf d with
  | String _ rest => setBuf d rest
  | EmptyString => d
  end.

Definition tokenValueAllowed (d : Decoder) : bool :=
  match tokenState d with
  | tokenTopValue | tokenArrayStart | tokenArrayValue | tokenObjectValue => true
  | _ => false
  end.

Definition tokenValueEnd (d : Decoder) : Decoder :=
  match tokenState d with
  | tokenArrayStart | tokenArrayValue => setState d tokenArrayComma
  | tokenObjectValue => setState d tokenObjectComma
  | _ => d
  end.

Definition tokenPrepareForDecode (d : Decoder) : option jerror * Decoder :=
  match tokenState d with
  | tokenArrayComma =>
      match peek d with
      | (inl e, d) => (Some e, d)
      | (inr c, d) =>
          if Ascii.eqb c ","
          then (None, setState (advance d) tokenArrayValue)
          else (Some (ErrSyntax ExpectedCommaAfterArrayElement), d)
      end
  | tokenObjectColon =>
      match peek d with
      | (inl e, d) => (Some e, d)
      | (inr c, d) =>
          if Ascii.eqb c ":"
          then (None, setState (advance d) tokenObjectValue)
          else (Some (ErrSyntax ExpectedColonAfterObjectKey), d)
      end
  | _ => (None, d)
  end.

Definition scanErr (s : scanner) (c : ascii) : jerror :=
  match err s with
  | Some e => ErrSyntax e
  | None => ErrSyntax (InvalidCharacter c "")
  end.

Definition oneMore (r : jerror + nat) : jerror + nat :=
  match r with
  | inl e => inl e
  | inr n => inr (Datatypes.S n)
  end.

(** The loop of [dec.readValue()] over the input: the number of bytes
    of the value at its head.  At the end of the input the read error
    decides: a value that is complete there ends, otherwise an input
    with a byte that is not a space is an unexpected end. *)
Fixpoint scanValue (s : scanner) (input : string) (atEnd : jerror) (nonSpace : bool)
  : jerror + nat :=
  match input with
  | EmptyString =>
      match atEnd with
      | EOF =>
          match fst (scanStep s " ") with
          | scanEnd => inr O
          | _ => inl (if nonSpace then ErrUnexpectedEOF else EOF)
          end
      | e => inl e
      end
  | String c rest =>
      match scanStep s c with
      | (scanEnd, _) => inr O
      | (scanError, s') => inl (scanErr s' c)
      | (scanEndObject, s') | (scanEndArray, s') =>
          match stateEndValue s' " " with
          | (scanEnd, _) => inr 1%nat
          | (_, s'') => oneMore (scanValue s'' rest atEnd nonSpace)
          end
      | (_, s') => oneMore (scanValue s' rest atEnd nonSpace)
      end
  end.

Definition readValue (d : Decoder) : jerror + nat :=
  scanValue reset (buf d) (readError d) (negb (allb isSpace (buf d))).

(** [dec.Decode(v)], the destination given by how it takes the bytes of
    a value. *)
Definition Decode {A} (unmarshal : string -> jerror + A) (d : Decoder)
  : (jerror + A) * Decoder :=
  match derr d with
  | Some e => (inl e, d)
  | None =>
      match tokenPrepareForDecode d with
      | (Some e, d) => (inl e, d)
      | (None, d) =>
          if negb (tokenValueAllowed d) then (inl (ErrSyntax NotAtBeginningOfValue), d)
          else
            match readValue d with
            | inl e => (inl e, setErr d e)
            | inr n =>
                let value := substring 0 n (buf d) in
                let d := setBuf d (substring n (String.length (buf d) - n) (buf d)) in
                (unmarshal value, tokenValueEnd d)
            end
      end
  end.

Definition tokenError (d : Decoder) (c : ascii) : jerror :=
  ErrSyntax
    (InvalidCharacter c
       match tokenState d with
       | tokenTopValue | tokenArrayStart | tokenArrayValue | tokenObjectValue =>
           "looking for beginning of value"
       | tokenArrayComma => "after array element"
       | tokenObjectKey => "looking for beginning of object key string"
       | tokenObjectColon => "after object key"
       | tokenObjectComma => "after object key:value pair"
       | tokenObjectStart => ""
       end).

Definition pushState (d : Decoder) (st : TokenState) : Decoder :=
  mkDecoder (buf d) (closed d) (derr d) st (tokenState d :: tokenStack d).

Definition popState (d : Decoder) : Decoder :=
  match tokenStack d with
  | st :: stack => mkDecoder (buf d) (closed d) (derr d) st stack
  | [] => d
  end.

(** One round of the loop of [dec.Token()]: a result, or [continue]
    after a colon or a comma. *)
Inductive TokenStep :=
| Yield (r : jerror + Token) (d : Decoder)
| Again (d : Decoder).

Definition basicValue (d : Decoder) : TokenStep :=
  match Decode unmarshalAny d with
  | (inl e, d) => Yield (inl e) d
  | (inr v, d) => Yield (inr (Basic v)) d
  end.

Definition tokenStep (d : Decoder) : TokenStep :=
  match peek d with
  | (inl e, d) => Yield (inl e) d
  | (inr c, d) =>
      if Ascii.eqb c "[" then
        if negb (tokenValueAllowed d) then Yield (inl (tokenError d c)) d
        else Yield (inr (Delim c)) (pushState (advance d) tokenArrayStart)
      else if Ascii.eqb c "]" then
        match tokenState d with
        | tokenArrayStart | tokenArrayComma =>
            Yield (inr (Delim c)) (tokenValueEnd (popState (advance d)))
        | _ => Yield (inl (tokenError d c)) d
        end
      else if Ascii.eqb c "{" then
        if negb (tokenValueAllowed d) then Yield (inl (tokenError d c)) d
        else Yield (inr (Delim c)) (pushState (advance d) tokenObjectStart)
      else if Ascii.eqb c "}" then
        match tokenState d with
        | tokenObjectStart | tokenObjectComma =>
            Yield (inr (Delim c)) (tokenValueEnd (popState (advance d)))
        | _ => Yield (inl (tokenError d c)) d
        end
      else if Ascii.eqb c ":" then
        match tokenState d with
        | tokenObjectColon => Again (setState (advance d) tokenObjectValue)
        | _ => Yield (inl (tokenError d c)) d
        end
      else if Ascii.eqb c "," then
        match tokenState d with
        | tokenArrayComma => Again (setState (advance d) tokenArrayValue)
        | tokenObjectComma => Again (setState (advance d) tokenObjectKey)
        | _ => Yield (inl (tokenError d c)) d
        end
      else
        let value :=
          if negb (tokenValueAllowed d) then Yield (inl (tokenError d c)) d
          else basicValue d in
        if Ascii.eqb c dquote then
          match tokenState d with
          | tokenObjectStart | tokenObjectKey =>
              let old := tokenState d in
              match Decode unmarshalAny (setState d tokenTopValue) with
              | (inl e, d) => Yield (inl e) (setState d old)
              | (inr x, d) => Yield (inr (Basic x)) (setState d tokenObjectColon)
              end
          | _ => value
          end
        else value
  end.

(** [dec.Token()].  After a colon or a comma the state admits neither,
    so the loop takes at most two rounds. *)
Definition Token_ (d : Decoder) : (jerror + Token) * Decoder :=
  match tokenStep d with
  | Yield r d => (r, d)
  | Again d =>
      match tokenStep d with
      | Yield r d => (r, d)
      | Again d => (inl (tokenError d ","), d)
      end
  end.

(** A decoder with less input left than another. *)
Definition shorter (d' d : Decoder) : Prop :=
  (String.length (buf d') < String.length (buf d))%nat.

(** [dec.More()] *)
Definition More (d : Decoder) : bool * Decoder :=
  match peek d with
  | (inl _, d) => (false, d)
  | (inr c, d) => (negb (Ascii.eqb c "]") && negb (Ascii.eqb c "}"), d)
  end.

(** [json.Unmarshal(data, &v)] for a [v] of type [any]: the text is
    one value, with nothing but spaces after it. *)
Definition Unmarshal (data : string) : option Value :=
  match scanValue reset data EOF true with
  | inr n =>
      if allb isSpace (substring n (String.length data - n) data) then
        match unmarshalAny data with
        | inr v => Some v
        | inl _ => None
        end
      else None
  | inl _ => None
  end.

End Json.

(** ** [stream.go]: [RowScanner] and [ExecSQLStream] *)

Module Stream.
Import GoString Http Helpers Executor Json.

(** The errors a scanner records: those of the decoder, and
    "unexpected token after rows: %v". *)
Inductive StreamError :=
| DecoderError (e : jerror)
| UnexpectedTokenAfterRows (tok : Token).

(** [RowScanner] streams rows for large SELECTs without loading the
    entire set.  [closer] says whether the field is non-nil; the body it
    closes is the one [dec] reads. *)
Record RowScanner := mkRowScanner {
  dec : Decoder;
  closer : bool;
  inRows : bool;
  done : bool;
  lastErr : option StreamError
}.

Definition withDec (s : RowScanner) (d : Decoder) : RowScanner :=
  mkRowScanner d (closer s) (inRows s) (done s) (lastErr s).

(** [Close] closes the underlying response body if still open. *)
Definition Close (s : RowScanner) : RowScanner :=
  if closer s
  then mkRowScanner (closeBody (dec s)) false (inRows s) (done s) (lastErr s)
  else s.

(** [Err] returns the last error encountered by the scanner, if any. *)
Definition Err (s : RowScanner) : option StreamError := lastErr s.

(** [s.lastErr = err; _ = s.Close(); return false] *)
Definition fail (s : RowScanner) (e : StreamError) : RowScanner :=
  Close (mkRowScanner (dec s) (closer s) (inRows s) (done s) (Some e)).

Definition isRows (tok : Token) : bool :=
  match tok with
  | Basic (Str key) => String.eqb key "rows"
  | _ => false
  end.

Definition isArrayOpen (tok : Token) : bool :=
  match tok with
  | Delim c => Ascii.eqb c "["
  | _ => false
  end.

(** The loop that seeks the rows array: [true] when the scanner is now
    inside it, [false] when [Next] returns false.  [None]: the loop has
    not ended within [fuel] tokens. *)
Fixpoint seekRows (fuel : nat) (s : RowScanner) : option (bool * RowScanner) :=
  match fuel with
  | O => None
  | S fuel =>
      match Token_ (dec s) with
      | (inl err, d) => Some (false, fail (withDec s d) (DecoderError err))
      | (inr tok, d) =>
          if isRows tok then
            match Token_ d with
            | (inl err, d) => Some (false, fail (withDec s d) (DecoderError err))
            | (inr tok, d) =>
                if negb (isArrayOpen tok)
                then Some (false, fail (withDec s d) (UnexpectedTokenAfterRows tok))
                else Some (true, mkRowScanner d (closer s) true (done s) (lastErr s))
            end
          else seekRows fuel (withDec s d)
      end
  end.

(** Decode next element or finish array. *)
Definition nextElement {A} (unmarshal : string -> jerror + A) (s : RowScanner)
  : bool * option A * RowScanner :=
  match More (dec s) with
  | (true, d) =>
      match Decode unmarshal d with
      | (inl err, d) => (false, None, fail (withDec s d) (DecoderError err))
      | (inr row, d) => (true, Some row, withDec s d)
      end
  | (false, d) =>
      (* Consume closing ']' and finish. *)
      let '(_, d) := Token_ d in
      (false, None, Close (mkRowScanner d (closer s) (inRows s) true (lastErr s)))
  end.

(** [Next] decodes the next row into [dst]: whether it did, the row
    decoded, and the scanner after the call.  Every token takes a byte of
    the input, which bounds the seeking loop. *)
Definition Next {A} (unmarshal : string -> jerror + A) (s : RowScanner)
  : option (bool * option A * RowScanner) :=
  if done s then Some (false, None, s)
  else if negb (inRows s) then
    match seekRows (Datatypes.S (String.length (buf (dec s)))) s with
    | None => None
    | Some (false, s) => Some (false, None, s)
    | Some (true, s) => Some (nextElement unmarshal s)
    end
  else Some (nextElement unmarshal s).

(** The next [n] tokens of a decoder, as [n] calls of [dec.Token()]
    give them, and the decoder after them; [None] when one of the calls
    fails. *)
Fixpoint readTokens (n : nat) (d : Decoder) : option (list Token * Decoder) :=
  match n with
  | O => Some ([], d)
  | Datatypes.S n =>
      match Token_ d with
      | (inl _, _) => None
      | (inr tok, d) =>
          match readTokens n d with
          | Some (toks, d) => Some (tok :: toks, d)
          | None => None
          end
      end
  end.

(** What [ExecSQLStream] does with the response of [doRequest]. *)
Inductive Opened :=
| Scanner (s : RowScanner)
| StartError (e : jerror)                 (* the body is closed *)
| UnexpectedResponseStart (tok : Token).  (* the body is closed *)

Definition open (res : Response.t) : Opened :=
  match Token_ (NewDecoder (Response.Body res)) with
  | (inl err, _) => StartError err
  | (inr tok, d) =>
      match tok with
      | Delim c =>
          if Ascii.eqb c "{" then Scanner (mkRowScanner d true false false None)
          else UnexpectedResponseStart tok
      | _ => UnexpectedResponseStart tok
      end
  end.

(** A [CallOption], by what it does to the headers of the call. *)
Definition CallOption := Header -> Header.

Definition WithIdempotencyKey (k : string) : CallOption :=
  fun h => Set_ h "x-idempotency-key" k.

Definition WithHeader (key value : string) : CallOption :=
  fun h => Add h key value.

(** [buildHeaders] collects headers from CallOptions into a header map. *)
Definition buildHeaders (h : Header) (opts : list CallOption) : Header :=
  mergeHeaders h (fold_left (fun co o => o co) opts ∅).

(** [ExecSQLStream] executes a SELECT and returns a RowScanner to
    iterate rows.  [escape] stands for [url.PathEscape]. *)
Definition ExecSQLStream {S In Out} (rt : Runtime S In Out) (escape : string -> string)
           (c : Client) (ctx : Context) (projectID : string) (req : In)
           (opts : list CallOption) (w : World S)
  : option (Outcome Opened * World S) :=
  let path := "/warlotSql/projects/" ++ escape projectID ++ "/sql" in
  let h := mergeHeaders (authHeaders c) (buildHeaders ∅ opts) in
  match doRequest rt c ctx "POST" path h (Some req) w with
  | None => None
  | Some (Failed err, w) => Some (Failed err, w)
  | Some (Returned res, w) => Some (Returned (open res), w)
  end.

End Stream.

(** ** [pager.go]: [Pager] *)

Module Paging.

(** [Pager] iterates through table rows using repeated Browse calls.
    [Project.Browse] is the fetch of one page from the remote service: a
    function of the table, the limit and the offset over the state [W] of
    what it talks to, giving the rows of the response or an error. *)
Record Pager := mkPager {
  Table : string;
  Limit : Z;
  Offset : Z;
  Done : bool
}.

Section WithBrowse.
Context {W Row E : Type}.
Variable Browse : string -> Z -> Z -> W -> (E + list Row) * W.

(** [Next] returns the next batch of rows, or nil when iteration
    finishes: the rows (nil as [None]), the error (nil as [None]), the
    pager and the state after the call. *)
Definition Next (p : Pager) (w : W) : option (list Row) * option E * Pager * W :=
  if Done p then (None, None, p, w)
  else
    match Browse (Table p) (Limit p) (Offset p) w with
    | (inl err, w) => (None, Some err, p, w)
    | (inr rows, w) =>
        if (List.length rows =? 0)%nat
        then (None, None, mkPager (Table p) (Limit p) (Offset p) true, w)
        else (Some rows, None,
              mkPager (Table p) (Limit p)
                (GoInt.wrap64 (Offset p + Z.of_nat (List.length rows))) (Done p),
              w)
    end.

End WithBrowse.

End Paging.

(** ** Reading a trace *)

Module Observe.

Definition isDo (e : Event) : bool :=
  match e with
  | Do _ _ _ => true
  | _ => false
  end.

(** The number of requests handed to [HTTPClient.Do]. *)
Definition requests (t : list Event) : Z :=
  Z.of_nat (List.length (List.filter isDo t)).

(** The result of the latest of them. *)
Fixpoint lastDo (t : list Event) : option DoResult :=
  match t with
  | [] => None
  | Do _ _ res :: _ => Some res
  | _ :: t => lastDo t
  end.

(** The instants at which [HTTPClient.Do] was called, latest first. *)
Fixpoint doTimes (t : list Event) : list Z :=
  match t with
  | [] => []
  | Do clock _ _ :: t => clock :: doTimes t
  | _ :: t => doTimes t
  end.

(** The timers and the durations of the sleeps, latest first. *)
Fixpoint sleeps (t : list Event) : list (Z * Z) :=
  match t with
  | [] => []
  | Sleep timer slept :: t => (timer, slept) :: sleeps t
  | _ :: t => sleeps t
  end.

(** The headers given to the Logger with its "request" events. *)
Fixpoint loggedHeaders (t : list Event) : list Http.Header :=
  match t with
  | [] => []
  | LogRequest _ _ h _ :: t => h :: loggedHeaders t
  | _ :: t => loggedHeaders t
  end.

(** The requests handed to [HTTPClient.Do]. *)
Fixpoint sent (t : list Event) : list Request.t :=
  match t with
  | [] => []
  | Do _ req _ :: t => req :: sent t
  | _ :: t => sent t
  end.

(** A wait whose timer is within the cap and which lasts no longer than
    its timer. *)
Definition capped (maxBack : Z) (x : Z * Z) : Prop :=
  fst x <= maxBack /\ snd x <= Z.max 0 (fst x).

End Observe.

(** ** The parts of a round, named for the statements below *)

Module Rounds.
Import GoInt GoString Http Helpers Executor.

Section WithCall.
Context {S In Out : Type} (rt : Runtime S In Out).
Variables (c : Client) (ctx : Context) (method u : string) (hdr : Header).

(** The request of an attempt as [HTTPClient.Do] receives it. *)
Definition outgoing (rc : option string) : Request.t :=
  runBeforeHooks c (applyHeaders c hdr (Request.mk method u ∅ rc)).

(** The body can be encoded and the request can be made. *)
Definition buildable (in_ : option In) (rc : option string) : Prop :=
  makeBody rt in_ = Returned rc /\ ValidRequest rt method u = true.

(** The world after the send of an attempt, the "response" event and
    the after-hooks. *)
Definition afterDo (rc : option string) (attempt : Z) (w : World S)
           (res : DoResult) (clock : Z) (s' : S) : World S :=
  runAfterHooks c res
    (logResponse c method u res attempt
       (mkWorld clock s'
          (Do (now w) (outgoing rc) res
             :: trace (logRequest c method u
                         (applyHeaders c hdr (Request.mk method u ∅ rc)) attempt w)))).

(** The end of a round that goes on: the backoff sleep when an attempt
    remains. *)
Definition pause {A} (retries maxBack attempt backoff : Z) (lastErr : option error)
           (w : World S) : Flow A * World S :=
  if attempt <? retries
  then (Continue lastErr (nextBackoff backoff maxBack), jitterSleep ctx backoff maxBack w)
  else (Continue lastErr backoff, w).

End WithCall.

End Rounds.

(** ** Concrete calls, for the examples below *)

Module Scenario.
Import GoInt GoString Http Helpers Executor Json Stream.

Definition background : Context := {| doneAt := None |}.

(** A transport over a service that counts the requests it has seen and
    answers the [n]-th by [script n], in no time.  Under a context that
    is done it reports the cancellation, as [net/http] does. *)
Definition scripted (script : nat -> Response.t) : Runtime nat string Json.Value :=
  mkRuntime
    (fun b => Some b)
    Json.Unmarshal
    (fun _ => None)
    (fun _ => None)
    (fun _ _ => true)
    (fun ctx _ clock n =>
       if isDone ctx clock
       then (DoError ContextCanceled, clock, Datatypes.S n)
       else (DoResponse (script n), clock, Datatypes.S n)).

Definition client (key : string) (retries initial max : Z) : Client :=
  mkClient "https://api.example" key "" "" "warlot-go/0.2" retries initial max
    true [] 0.

Definition start (clock : Z) : World nat := mkWorld clock 0%nat [].

(** A success status with a body that is not JSON. *)
Definition malformed : Response.t := Response.mk 200 ∅ "not json".

(** A service that is never available. *)
Definition unavailable : nat -> Response.t :=
  fun _ => Response.mk 503 ∅ "unavailable".

(** A service that limits the first request, asking for a second of
    patience, and serves the next ones. *)
Definition rateLimited : nat -> Response.t :=
  fun n =>
    match n with
    | O => Response.mk 429 (Set_ ∅ "Retry-After" "1") "rate limited"
    | _ => Response.mk 200 ∅ "true"
    end.

(** A context cancelled at the instant [d]. *)
Definition cancelledAt (d : Z) : Context := {| doneAt := Some d |}.

(** JSON text: a string literal, and the row [{"id":n}] as text and as
    the value it decodes to. *)
Definition quoted (s : string) : string :=
  String dquote (s ++ String dquote EmptyString).

Definition rowText (n : string) : string := "{" ++ quoted "id" ++ ":" ++ n ++ "}".

Definition row (n : string) : Json.Value := Json.Object [("id", Json.Number n)].

(** [{"ok":true,"rows":[{"id":1},{"id":2},{"id":3}]}] *)
Definition threeRows : string :=
  "{" ++ quoted "ok" ++ ":true," ++ quoted "rows" ++ ":["
      ++ rowText "1" ++ "," ++ rowText "2" ++ "," ++ rowText "3" ++ "]}".

(** [{"ok":true,"rows":[{"id":1},{"id":2}]: the body of
    [Test_RowScanner_MalformedJSON_Error], cut before the array closes. *)
Definition truncated : string :=
  "{" ++ quoted "ok" ++ ":true," ++ quoted "rows" ++ ":["
      ++ rowText "1" ++ "," ++ rowText "2".

(** [{"note":"rows","rows":[{"id":1}]}]: the string "rows" is the value
    of a field before the field of that name. *)
Definition shadowed : string :=
  "{" ++ quoted "note" ++ ":" ++ quoted "rows" ++ "," ++ quoted "rows" ++ ":["
      ++ rowText "1" ++ "]}".

(** A service that answers every request with status 200 and [body]. *)
Definition serving (body : string) : nat -> Response.t :=
  fun _ => Response.mk 200 ∅ body.

(** The scanner [ExecSQLStream] makes of a response with [body]: the
    decoder past the opening brace. *)
Definition scannerOf (body : string) : RowScanner :=
  mkRowScanner
    (snd (Token_ (NewDecoder body))) true false false None.

(** A service that knows no such thing. *)
Definition missing : nat -> Response.t := fun _ => Response.mk 404 ∅ "missing".

(** A key that the masking of [redactHeaders] leaves as it is: four
    bytes, the separator, four bytes. *)
Definition selfMasked : string := "abcd" ++ ellipsis ++ "efgh".

(** A table of four rows browsed two at a time: the fetch answers by the
    number of calls before it, and keeps the limits and offsets it was
    called with, latest first. *)
Definition fourRows
  : string -> Z -> Z -> list (Z * Z) -> (string + list Json.Value) * list (Z * Z) :=
  fun _ limit offset calls =>
    (inr match List.length calls with
         | O => [row "1"; row "2"]
         | Datatypes.S O => [row "3"; row "4"]
         | _ => []
         end,
     (limit, offset) :: calls).

(** A fetch that fails. *)
Definition failing
  : string -> Z -> Z -> list (Z * Z) -> (string + list Json.Value) * list (Z * Z) :=
  fun _ limit offset calls => (inl "browse failed", (limit, offset) :: calls).

End Scenario.

(** ** Statements of the specification that the code does not meet *)

Module Claims.
Import GoInt GoString Http Helpers Executor Observe.

(** A call unwinds on cancellation: when the signal fires while the call
    is under way, no attempt is started at or after that instant, and
    the call does not end with the attempts error. *)
Definition unwindsOnCancel {S In Out} (rt : Runtime S In Out) (c : Client) (ctx : Context)
           (method path : string) (hdr : Header) (in_ : option In) (out : bool)
           (w : World S) : Prop :=
  forall d r w',
    doneAt ctx = Some d ->
    doJSON rt c ctx method path hdr in_ out w = Some (r, w') ->
    now w < d <= now w' ->
    Forall (fun t => t < d) (doTimes (trace w'))
    /\ forall n le, r <> Failed (ErrAttempts n le).

(** The Logger never sees the key: for a key of more than eight bytes
    sent with the authentication headers, no "request" event of the call
    holds it as the value of [x-api-key]. *)
Definition keyNeverLogged {S In Out} (rt : Runtime S In Out) (c : Client) (ctx : Context)
           (method path : string) (in_ : option In) (out : bool) (w : World S) : Prop :=
  8 < len (APIKey c) ->
  forall r w',
    doJSON rt c ctx method path (authHeaders c) in_ out w = Some (r, w') ->
    Forall (fun h => Get h "x-api-key" <> APIKey c) (loggedHeaders (trace w')).

End Claims.

(** ** [strconv], [strings] and [net/url], as the callers below use them *)

Module Strconv.
Import GoString.

(** The loop of [formatBits] in base 10: the digits of [n], the least
    significant first, each written in front of [acc].  Twenty rounds
    cover a 64-bit value. *)
Fixpoint utoa (fuel : nat) (n : Z) (acc : string) : string :=
  match fuel with
  | O => acc
  | Datatypes.S fuel =>
      let acc := String (chr (48 + n mod 10)) acc in
      if n <? 10 then acc else utoa fuel (n / 10) acc
  end.

(** [strconv.Itoa] *)
Definition Itoa (i : Z) : string :=
  if i <? 0 then String "-" (utoa 20 (- i) "") else utoa 20 i "".

End Strconv.

Module Strings.

(** [strings.TrimRight(s, cutset)] for a cutset of one ASCII byte, which
    is the loop [for len(s) > 0 && s[len(s)-1] == c { s = s[:len(s)-1] }]. *)
Fixpoint trimRightByte (s : string) (c : ascii) : string :=
  match s with
  | EmptyString => EmptyString
  | String a rest =>
      match trimRightByte rest c with
      | EmptyString => if Ascii.eqb a c then EmptyString else String a EmptyString
      | kept => String a kept
      end
  end.

End Strings.

Module Url.
Import GoString.

Definition upperhex (n : Z) : ascii :=
  if n <? 10 then chr (48 + n) else chr (55 + n).

(** [shouldEscape(c, encodeQueryComponent)]: everything but the
    unreserved characters is escaped. *)
Definition shouldEscapeQuery (c : ascii) : bool :=
  negb (isLower c || isUpper c || isDigit c
        || existsb (Ascii.eqb c) (list_ascii_of_string "-_.~")).

(** [url.QueryEscape] *)
Fixpoint QueryEscape (s : string) : string :=
  match s with
  | EmptyString => EmptyString
  | String c rest =>
      if shouldEscapeQuery c then
        if Ascii.eqb c " " then String "+" (QueryEscape rest)
        else String "%" (String (upperhex (Z.shiftr (byte c) 4))
                           (String (upperhex (Z.land (byte c) 15)) (QueryEscape rest)))
      else String c (QueryEscape rest)
  end.

(** [url.Values], a [map[string][]string]. *)
Abbreviation Values := (gmap string (list string)).

(** [v.Set(key, value)] *)
Definition Set_ (v : Values) (key value : string) : Values := <[key := [value]]> v.

Fixpoint insertSorted (k : string) (keys : list string) : list string :=
  match keys with
  | [] => [k]
  | k' :: rest => if String.leb k k' then k :: keys else k' :: insertSorted k rest
  end.

(** The keys of the map in increasing order ([slices.Sort]). *)
Definition sortedKeys (v : Values) : list string :=
  fold_right insertSorted [] (map fst (map_to_list v)).

(** [v.Encode()]: "bar=baz&foo=quux", sorted by key. *)
Definition Encode (v : Values) : string :=
  fold_left
    (fun buf k =>
       fold_left
         (fun buf value =>
            (if String.eqb buf "" then buf else buf ++ "&")
              ++ QueryEscape k ++ "=" ++ QueryEscape value)
         (default [] (v !! k)) buf)
    (sortedKeys v) "".

End Url.

(** ** [options.go]: client and call options *)

Module Options.
Import GoString Http Helpers.

(** [Option] customizes a Client at construction time. *)
Definition Option_ := Client -> Client.

Definition WithBaseURL (u : string) : Option_ :=
  fun c => mkClient (Strings.trimRightByte u "/") (APIKey c) (HolderID c) (ProjectName c)
             (UserAgent c) (MaxRetries c) (InitialBackoff c) (MaxBackoff c) (Logger c)
             (BeforeHooks c) (AfterHooks c).

Definition WithAPIKey (k : string) : Option_ :=
  fun c => mkClient (BaseURL c) k (HolderID c) (ProjectName c)
             (UserAgent c) (MaxRetries c) (InitialBackoff c) (MaxBackoff c) (Logger c)
             (BeforeHooks c) (AfterHooks c).

Definition WithHolderID (h : string) : Option_ :=
  fun c => mkClient (BaseURL c) (APIKey c) h (ProjectName c)
             (UserAgent c) (MaxRetries c) (InitialBackoff c) (MaxBackoff c) (Logger c)
             (BeforeHooks c) (AfterHooks c).

Definition WithProjectName (n : string) : Option_ :=
  fun c => mkClient (BaseURL c) (APIKey c) (HolderID c) n
             (UserAgent c) (MaxRetries c) (InitialBackoff c) (MaxBackoff c) (Logger c)
             (BeforeHooks c) (AfterHooks c).

Definition WithUserAgent (ua : string) : Option_ :=
  fun c => mkClient (BaseURL c) (APIKey c) (HolderID c) (ProjectName c)
             ua (MaxRetries c) (InitialBackoff c) (MaxBackoff c) (Logger c)
             (BeforeHooks c) (AfterHooks c).

Definition WithRetries (max : Z) : Option_ :=
  fun c => mkClient (BaseURL c) (APIKey c) (HolderID c) (ProjectName c)
             (UserAgent c) max (InitialBackoff c) (MaxBackoff c) (Logger c)
             (BeforeHooks c) (AfterHooks c).

Definition WithBackoff (init max : Z) : Option_ :=
  fun c => mkClient (BaseURL c) (APIKey c) (HolderID c) (ProjectName c)
             (UserAgent c) (MaxRetries c) init max (Logger c)
             (BeforeHooks c) (AfterHooks c).

(** [WithLogger(l)], by whether [l] is non-nil. *)
Definition WithLogger (l : bool) : Option_ :=
  fun c => mkClient (BaseURL c) (APIKey c) (HolderID c) (ProjectName c)
             (UserAgent c) (MaxRetries c) (InitialBackoff c) (MaxBackoff c) l
             (BeforeHooks c) (AfterHooks c).

(** [New] constructs a Client with safe defaults.  Options can override
    defaults. *)
Definition New (opts : list Option_) : Client :=
  fold_left (fun c f => f c) opts
    (mkClient "https://warlot-api.onrender.com" "" "" ""
       "warlot-go/0.2 (+https://github.com/yourorg/warlot-go)"
       3 (300 * Millisecond) (3 * Second) false [] 0).

(** An option that writes its headers through [Set] and [Add], as those
    of the package do: it leaves the keys of the header map canonical. *)
Definition keepsCanonical (o : Stream.CallOption) : Prop :=
  forall h, canonicalKeys h -> canonicalKeys (o h).

(** [WithLabel] sets an optional label for internal diagnostics; the
    headers are as they were. *)
Definition WithLabel (l : string) : Stream.CallOption := fun h => h.

End Options.

(** ** The API calls ([sql.go], [tables.go], [projects.go], [query.go]) *)

Module Api.
Import GoInt GoString Http Helpers Executor Stream.

(** [models.go] *)
Record SQLRequest := mkSQLRequest {
  SQL : string;
  Params : list Json.Value
}.

(** [SQLResponse] supports both DDL/DML and SELECT shapes. *)
Record SQLResponse := mkSQLResponse {
  OK : bool;
  RowCount : option Z;
  Rows : list Json.Value;
  Error : string
}.

Record BrowseRowsResponse := mkBrowseRowsResponse {
  BrowseLimit : Z;
  BrowseOffset : Z;
  BrowseTable : string;
  BrowseRows_ : list Json.Value
}.

Record ResolveProjectRequest := mkResolveProjectRequest {
  ReqHolderID : string;
  ReqProjectName : string
}.

(** [ResolveProjectResponse] accepts both modern snake_case and legacy
    PascalCase. *)
Record ResolveProjectResponse := mkResolveProjectResponse {
  ExistsMeta : bool;
  ExistsChain : bool;
  ProjectID : string;
  DBID : string;
  Action : string;
  LegacyProjectID : string;
  LegacyDBID : string
}.

(** The zero values that a decode target holds before the decoding. *)
Definition zeroSQLResponse : SQLResponse := mkSQLResponse false None [] "".
Definition zeroBrowseRowsResponse : BrowseRowsResponse := mkBrowseRowsResponse 0 0 "" [].
Definition zeroResolveProjectResponse : ResolveProjectResponse :=
  mkResolveProjectResponse false false "" "" "" "" "".

(** The errors of the calls: those of the executor, [errors.New(msg)],
    and "row decoding failed: %w". *)
Inductive CallError :=
| FromExecutor (err : error)
| Message (msg : string)
| RowDecoding.

(** [h := c.authHeaders(); mergeHeaders(h, buildHeaders(nil, opts...))] *)
Definition callHeaders (c : Client) (opts : list CallOption) : Header :=
  mergeHeaders (authHeaders c) (buildHeaders ∅ opts).

Section WithWorld.
Context {S : Type}.

(** [ExecSQL] executes a parameterized SQL statement within a project:
    the response (nil as [None]) and the error.  [escape] stands for
    [url.PathEscape]. *)
Definition ExecSQL (rt : Runtime S SQLRequest SQLResponse) (escape : string -> string)
           (c : Client) (ctx : Context) (projectID : string) (req : SQLRequest)
           (opts : list CallOption) (w : World S)
  : option (option SQLResponse * option CallError * World S) :=
  let path := "/warlotSql/projects/" ++ escape projectID ++ "/sql" in
  match doJSON rt c ctx "POST" path (callHeaders c opts) (Some req) true w with
  | None => None
  | Some (Failed err, w) => Some (None, Some (FromExecutor err), w)
  | Some (Returned v, w) =>
      let out := default zeroSQLResponse v in
      if negb (OK out) && negb (String.eqb (Error out) "")
      then Some (Some out, Some (Message (Error out)), w)
      else Some (Some out, None, w)
  end.

(** The path of [BrowseRows], with its query. *)
Definition browsePath (escape : string -> string) (projectID table : string)
           (limit offset : Z) : string :=
  let q : Url.Values := ∅ in
  let q := if 0 <? limit then Url.Set_ q "limit" (Strconv.Itoa limit) else q in
  let q := if 0 <? offset then Url.Set_ q "offset" (Strconv.Itoa offset) else q in
  let path := "/warlotSql/projects/" ++ escape projectID ++ "/tables/"
                ++ escape table ++ "/rows" in
  let qs := Url.Encode q in
  if negb (String.eqb qs "") then path ++ "?" ++ qs else path.

(** [BrowseRows] returns a page of table rows. *)
Definition BrowseRows {In} (rt : Runtime S In BrowseRowsResponse) (escape : string -> string)
           (c : Client) (ctx : Context) (projectID table : string) (limit offset : Z)
           (opts : list CallOption) (w : World S)
  : option (option BrowseRowsResponse * option CallError * World S) :=
  match doJSON rt c ctx "GET" (browsePath escape projectID table limit offset)
          (callHeaders c opts) None true w with
  | None => None
  | Some (Failed err, w) => Some (None, Some (FromExecutor err), w)
  | Some (Returned v, w) => Some (Some (default zeroBrowseRowsResponse v), None, w)
  end.

(** The legacy fields of a decoded response take the place of the
    modern ones that are empty. *)
Definition normalizeLegacy (out : ResolveProjectResponse) : ResolveProjectResponse :=
  let projectID :=
    if String.eqb (ProjectID out) "" && negb (String.eqb (LegacyProjectID out) "")
    then LegacyProjectID out else ProjectID out in
  let dbID :=
    if String.eqb (DBID out) "" && negb (String.eqb (LegacyDBID out) "")
    then LegacyDBID out else DBID out in
  mkResolveProjectResponse (ExistsMeta out) (ExistsChain out) projectID dbID (Action out)
    (LegacyProjectID out) (LegacyDBID out).

(** [ResolveProject] resolves a project by holder and name.  Legacy
    fields are normalized to the modern shape if necessary. *)
Definition ResolveProject (rt : Runtime S ResolveProjectRequest ResolveProjectResponse)
           (c : Client) (ctx : Context) (req : ResolveProjectRequest)
           (opts : list CallOption) (w : World S)
  : option (option ResolveProjectResponse * option CallError * World S) :=
  match doJSON rt c ctx "POST" "/warlotSql/projects/resolve" (buildHeaders ∅ opts)
          (Some req) true w with
  | None => None
  | Some (Failed err, w) => Some (None, Some (FromExecutor err), w)
  | Some (Returned v, w) =>
      Some (Some (normalizeLegacy (default zeroResolveProjectResponse v)), None, w)
  end.

(** The loop of [Query] over the rows: each row through JSON into a
    [T]; the first row that does not decode ends it. *)
Fixpoint decodeRows {T} (decodeRow : Json.Value -> option T) (rows : list Json.Value)
  : option (list T) :=
  match rows with
  | [] => Some []
  | row :: rows =>
      match decodeRow row with
      | None => None
      | Some t =>
          match decodeRows decodeRow rows with
          | None => None
          | Some out => Some (t :: out)
          end
      end
  end.

(** [Query] maps a SELECT result set into a typed slice using JSON
    round-trip; [decodeRow] stands for [json.Marshal] of a row followed
    by [json.Unmarshal] into a [T].  [Project.SQL] is [ExecSQL] on the
    project of the handle.  A nil response without an error, which
    [ExecSQL] never gives, is handed on as it is. *)
Definition Query {T} (rt : Runtime S SQLRequest SQLResponse) (escape : string -> string)
           (decodeRow : Json.Value -> option T)
           (c : Client) (ctx : Context) (projectID : string) (sql : string)
           (params : list Json.Value) (opts : list CallOption) (w : World S)
  : option (option (list T) * option CallError * World S) :=
  match ExecSQL rt escape c ctx projectID (mkSQLRequest sql params) opts w with
  | None => None
  | Some (_, Some err, w) => Some (None, Some err, w)
  | Some (None, None, w) => Some (None, None, w)
  | Some (Some res, None, w) =>
      if (List.length (Rows res) =? 0)%nat then Some (Some [], None, w)
      else
        match decodeRows decodeRow (Rows res) with
        | None => Some (None, Some RowDecoding, w)
        | Some out => Some (Some out, None, w)
        end
  end.

End WithWorld.

End Api.

(** ** [devcli/config.go]: defaults from the environment *)

Module Devcli.
Import GoInt GoString Helpers.

Definition atoiDefault (s : string) (d : Z) : Z :=
  if String.eqb s "" then d
  else
    match Atoi s with
    | None => d
    | Some i => i
    end.

Definition durMsDefault (msStr : string) (d : Z) : Z :=
  if String.eqb msStr "" then d
  else
    match Atoi msStr with
    | None => d
    | Some ms => wrap64 (ms * Millisecond)
    end.

End Devcli.

(** ** What the statements below say of a call *)

Module Ledger.
Import GoInt GoString Http Helpers Executor Observe.

(** The values of a Go [int64]. *)
Definition int64 (z : Z) : Prop := minInt64 <= z <= maxInt64.

(** What a round adds to the trace: one request, and one wait when an
    attempt remains and the loop goes on. *)
Definition accounted {S A} (retries maxBack attempt : Z) (w : World S)
           (f : Flow A) (w' : World S) : Prop :=
  requests (trace w') = requests (trace w) + 1
  /\ ((sleeps (trace w') = sleeps (trace w)
       /\ (attempt < retries -> exists r, f = Return r))
      \/ (attempt < retries
          /\ (exists le b, f = Continue le b)
          /\ exists x, sleeps (trace w') = x :: sleeps (trace w) /\ capped maxBack x)).

(** What a call adds to the trace: at least one and at most [most]
    requests, and one wait between each request and the next, each of
    them capped. *)
Definition bounded {S} (maxBack most : Z) (w w' : World S) : Prop :=
  exists k xs,
    1 <= k <= most
    /\ requests (trace w') = requests (trace w) + k
    /\ sleeps (trace w') = (xs ++ sleeps (trace w))%list
    /\ Z.of_nat (List.length xs) = k - 1
    /\ Forall (capped maxBack) xs.

(** A result of [HTTPClient.Do] after which the executors try again: no
    response, or one with status 429 or 5xx. *)
Definition retryable (res : DoResult) : Prop :=
  match res with
  | DoError _ => True
  | DoResponse r => Response.StatusCode r = 429 \/ 500 <= Response.StatusCode r <= 599
  end.

(** The [lastErr] that such a result leaves. *)
Definition retryError {S In Out} (rt : Runtime S In Out) (method u : string)
           (res : DoResult) : error :=
  match res with
  | DoError err => ErrCall method u (ErrTransport err)
  | DoResponse r =>
      ErrCall method u
        (ErrAPI (parseAPIError (UnmarshalMsg rt) (Response.StatusCode r) (Response.Body r)))
  end.

(** What [doJSON] hands back for a 2xx response: nothing when no target
    is given or the body is empty, the decoded body otherwise. *)
Definition decoded {S In Out} (rt : Runtime S In Out) (out : bool) (res : Response.t)
           (v : option Out) : Prop :=
  if out && (0 <? len (Response.Body res))
  then exists x, v = Some x /\ Unmarshal rt (Response.Body res) = Some x
  else v = None.

End Ledger.

(** ** Concrete services, for the examples of the API calls *)

Module Services.
Import GoInt GoString Http Helpers Executor.

(** A service that answers every request with status 200 and a body
    that decodes to [answer], in no time. *)
Definition answering {In Out} (answer : Out) : Runtime nat In Out :=
  mkRuntime
    (fun _ => Some "{}")
    (fun _ => Some answer)
    (fun _ => None)
    (fun _ => None)
    (fun _ _ => true)
    (fun _ _ clock n => (DoResponse (Response.mk 200 ∅ "{}"), clock, Datatypes.S n)).

(** A caller whose value [json.Marshal] refuses. *)
Definition unencodable : Runtime nat string Json.Value :=
  mkRuntime
    (fun _ => None)
    Json.Unmarshal
    (fun _ => None)
    (fun _ => None)
    (fun _ _ => true)
    (fun _ _ clock n => (DoResponse (Response.mk 200 ∅ "true"), clock, Datatypes.S n)).

End Services.

(** * Properties *)

Import GoInt GoString Http Helpers Executor Observe Rounds.

(** ** Arithmetic and frame facts *)

Lemma wrap64_id z : minInt64 <= z <= maxInt64 -> wrap64 z = z.
Proof.
  unfold wrap64, minInt64, maxInt64. intros H.
  rewrite Z.mod_small; lia.
Qed.

Lemma normalizeRetries_id n : 0 <= n -> normalizeRetries n = n.
Proof.
  intros H. unfold normalizeRetries.
  destruct (n <? 0) eqn:E; [apply Z.ltb_lt in E; lia | reflexivity].
Qed.

Section Frames.
Context {S In Out : Type} (rt : Runtime S In Out).
Variables (c : Client) (ctx : Context) (method u : string) (hdr : Header).

Lemma logRequest_frame req a (w : World S) :
  now (logRequest c method u req a w) = now w /\
  server (logRequest c method u req a w) = server w /\
  requests (trace (logRequest c method u req a w)) = requests (trace w) /\
  lastDo (trace (logRequest c method u req a w)) = lastDo (trace w).
Proof. unfold logRequest. destruct (Logger c); simpl; auto. Qed.

Lemma logResponse_frame res a (w : World S) :
  now (logResponse c method u res a w) = now w /\
  server (logResponse c method u res a w) = server w /\
  requests (trace (logResponse c method u res a w)) = requests (trace w) /\
  lastDo (trace (logResponse c method u res a w)) = lastDo (trace w).
Proof. unfold logResponse. destruct (Logger c); simpl; auto. Qed.

Lemma afterHooks_frame res (w : World S) :
  now (runAfterHooks c res w) = now w /\
  server (runAfterHooks c res w) = server w /\
  requests (trace (runAfterHooks c res w)) = requests (trace w) /\
  lastDo (trace (runAfterHooks c res w)) = lastDo (trace w).
Proof.
  unfold runAfterHooks. generalize (seq 0 (AfterHooks c)). intros l.
  revert w. induction l as [|i l IH]; intros w; simpl; auto.
  destruct (IH (record (AfterHook i res) w)) as (H1 & H2 & H3 & H4).
  rewrite H1, H2, H3, H4. simpl. auto.
Qed.

Lemma jitterSleep_frame b mb (w : World S) :
  server (jitterSleep ctx b mb w) = server w /\
  requests (trace (jitterSleep ctx b mb w)) = requests (trace w) /\
  lastDo (trace (jitterSleep ctx b mb w)) = lastDo (trace w).
Proof. unfold jitterSleep; simpl; auto. Qed.

Lemma HTTPClientDo_eq req (w : World S) res clock s' :
  RoundTrip rt ctx req (now w) (server w) = (res, clock, s') ->
  HTTPClientDo rt ctx req w = (res, mkWorld clock s' (Do (now w) req res :: trace w)).
Proof. intros H. unfold HTTPClientDo. rewrite H. reflexivity. Qed.

Lemma afterDo_frame rc attempt (w : World S) res clock s' :
  now (afterDo c method u hdr rc attempt w res clock s') = clock /\
  server (afterDo c method u hdr rc attempt w res clock s') = s' /\
  requests (trace (afterDo c method u hdr rc attempt w res clock s'))
  = requests (trace w) + 1 /\
  lastDo (trace (afterDo c method u hdr rc attempt w res clock s')) = Some res.
Proof.
  unfold afterDo.
  match goal with
  | |- context [runAfterHooks c res ?w0] =>
      destruct (afterHooks_frame res w0) as (H1 & H2 & H3 & H4)
  end.
  rewrite H1, H2, H3, H4.
  match goal with
  | |- context [logResponse c method u res attempt ?w0] =>
      destruct (logResponse_frame res attempt w0) as (G1 & G2 & G3 & G4)
  end.
  rewrite G1, G2, G3, G4. simpl.
  destruct (logRequest_frame (applyHeaders c hdr (Request.mk method u ∅ rc)) attempt w)
    as (_ & _ & K3 & _).
  unfold requests in *. simpl. repeat split; lia.
Qed.

Lemma pause_frame {A} retries maxBack attempt backoff lastErr (w : World S) :
  exists b' w',
    pause (A := A) ctx retries maxBack attempt backoff lastErr w
    = (Continue lastErr b', w') /\
    server w' = server w /\
    requests (trace w') = requests (trace w) /\
    lastDo (trace w') = lastDo (trace w).
Proof.
  unfold pause. destruct (attempt <? retries).
  - eexists _, _. split; [reflexivity |]. apply jitterSleep_frame.
  - eexists _, _. split; [reflexivity |]. auto.
Qed.

End Frames.

(** ** One round of the executors *)

Section RoundFacts.
Context {S In Out : Type} (rt : Runtime S In Out).
Variables (c : Client) (ctx : Context) (method u : string) (hdr : Header)
          (in_ : option In) (out : bool) (retries maxBack : Z).

(** A round of [doJSON], by the result of its send. *)
Lemma doJSON_round_eq rc attempt backoff (w : World S) res clock s' :
  buildable rt method u in_ rc ->
  RoundTrip rt ctx (outgoing c method u hdr rc) (now w) (server w) = (res, clock, s') ->
  doJSON_round rt c ctx method u hdr in_ out retries maxBack attempt backoff w =
  let w' := afterDo c method u hdr rc attempt w res clock s' in
  match res with
  | DoError err =>
      pause ctx retries maxBack attempt backoff
        (Some (ErrCall method u (ErrTransport err))) w'
  | DoResponse r =>
      let body := Response.Body r in
      if Z.quot (Response.StatusCode r) 100 =? 2 then
        if out && (0 <? len body) then
          match Unmarshal rt body with
          | None => pause ctx retries maxBack attempt backoff (Some (ErrDecode body)) w'
          | Some v => (Return (Returned (Some v)), w')
          end
        else (Return (Returned None), w')
      else
        let apiErr := parseAPIError (UnmarshalMsg rt) (Response.StatusCode r) body in
        if (Response.StatusCode r =? 429) || (Z.quot (Response.StatusCode r) 100 =? 5)
        then pause ctx retries maxBack attempt (raiseBackoff rt r (now w') backoff)
               (Some (ErrCall method u (ErrAPI apiErr))) w'
        else (Return (Failed (ErrAPI apiErr)), w')
  end.
Proof.
  intros [Hb Hv] HR. unfold doJSON_round. rewrite Hb.
  unfold NewRequestWithContext. rewrite Hv.
  destruct (logRequest_frame c method u
              (applyHeaders c hdr (Request.mk method u ∅ rc)) attempt w)
    as (K1 & K2 & _ & _).
  rewrite (HTTPClientDo_eq rt ctx _ _ res clock s');
    [| rewrite K1, K2; exact HR ].
  rewrite K1. fold (outgoing c method u hdr rc).
  fold (afterDo c method u hdr rc attempt w res clock s').
  unfold pause.
  destruct res as [e | r]; simpl.
  - destruct (attempt <? retries); reflexivity.
  - destruct (Z.quot (Response.StatusCode r) 100 =? 2).
    + destruct (out && (0 <? len (Response.Body r))); [| reflexivity].
      destruct (Unmarshal rt (Response.Body r)); [reflexivity |].
      simpl. destruct (attempt <? retries); reflexivity.
    + destruct ((Response.StatusCode r =? 429) || (Z.quot (Response.StatusCode r) 100 =? 5));
        [| reflexivity].
      simpl. destruct (attempt <? retries); reflexivity.
Qed.

(** The world of [doRequest] after a send: no "response" event, no
    after-hooks. *)
Lemma doRequest_round_eq rc attempt backoff (w : World S) res clock s' :
  buildable rt method u in_ rc ->
  RoundTrip rt ctx (outgoing c method u hdr rc) (now w) (server w) = (res, clock, s') ->
  doRequest_round rt c ctx method u hdr in_ retries maxBack attempt backoff w =
  let w' :=
    mkWorld clock s'
      (Do (now w) (outgoing c method u hdr rc) res
         :: trace (logRequest c method u
                     (applyHeaders c hdr (Request.mk method u ∅ rc)) attempt w)) in
  match res with
  | DoError err =>
      pause ctx retries maxBack attempt backoff
        (Some (ErrCall method u (ErrTransport err))) w'
  | DoResponse r =>
      if Z.quot (Response.StatusCode r) 100 =? 2 then (Return (Returned r), w')
      else
        let apiErr :=
          parseAPIError (UnmarshalMsg rt) (Response.StatusCode r) (Response.Body r) in
        if (Response.StatusCode r =? 429) || (Z.quot (Response.StatusCode r) 100 =? 5)
        then pause ctx retries maxBack attempt (raiseBackoff rt r clock backoff)
               (Some (ErrCall method u (ErrAPI apiErr))) w'
        else (Return (Failed (ErrAPI apiErr)), w')
  end.
Proof.
  intros [Hb Hv] HR. unfold doRequest_round. rewrite Hb.
  unfold NewRequestWithContext. rewrite Hv.
  destruct (logRequest_frame c method u
              (applyHeaders c hdr (Request.mk method u ∅ rc)) attempt w)
    as (K1 & K2 & _ & _).
  rewrite (HTTPClientDo_eq rt ctx _ _ res clock s');
    [| rewrite K1, K2; exact HR ].
  rewrite K1. fold (outgoing c method u hdr rc).
  unfold pause.
  destruct res as [e | r]; simpl.
  - destruct (attempt <? retries); reflexivity.
  - destruct (Z.quot (Response.StatusCode r) 100 =? 2); [reflexivity |].
    destruct ((Response.StatusCode r =? 429) || (Z.quot (Response.StatusCode r) 100 =? 5));
      [| reflexivity].
    simpl. destruct (attempt <? retries); reflexivity.
Qed.

(** When every round goes on, the loop of [doJSON] makes
    [retries + 1] requests and ends with the attempts error.  [Pre] is
    what the rounds keep of the world, [Inv] what a round establishes
    of the error it leaves. *)
Lemma doJSON_loop_exhaust (Pre : World S -> Prop) (Inv : option error -> World S -> Prop) :
  0 <= retries < maxInt64 ->
  (forall attempt backoff w,
      Pre w ->
      exists le b' w',
        doJSON_round rt c ctx method u hdr in_ out retries maxBack attempt backoff w
        = (Continue le b', w') /\
        requests (trace w') = requests (trace w) + 1 /\ Pre w' /\ Inv le w') ->
  forall (m : nat) attempt backoff le (w : World S) fuel,
    0 <= attempt <= retries + 1 ->
    Z.to_nat (retries + 1 - attempt) = m ->
    (m < fuel)%nat ->
    Pre w ->
    (m = 0%nat -> Inv le w) ->
    exists le' w',
      doJSON_loop rt fuel c ctx method u hdr in_ out retries maxBack attempt backoff le w
      = Some (Failed (ErrAttempts (retries + 1) le'), w') /\
      requests (trace w') = requests (trace w) + Z.of_nat m /\ Pre w' /\ Inv le' w'.
Proof.
  intros Hr Hround m.
  induction m as [|m IH]; intros attempt backoff le w fuel Ha Hm Hf Hp Hi.
  - destruct fuel as [|fuel]; [lia |]. simpl.
    assert (attempt = retries + 1) by lia. subst attempt.
    replace (retries + 1 <=? retries) with false by (symmetry; apply Z.leb_gt; lia).
    rewrite wrap64_id by (unfold minInt64, maxInt64 in *; lia).
    exists le, w. repeat split; auto. lia.
  - destruct fuel as [|fuel]; [lia |]. simpl.
    replace (attempt <=? retries) with true by (symmetry; apply Z.leb_le; lia).
    destruct (Hround attempt backoff w Hp) as (le1 & b1 & w1 & E & R & P1 & I).
    rewrite E.
    rewrite wrap64_id by (unfold minInt64, maxInt64 in *; lia).
    destruct (IH (attempt + 1) b1 le1 w1 fuel) as (le' & w' & E' & R' & P' & I');
      try lia; auto.
    exists le', w'. repeat split; auto. lia.
Qed.

End RoundFacts.

(** ** The attempt budget *)

Section Budget.
Context {S In Out : Type} (rt : Runtime S In Out).
Variables (c : Client) (ctx : Context) (method path : string) (hdr : Header)
          (in_ : option In).

(** C3. With [MaxRetries = N >= 0] and a server that answers 503 to
    every attempt, [doJSON] hands exactly [N + 1] requests to the HTTP
    client and then returns the attempts error, which carries the count
    [N + 1] and wraps the API error of the last response. *)
Theorem C3_attempt_budget (out : bool) (w : World S) (rc : option string) (N : Z) :
  MaxRetries c = N ->
  0 <= N < maxInt64 ->
  buildable rt method (BaseURL c ++ path) in_ rc ->
  (forall req clock s, exists res clock' s',
      RoundTrip rt ctx req clock s = (DoResponse res, clock', s')
      /\ Response.StatusCode res = 503) ->
  exists res w',
    doJSON rt c ctx method path hdr in_ out w
    = Some (Failed (ErrAttempts (N + 1)
                      (Some (ErrCall method (BaseURL c ++ path)
                               (ErrAPI (parseAPIError (UnmarshalMsg rt) 503
                                          (Response.Body res)))))), w')
    /\ requests (trace w') = requests (trace w) + (N + 1)
    /\ lastDo (trace w') = Some (DoResponse res).
Proof.
  intros HN Hr Hb H503. unfold doJSON. rewrite HN.
  destruct (normalizeBackoff (InitialBackoff c) (MaxBackoff c)) as [backoff maxBack].
  rewrite normalizeRetries_id by lia.
  set (u := BaseURL c ++ path) in *.
  pose (Inv := fun (le : option error) (w : World S) =>
                 exists res, lastDo (trace w) = Some (DoResponse res)
                             /\ le = Some (ErrCall method u
                                             (ErrAPI (parseAPIError (UnmarshalMsg rt) 503
                                                        (Response.Body res))))).
  destruct (doJSON_loop_exhaust rt c ctx method u hdr in_ out N maxBack
              (fun _ => True) Inv Hr) with
    (m := Z.to_nat (N + 1)) (attempt := 0) (backoff := backoff) (le := @None error)
    (w := w) (fuel := (Z.to_nat N + 2)%nat)
    as (le' & w' & E & R & _ & (res & L & ->)).
  - intros attempt b w0 _.
    destruct (H503 (outgoing c method u hdr rc) (now w0) (server w0))
      as (res & clock & s' & HR & Hs).
    rewrite (doJSON_round_eq rt c ctx method u hdr in_ out N maxBack rc attempt b w0
               (DoResponse res) clock s' Hb HR).
    cbv zeta. rewrite Hs. change (503 `quot` 100 =? 2) with false.
    change ((503 =? 429) || (503 `quot` 100 =? 5)) with true. cbv iota.
    destruct (afterDo_frame c method u hdr rc attempt w0 (DoResponse res) clock s')
      as (_ & _ & F3 & F4).
    match goal with
    | |- context [pause ctx N maxBack attempt ?b0 ?le0 ?w1] =>
        destruct (pause_frame (A := option Out) ctx N maxBack attempt b0 le0 w1)
        as (b' & w2 & P & _ & P3 & P4)
    end.
    rewrite P. do 3 eexists. split; [reflexivity |]. split; [lia |].
    split; [exact I |].
    exists res. split; [congruence | reflexivity].
  - lia.
  - f_equal; lia.
  - lia.
  - exact I.
  - intros H0. lia.
  - exists res, w'. rewrite E. repeat split; auto. lia.
Qed.

(** C1. What the code does where the specification wants a terminal
    error: with a decode target and a server that answers every attempt
    by a 2xx status and a body that does not decode, [doJSON] goes
    through all [N + 1] attempts and returns the attempts error around
    the decode error of the last one. *)
Theorem C1_decode_failure_is_retried (w : World S) (rc : option string) (N : Z) :
  MaxRetries c = N ->
  0 <= N < maxInt64 ->
  buildable rt method (BaseURL c ++ path) in_ rc ->
  (forall req clock s, exists res clock' s',
      RoundTrip rt ctx req clock s = (DoResponse res, clock', s')
      /\ Z.quot (Response.StatusCode res) 100 = 2
      /\ 0 < len (Response.Body res)
      /\ Unmarshal rt (Response.Body res) = None) ->
  exists res w',
    doJSON rt c ctx method path hdr in_ true w
    = Some (Failed (ErrAttempts (N + 1) (Some (ErrDecode (Response.Body res)))), w')
    /\ requests (trace w') = requests (trace w) + (N + 1)
    /\ lastDo (trace w') = Some (DoResponse res).
Proof.
  intros HN Hr Hb Hbad. unfold doJSON. rewrite HN.
  destruct (normalizeBackoff (InitialBackoff c) (MaxBackoff c)) as [backoff maxBack].
  rewrite normalizeRetries_id by lia.
  set (u := BaseURL c ++ path) in *.
  pose (Inv := fun (le : option error) (w : World S) =>
                 exists res, lastDo (trace w) = Some (DoResponse res)
                             /\ le = Some (ErrDecode (Response.Body res))).
  destruct (doJSON_loop_exhaust rt c ctx method u hdr in_ true N maxBack
              (fun _ => True) Inv Hr) with
    (m := Z.to_nat (N + 1)) (attempt := 0) (backoff := backoff) (le := @None error)
    (w := w) (fuel := (Z.to_nat N + 2)%nat)
    as (le' & w' & E & R & _ & (res & L & ->)).
  - intros attempt b w0 _.
    destruct (Hbad (outgoing c method u hdr rc) (now w0) (server w0))
      as (res & clock & s' & HR & Hs & Hl & Hu).
    rewrite (doJSON_round_eq rt c ctx method u hdr in_ true N maxBack rc attempt b w0
               (DoResponse res) clock s' Hb HR).
    cbv zeta. rewrite Hs, Hu. change (2 =? 2) with true. cbv iota.
    replace (0 <? len (Response.Body res)) with true by (symmetry; apply Z.ltb_lt; lia).
    simpl andb. cbv iota.
    destruct (afterDo_frame c method u hdr rc attempt w0 (DoResponse res) clock s')
      as (_ & _ & F3 & F4).
    match goal with
    | |- context [pause ctx N maxBack attempt ?b0 ?le0 ?w1] =>
        destruct (pause_frame (A := option Out) ctx N maxBack attempt b0 le0 w1)
        as (b' & w2 & P & _ & P3 & P4)
    end.
    rewrite P. do 3 eexists. split; [reflexivity |]. split; [lia |].
    split; [exact I |].
    exists res. split; [congruence | reflexivity].
  - lia.
  - f_equal; lia.
  - lia.
  - exact I.
  - intros H0. lia.
  - exists res, w'. rewrite E. repeat split; auto. lia.
Qed.

End Budget.

(** ** Every round sends once; the loops end *)

Section Totality.
Context {S In Out : Type} (rt : Runtime S In Out).
Variables (c : Client) (ctx : Context) (method u : string) (hdr : Header)
          (in_ : option In) (out : bool) (retries maxBack : Z).

Lemma doJSON_round_one_request rc attempt backoff (w : World S) :
  buildable rt method u in_ rc ->
  exists f w',
    doJSON_round rt c ctx method u hdr in_ out retries maxBack attempt backoff w = (f, w')
    /\ requests (trace w') = requests (trace w) + 1.
Proof.
  intros Hb.
  destruct (RoundTrip rt ctx (outgoing c method u hdr rc) (now w) (server w))
    as [[res clock] s'] eqn:HR.
  rewrite (doJSON_round_eq rt c ctx method u hdr in_ out retries maxBack rc attempt
             backoff w res clock s' Hb HR).
  cbv zeta.
  destruct (afterDo_frame c method u hdr rc attempt w res clock s') as (_ & _ & F3 & _).
  assert (HP : forall b le, exists f w',
               pause (A := option Out) ctx retries maxBack attempt b le
                 (afterDo c method u hdr rc attempt w res clock s') = (f, w')
               /\ requests (trace w') = requests (trace w) + 1).
  { intros b le.
    destruct (pause_frame (A := option Out) ctx retries maxBack attempt b le
                (afterDo c method u hdr rc attempt w res clock s'))
      as (b' & w' & P & _ & P3 & _).
    rewrite P. do 2 eexists. split; [reflexivity | lia]. }
  destruct res as [e | r].
  - apply HP.
  - destruct (Z.quot (Response.StatusCode r) 100 =? 2).
    + destruct (out && (0 <? len (Response.Body r))).
      * destruct (Unmarshal rt (Response.Body r)).
        -- do 2 eexists. split; [reflexivity | exact F3].
        -- apply HP.
      * do 2 eexists. split; [reflexivity | exact F3].
    + destruct ((Response.StatusCode r =? 429) || (Z.quot (Response.StatusCode r) 100 =? 5)).
      * apply HP.
      * do 2 eexists. split; [reflexivity | exact F3].
Qed.

Lemma doJSON_loop_total rc :
  buildable rt method u in_ rc ->
  retries < maxInt64 ->
  forall (m : nat) attempt backoff le (w : World S) fuel,
    0 <= attempt <= retries + 1 ->
    Z.to_nat (retries + 1 - attempt) = m ->
    (m < fuel)%nat ->
    exists r w',
      doJSON_loop rt fuel c ctx method u hdr in_ out retries maxBack attempt backoff le w
      = Some (r, w')
      /\ requests (trace w) + (if attempt <=? retries then 1 else 0) <= requests (trace w').
Proof.
  intros Hb Hr m. induction m as [|m IH]; intros attempt backoff le w fuel Ha Hm Hf.
  - destruct fuel as [|fuel]; [lia |]. simpl.
    replace (attempt <=? retries) with false by (symmetry; apply Z.leb_gt; lia).
    do 2 eexists. split; [reflexivity | lia].
  - destruct fuel as [|fuel]; [lia |]. simpl.
    replace (attempt <=? retries) with true by (symmetry; apply Z.leb_le; lia).
    destruct (doJSON_round_one_request rc attempt backoff w Hb) as (f & w1 & E & R).
    rewrite E. destruct f as [r | le1 b1].
    + do 2 eexists. split; [reflexivity | lia].
    + rewrite wrap64_id by (unfold minInt64, maxInt64 in *; lia).
      destruct (IH (attempt + 1) b1 le1 w1 fuel) as (r & w' & E' & R'); try lia.
      exists r, w'. split; [exact E' |].
      destruct (attempt + 1 <=? retries); lia.
Qed.
End Totality.

Section TotalityRequest.
Context {S In Out : Type} (rt : Runtime S In Out).
Variables (c : Client) (ctx : Context) (method u : string) (hdr : Header)
          (in_ : option In) (retries maxBack : Z).

Lemma doRequest_round_one_request rc attempt backoff (w : World S) :
  buildable rt method u in_ rc ->
  exists f w',
    doRequest_round rt c ctx method u hdr in_ retries maxBack attempt backoff w = (f, w')
    /\ requests (trace w') = requests (trace w) + 1.
Proof.
  intros Hb.
  destruct (RoundTrip rt ctx (outgoing c method u hdr rc) (now w) (server w))
    as [[res clock] s'] eqn:HR.
  rewrite (doRequest_round_eq rt c ctx method u hdr in_ retries maxBack rc attempt
             backoff w res clock s' Hb HR).
  cbv zeta.
  set (w1 := mkWorld clock s' _).
  assert (F3 : requests (trace w1) = requests (trace w) + 1).
  { subst w1. simpl.
    destruct (logRequest_frame c method u
                (applyHeaders c hdr (Request.mk method u ∅ rc)) attempt w)
      as (_ & _ & K3 & _).
    unfold requests in *. simpl. lia. }
  assert (HP : forall b le, exists f w',
               pause (A := Response.t) ctx retries maxBack attempt b le w1 = (f, w')
               /\ requests (trace w') = requests (trace w) + 1).
  { intros b le.
    destruct (pause_frame (A := Response.t) ctx retries maxBack attempt b le w1)
      as (b' & w' & P & _ & P3 & _).
    rewrite P. do 2 eexists. split; [reflexivity | lia]. }
  destruct res as [e | r].
  - apply HP.
  - destruct (Z.quot (Response.StatusCode r) 100 =? 2).
    + do 2 eexists. split; [reflexivity | exact F3].
    + destruct ((Response.StatusCode r =? 429) || (Z.quot (Response.StatusCode r) 100 =? 5)).
      * apply HP.
      * do 2 eexists. split; [reflexivity | exact F3].
Qed.

Lemma doRequest_loop_total rc :
  buildable rt method u in_ rc ->
  retries < maxInt64 ->
  forall (m : nat) attempt backoff le (w : World S) fuel,
    0 <= attempt <= retries + 1 ->
    Z.to_nat (retries + 1 - attempt) = m ->
    (m < fuel)%nat ->
    exists r w',
      doRequest_loop rt fuel c ctx method u hdr in_ retries maxBack attempt backoff le w
      = Some (r, w')
      /\ requests (trace w) + (if attempt <=? retries then 1 else 0) <= requests (trace w').
Proof.
  intros Hb Hr m. induction m as [|m IH]; intros attempt backoff le w fuel Ha Hm Hf.
  - destruct fuel as [|fuel]; [lia |]. simpl.
    replace (attempt <=? retries) with false by (symmetry; apply Z.leb_gt; lia).
    do 2 eexists. split; [reflexivity | lia].
  - destruct fuel as [|fuel]; [lia |]. simpl.
    replace (attempt <=? retries) with true by (symmetry; apply Z.leb_le; lia).
    destruct (doRequest_round_one_request rc attempt backoff w Hb) as (f & w1 & E & R).
    rewrite E. destruct f as [r | le1 b1].
    + do 2 eexists. split; [reflexivity | lia].
    + rewrite wrap64_id by (unfold minInt64, maxInt64 in *; lia).
      destruct (IH (attempt + 1) b1 le1 w1 fuel) as (r & w' & E' & R'); try lia.
      exists r, w'. split; [exact E' |].
      destruct (attempt + 1 <=? retries); lia.
Qed.
End TotalityRequest.

(** The test of the executors on a status: 429, or 5 as the quotient by
    100, which Go truncates towards zero. *)
Lemma retryable_status (s : Z) :
  (s =? 429) || (Z.quot s 100 =? 5) = true <-> s = 429 \/ 500 <= s <= 599.
Proof.
  rewrite orb_true_iff, Z.eqb_eq, Z.eqb_eq. split.
  - intros [H | H]; [left; exact H | right].
    pose proof (Z.quot_rem' s 100) as Q.
    pose proof (Z.rem_bound_abs s 100 ltac:(lia)) as B.
    assert (Hp : 0 <= s) by lia.
    pose proof (Z.rem_bound_pos s 100 Hp ltac:(lia)). lia.
  - intros [H | H]; [left; exact H | right].
    symmetry. apply Z.quot_unique with (r := s - 500); lia.
Qed.

(** ** Retryable and terminal statuses *)

Section C5.
Context {S In Out : Type} (rt : Runtime S In Out).
Variables (c : Client) (ctx : Context) (method path : string) (hdr : Header)
          (in_ : option In) (out : bool).

(** C5. For a response whose status is not 2xx, both executors go on to
    another attempt exactly when the status is 429 or within 500..599:
    with such a first response and a retry to spend, a second request is
    sent; with any other status the parsed [APIError] is returned after
    exactly one request, whatever [MaxRetries] is. *)
Theorem C5_retryable_statuses (w : World S) (rc : option string)
        (res : Response.t) (clock : Z) (s' : S) :
  let u := BaseURL c ++ path in
  let status := Response.StatusCode res in
  let apiErr := parseAPIError (UnmarshalMsg rt) status (Response.Body res) in
  buildable rt method u in_ rc ->
  RoundTrip rt ctx (outgoing c method u hdr rc) (now w) (server w)
  = (DoResponse res, clock, s') ->
  Z.quot status 100 <> 2 ->
  (status = 429 \/ 500 <= status <= 599 ->
   1 <= MaxRetries c < maxInt64 ->
   (exists r w', doJSON rt c ctx method path hdr in_ out w = Some (r, w')
                 /\ requests (trace w) + 2 <= requests (trace w'))
   /\ (exists r w', doRequest rt c ctx method path hdr in_ w = Some (r, w')
                    /\ requests (trace w) + 2 <= requests (trace w')))
  /\ (~ (status = 429 \/ 500 <= status <= 599) ->
      (exists w', doJSON rt c ctx method path hdr in_ out w
                  = Some (Failed (ErrAPI apiErr), w')
                  /\ requests (trace w') = requests (trace w) + 1)
      /\ (exists w', doRequest rt c ctx method path hdr in_ w
                     = Some (Failed (ErrAPI apiErr), w')
                     /\ requests (trace w') = requests (trace w) + 1)).
Proof.
  intros u status apiErr Hb HR H2.
  assert (E2 : (Z.quot status 100 =? 2) = false) by (apply Z.eqb_neq; exact H2).
  pose proof (retryable_status status) as RS.
  unfold doJSON, doRequest. fold u.
  destruct (normalizeBackoff (InitialBackoff c) (MaxBackoff c)) as [backoff maxBack].
  set (retries := normalizeRetries (MaxRetries c)).
  split.
  - intros Hret HN.
    assert (Hr : retries = MaxRetries c) by (apply normalizeRetries_id; lia).
    apply RS in Hret.
    assert (F : (Z.to_nat retries + 2)%nat = Datatypes.S (Z.to_nat retries + 1)) by lia.
    rewrite F. split.
    + cbn [doJSON_loop].
      replace (0 <=? retries) with true by (symmetry; apply Z.leb_le; lia).
      rewrite (doJSON_round_eq rt c ctx method u hdr in_ out retries maxBack rc 0
                 backoff w (DoResponse res) clock s' Hb HR).
      cbv zeta. fold status. rewrite E2, Hret.
      destruct (afterDo_frame c method u hdr rc 0 w (DoResponse res) clock s')
        as (_ & _ & F3 & _).
      match goal with
      | |- context [pause ctx retries maxBack 0 ?b0 ?le0 ?w1] =>
          destruct (pause_frame (A := option Out) ctx retries maxBack 0 b0 le0 w1)
          as (b' & w2 & P & _ & P3 & _)
      end.
      rewrite P. change (wrap64 (0 + 1)) with 1.
      destruct (doJSON_loop_total rt c ctx method u hdr in_ out retries maxBack rc Hb
                  ltac:(lia) (Z.to_nat retries) 1 b'
                  (Some (ErrCall method u (ErrAPI apiErr))) w2 (Z.to_nat retries + 1)%nat)
        as (r & w' & E & R); try lia.
      exists r, w'. split; [exact E |].
      replace (1 <=? retries) with true in R by (symmetry; apply Z.leb_le; lia). lia.
    + cbn [doRequest_loop].
      replace (0 <=? retries) with true by (symmetry; apply Z.leb_le; lia).
      rewrite (doRequest_round_eq rt c ctx method u hdr in_ retries maxBack rc 0
                 backoff w (DoResponse res) clock s' Hb HR).
      cbv zeta. fold status. rewrite E2, Hret.
      match goal with
      | |- context [pause ctx retries maxBack 0 ?b0 ?le0 ?w1] =>
          destruct (pause_frame (A := Response.t) ctx retries maxBack 0 b0 le0 w1)
          as (b' & w2 & P & _ & P3 & _)
      end.
      rewrite P. change (wrap64 (0 + 1)) with 1.
      destruct (doRequest_loop_total rt c ctx method u hdr in_ retries maxBack rc Hb
                  ltac:(lia) (Z.to_nat retries) 1 b'
                  (Some (ErrCall method u (ErrAPI apiErr))) w2 (Z.to_nat retries + 1)%nat)
        as (r & w' & E & R); try lia.
      exists r, w'. split; [exact E |].
      replace (1 <=? retries) with true in R by (symmetry; apply Z.leb_le; lia).
      simpl in P3.
      destruct (logRequest_frame c method u
                  (applyHeaders c hdr (Request.mk method u ∅ rc)) 0 w)
        as (_ & _ & K3 & _).
      unfold requests in *. simpl in P3. lia.
  - intros Hnot.
    assert (Hret : (status =? 429) || (Z.quot status 100 =? 5) = false).
    { destruct ((status =? 429) || (Z.quot status 100 =? 5)) eqn:E; [| reflexivity].
      exfalso. apply Hnot, RS. reflexivity. }
    assert (Hpos : 0 <= retries).
    { subst retries. unfold normalizeRetries.
      destruct (MaxRetries c <? 0) eqn:E; [lia | apply Z.ltb_ge in E; exact E]. }
    assert (F : (Z.to_nat retries + 2)%nat = Datatypes.S (Z.to_nat retries + 1)) by lia.
    rewrite F. split.
    + cbn [doJSON_loop].
      replace (0 <=? retries) with true by (symmetry; apply Z.leb_le; lia).
      rewrite (doJSON_round_eq rt c ctx method u hdr in_ out retries maxBack rc 0
                 backoff w (DoResponse res) clock s' Hb HR).
      cbv zeta. fold status. rewrite E2, Hret.
      destruct (afterDo_frame c method u hdr rc 0 w (DoResponse res) clock s')
        as (_ & _ & F3 & _).
      eexists. split; [reflexivity | exact F3].
    + cbn [doRequest_loop].
      replace (0 <=? retries) with true by (symmetry; apply Z.leb_le; lia).
      rewrite (doRequest_round_eq rt c ctx method u hdr in_ retries maxBack rc 0
                 backoff w (DoResponse res) clock s' Hb HR).
      cbv zeta. fold status. rewrite E2, Hret.
      eexists. split; [reflexivity |]. simpl.
      destruct (logRequest_frame c method u
                  (applyHeaders c hdr (Request.mk method u ∅ rc)) 0 w)
        as (_ & _ & K3 & _).
      unfold requests in *. simpl. lia.
Qed.
End C5.

(** ** Waits *)

Import Scenario Claims.

Lemma jitter_le_maxBack backoff maxBack rand : jitter backoff maxBack rand <= maxBack.
Proof.
  unfold jitter. destruct (maxBack <? _) eqn:E; [lia | apply Z.ltb_ge in E; lia].
Qed.

Section Sleeps.
Context {S In Out : Type} (rt : Runtime S In Out).
Variables (c : Client) (ctx : Context) (method u : string) (hdr : Header)
          (in_ : option In) (out : bool) (retries maxBack : Z).

Lemma sleeps_logRequest req a (w : World S) :
  sleeps (trace (logRequest c method u req a w)) = sleeps (trace w).
Proof. unfold logRequest. destruct (Logger c); reflexivity. Qed.

Lemma sleeps_logResponse res a (w : World S) :
  sleeps (trace (logResponse c method u res a w)) = sleeps (trace w).
Proof. unfold logResponse. destruct (Logger c); reflexivity. Qed.

Lemma sleeps_afterHooks res (w : World S) :
  sleeps (trace (runAfterHooks c res w)) = sleeps (trace w).
Proof.
  unfold runAfterHooks. generalize (seq 0 (AfterHooks c)). intros l.
  revert w. induction l as [|i l IH]; intros w; simpl; auto.
  rewrite IH. reflexivity.
Qed.

Lemma sleeps_afterDo rc attempt (w : World S) res clock s' :
  sleeps (trace (afterDo c method u hdr rc attempt w res clock s')) = sleeps (trace w).
Proof.
  unfold afterDo. rewrite sleeps_afterHooks, sleeps_logResponse. simpl.
  apply sleeps_logRequest.
Qed.

Lemma jitterSleep_capped backoff (w : World S) :
  exists x, sleeps (trace (jitterSleep ctx backoff maxBack w)) = x :: sleeps (trace w)
            /\ capped maxBack x.
Proof.
  unfold jitterSleep. eexists. split; [reflexivity |].
  unfold capped. simpl. split; [apply jitter_le_maxBack |].
  destruct (doneAt ctx); lia.
Qed.

Lemma pause_capped {A} attempt backoff le (w : World S) f w' :
  pause (A := A) ctx retries maxBack attempt backoff le w = (f, w') ->
  sleeps (trace w') = sleeps (trace w)
  \/ exists x, sleeps (trace w') = x :: sleeps (trace w) /\ capped maxBack x.
Proof.
  unfold pause. destruct (attempt <? retries); intros H; inversion H; subst.
  - right. apply jitterSleep_capped.
  - left. reflexivity.
Qed.

Lemma doJSON_round_capped attempt backoff (w : World S) f w' :
  doJSON_round rt c ctx method u hdr in_ out retries maxBack attempt backoff w = (f, w') ->
  sleeps (trace w') = sleeps (trace w)
  \/ exists x, sleeps (trace w') = x :: sleeps (trace w) /\ capped maxBack x.
Proof.
  destruct (makeBody rt in_) as [rc | e] eqn:Hb.
  2:{ unfold doJSON_round. rewrite Hb. intros H; inversion H; auto. }
  destruct (ValidRequest rt method u) eqn:Hv.
  2:{ unfold doJSON_round, NewRequestWithContext. rewrite Hb, Hv.
      intros H; inversion H; auto. }
  destruct (RoundTrip rt ctx (outgoing c method u hdr rc) (now w) (server w))
    as [[res clock] s'] eqn:HR.
  rewrite (doJSON_round_eq rt c ctx method u hdr in_ out retries maxBack rc attempt
             backoff w res clock s' (conj Hb Hv) HR).
  cbv zeta.
  pose proof (sleeps_afterDo rc attempt w res clock s') as SA.
  assert (HP : forall b le,
             pause (A := option Out) ctx retries maxBack attempt b le
               (afterDo c method u hdr rc attempt w res clock s') = (f, w') ->
             sleeps (trace w') = sleeps (trace w)
             \/ exists x, sleeps (trace w') = x :: sleeps (trace w) /\ capped maxBack x).
  { intros b le H. apply pause_capped in H. rewrite SA in H. exact H. }
  assert (HRt : forall r : Outcome (option Out),
             (Return r, afterDo c method u hdr rc attempt w res clock s') = (f, w') ->
             sleeps (trace w') = sleeps (trace w)
             \/ exists x, sleeps (trace w') = x :: sleeps (trace w) /\ capped maxBack x).
  { intros r H. inversion H; subst. left. exact SA. }
  destruct res as [e | r].
  - apply HP.
  - destruct (Z.quot (Response.StatusCode r) 100 =? 2).
    + destruct (out && (0 <? len (Response.Body r))).
      * destruct (Unmarshal rt (Response.Body r)); [apply HRt | apply HP].
      * apply HRt.
    + destruct ((Response.StatusCode r =? 429) || (Z.quot (Response.StatusCode r) 100 =? 5));
        [apply HP | apply HRt].
Qed.

Lemma doJSON_loop_capped fuel :
  forall attempt backoff le (w : World S) r w',
    doJSON_loop rt fuel c ctx method u hdr in_ out retries maxBack attempt backoff le w
    = Some (r, w') ->
    exists xs, sleeps (trace w') = (xs ++ sleeps (trace w))%list /\ Forall (capped maxBack) xs.
Proof.
  induction fuel as [|fuel IH]; intros attempt backoff le w r w' H; [discriminate |].
  simpl in H. destruct (attempt <=? retries).
  - destruct (doJSON_round rt c ctx method u hdr in_ out retries maxBack attempt backoff w)
      as [f w1] eqn:E.
    apply doJSON_round_capped in E.
    assert (X : exists xs, sleeps (trace w1) = (xs ++ sleeps (trace w))%list
                           /\ Forall (capped maxBack) xs).
    { destruct E as [E | (x & E & Cx)].
      - exists []. split; [exact E | constructor].
      - exists [x]. split; [exact E | constructor; [exact Cx | constructor]]. }
    destruct X as (xs1 & E1 & F1).
    destruct f as [r1 | le1 b1].
    + inversion H; subst. exists xs1. auto.
    + apply IH in H. destruct H as (xs & E2 & F2).
      exists (xs ++ xs1)%list. split.
      * rewrite E2, E1. rewrite app_assoc. reflexivity.
      * apply Forall_app. auto.
  - inversion H; subst. exists []. split; [reflexivity | constructor].
Qed.
End Sleeps.


(** Every wait of a call has a timer of at most the normalized
    [MaxBackoff] and lasts no longer than its timer, whatever the
    responses asked for. *)
Lemma waits_capped_by_MaxBackoff {S In Out} (rt : Runtime S In Out) (c : Client)
        (ctx : Context) (method path : string) (hdr : Header) (in_ : option In)
        (out : bool) (w : World S) r w' :
  doJSON rt c ctx method path hdr in_ out w = Some (r, w') ->
  exists xs,
    sleeps (trace w') = (xs ++ sleeps (trace w))%list
    /\ Forall (capped (snd (normalizeBackoff (InitialBackoff c) (MaxBackoff c)))) xs.
Proof.
  unfold doJSON.
  destruct (normalizeBackoff (InitialBackoff c) (MaxBackoff c)) as [backoff maxBack].
  simpl. apply doJSON_loop_capped.
Qed.

(** ** Cancellation *)

Lemma jitterSleep_done {S} (ctx : Context) d backoff maxBack (w : World S) :
  doneAt ctx = Some d -> d <= now w ->
  now (jitterSleep ctx backoff maxBack w) = now w.
Proof. intros Hd H. unfold jitterSleep. rewrite Hd. simpl. lia. Qed.

Section C4.
Context {S In Out : Type} (rt : Runtime S In Out).
Variables (c : Client) (ctx : Context) (method u : string) (hdr : Header)
          (in_ : option In) (out : bool) (retries maxBack : Z).

(** C4, as the code has it.  A signal that fires during the backoff
    sleep ends the sleep at that instant, and that is all: the loop goes
    on.  From a round that starts with the context done, under a
    transport that reports the cancellation at once, every attempt that
    remains is still made, no time passes, and the call returns the
    attempts error around the cancellation. *)
Theorem C4_cancelled_call_uses_up_its_attempts (rc : option string) (d : Z) :
  doneAt ctx = Some d ->
  0 <= retries < maxInt64 ->
  buildable rt method u in_ rc ->
  (forall req clock s, d <= clock ->
      exists s', RoundTrip rt ctx req clock s = (DoError ContextCanceled, clock, s')) ->
  (forall backoff (w : World S),
      now w <= d <= now w + jitter backoff maxBack (randFloat64 (now w)) ->
      now (jitterSleep ctx backoff maxBack w) = d)
  /\ (forall attempt backoff le (w : World S) fuel,
         0 <= attempt <= retries ->
         d <= now w ->
         (Z.to_nat (retries + 1 - attempt) < fuel)%nat ->
         exists w',
           doJSON_loop rt fuel c ctx method u hdr in_ out retries maxBack
             attempt backoff le w
           = Some (Failed (ErrAttempts (retries + 1)
                             (Some (ErrCall method u (ErrTransport ContextCanceled)))),
                   w')
           /\ requests (trace w') = requests (trace w) + (retries + 1 - attempt)
           /\ now w' = now w).
Proof.
  intros Hd Hr Hb Hc. split.
  - intros backoff w H. unfold jitterSleep. rewrite Hd. simpl. lia.
  - intros attempt backoff le w fuel Ha Hn Hf.
    pose (Pre := fun w0 : World S => now w0 = now w).
    pose (Inv := fun (le0 : option error) (_ : World S) =>
                   le0 = Some (ErrCall method u (ErrTransport ContextCanceled))).
    destruct (doJSON_loop_exhaust rt c ctx method u hdr in_ out retries maxBack Pre Inv Hr)
      with (m := Z.to_nat (retries + 1 - attempt)) (attempt := attempt)
           (backoff := backoff) (le := le) (w := w) (fuel := fuel)
      as (le' & w' & E & R & P & I).
    + intros a b w0 P0. unfold Pre in P0.
      destruct (Hc (outgoing c method u hdr rc) (now w0) (server w0) ltac:(lia))
        as (s' & HR).
      rewrite (doJSON_round_eq rt c ctx method u hdr in_ out retries maxBack rc a b w0
                 (DoError ContextCanceled) (now w0) s' Hb HR).
      cbv zeta.
      destruct (afterDo_frame c method u hdr rc a w0 (DoError ContextCanceled) (now w0) s')
        as (F1 & _ & F3 & _).
      unfold pause. destruct (a <? retries).
      * do 3 eexists. split; [reflexivity |]. split.
        { destruct (jitterSleep_frame ctx b maxBack
                      (afterDo c method u hdr rc a w0 (DoError ContextCanceled) (now w0) s'))
            as (_ & J & _). lia. }
        split; [| reflexivity]. unfold Pre.
        rewrite (jitterSleep_done ctx d) by (auto; lia). lia.
      * do 3 eexists. split; [reflexivity |]. split; [exact F3 |].
        split; [| reflexivity]. unfold Pre. lia.
    + lia.
    + reflexivity.
    + exact Hf.
    + reflexivity.
    + intros H0. lia.
    + exists w'. unfold Inv in I. subst le'. split; [exact E |]. split; [lia | exact P].
Qed.
End C4.

(** C4 fails as stated: with two retries, a service that answers 503 and
    a signal that fires one nanosecond into the first backoff sleep, two
    more attempts are started after the signal and the call ends with the
    attempts error. *)
Lemma C4_counterexample :
  ~ unwindsOnCancel (scripted unavailable) (client "k" 2 0 0) (cancelledAt 1)
      "POST" "/sql" ∅ None false (start 0).
Proof.
  intros H.
  edestruct (H 1) as [_ N].
  - reflexivity.
  - vm_compute. reflexivity.
  - vm_compute. split; [reflexivity | discriminate].
  - eapply N. reflexivity.
Qed.

(** ** Redaction *)

Local Ltac each_byte c :=
  destruct c as [[] [] [] [] [] [] [] []]; vm_compute; try reflexivity; auto.

Lemma toUpper_idem c : toUpper (toUpper c) = toUpper c.
Proof. each_byte c. Qed.

Lemma toLower_idem c : toLower (toLower c) = toLower c.
Proof. each_byte c. Qed.

Lemma toUpper_valid c : validHeaderFieldByte c = true -> validHeaderFieldByte (toUpper c) = true.
Proof. each_byte c. Qed.

Lemma toLower_valid c : validHeaderFieldByte c = true -> validHeaderFieldByte (toLower c) = true.
Proof. each_byte c. Qed.

Lemma canonicalize_idem s : forall upper,
  canonicalize upper (canonicalize upper s) = canonicalize upper s.
Proof.
  induction s as [|c s IH]; intros upper; simpl; [reflexivity |].
  destruct upper; rewrite ?toUpper_idem, ?toLower_idem, IH; reflexivity.
Qed.

Lemma canonicalize_valid s : forall upper,
  allb validHeaderFieldByte s = true ->
  allb validHeaderFieldByte (canonicalize upper s) = true.
Proof.
  unfold allb. induction s as [|c s IH]; intros upper; simpl; [reflexivity |].
  intros H. apply andb_prop in H as [Hc Hs]. apply andb_true_intro. split.
  - destruct upper; [apply toUpper_valid | apply toLower_valid]; exact Hc.
  - apply IH. exact Hs.
Qed.

Lemma CanonicalMIMEHeaderKey_idem s :
  CanonicalMIMEHeaderKey (CanonicalMIMEHeaderKey s) = CanonicalMIMEHeaderKey s.
Proof.
  unfold CanonicalMIMEHeaderKey.
  destruct (allb validHeaderFieldByte s) eqn:V.
  - rewrite canonicalize_valid by exact V. apply canonicalize_idem.
  - rewrite V. reflexivity.
Qed.

Lemma canonicalKeys_empty : canonicalKeys ∅.
Proof. intros k [x Hx]. rewrite lookup_empty in Hx. discriminate. Qed.

Lemma canonicalKeys_insert h key l :
  canonicalKeys h -> canonicalKeys (<[CanonicalMIMEHeaderKey key := l]> h).
Proof.
  intros Hh k Hk. destruct (decide (k = CanonicalMIMEHeaderKey key)) as [-> | Ne].
  - apply CanonicalMIMEHeaderKey_idem.
  - rewrite lookup_insert_ne in Hk by congruence. apply Hh. exact Hk.
Qed.

Lemma canonicalKeys_Set h key v : canonicalKeys h -> canonicalKeys (Set_ h key v).
Proof. apply canonicalKeys_insert. Qed.

Lemma canonicalKeys_Add h key v : canonicalKeys h -> canonicalKeys (Add h key v).
Proof. apply canonicalKeys_insert. Qed.

Lemma canonicalKeys_range (src h : Header) :
  canonicalKeys h -> canonicalKeys (rangeValues Add src h).
Proof.
  intros Hh. unfold rangeValues.
  apply (map_fold_weak_ind (fun r (_ : Header) => canonicalKeys r)); [exact Hh |].
  intros i x m r _. clear. revert r.
  induction x as [|v x IH]; intros r Hr; simpl; [exact Hr |].
  apply IH. apply canonicalKeys_Add. exact Hr.
Qed.

Lemma values_insert (h : Header) i l k :
  values (<[i := l]> h) k = if decide (k = i) then l else values h k.
Proof.
  unfold values. destruct (decide (k = i)) as [-> | Ne].
  - rewrite lookup_insert_eq. reflexivity.
  - rewrite lookup_insert_ne by congruence. reflexivity.
Qed.

Lemma values_fold_Add (F : Header -> string -> Header) (g : string -> string) i x :
  CanonicalMIMEHeaderKey i = i ->
  (forall acc v, F acc v = Add acc i (g v)) ->
  forall r k,
    values (fold_left F x r) k
    = if decide (k = i) then (values r i ++ map g x)%list else values r k.
Proof.
  intros Ci HF. induction x as [|v x IH]; intros r k; simpl.
  - destruct (decide (k = i)) as [-> | Ne]; [rewrite app_nil_r |]; reflexivity.
  - rewrite IH, HF. unfold Add. rewrite Ci, !values_insert.
    destruct (decide (k = i)) as [-> | Ne].
    + destruct (decide (i = i)); [| congruence]. rewrite <- app_assoc. reflexivity.
    + reflexivity.
Qed.

Lemma redactHeaders_values (h : Header) :
  canonicalKeys h ->
  forall k,
    values (redactHeaders h) k
    = if EqualFold k "x-api-key" then map redactValue (values h k) else values h k.
Proof.
  unfold redactHeaders, rangeValues.
  apply (map_fold_weak_ind
           (fun r (m : Header) =>
              canonicalKeys m ->
              forall k, values r k
                        = if EqualFold k "x-api-key"
                          then map redactValue (values m k) else values m k)).
  - intros _ k. unfold values. rewrite lookup_empty.
    destruct (EqualFold k "x-api-key"); reflexivity.
  - intros i x m r Hi IH Hc k.
    assert (Ci : CanonicalMIMEHeaderKey i = i).
    { apply Hc. rewrite lookup_insert_eq. eauto. }
    assert (Hm : canonicalKeys m).
    { intros j Hj. apply Hc. destruct (decide (j = i)) as [-> | Ne].
      - rewrite lookup_insert_eq. eauto.
      - rewrite lookup_insert_ne by congruence. exact Hj. }
    specialize (IH Hm).
    assert (Ri : values r i = []).
    { rewrite IH. unfold values. rewrite Hi.
      destruct (EqualFold i "x-api-key"); reflexivity. }
    rewrite values_insert.
    destruct (EqualFold i "x-api-key") eqn:E.
    + rewrite (values_fold_Add _ redactValue i x Ci) by (intros; reflexivity).
      destruct (decide (k = i)) as [-> | Ne]; [rewrite Ri, E; reflexivity | apply IH].
    + rewrite (values_fold_Add _ (fun v => v) i x Ci) by (intros; reflexivity).
      destruct (decide (k = i)) as [-> | Ne]; [| apply IH].
      rewrite Ri, E, map_id. reflexivity.
Qed.

Lemma length_append (s t : string) :
  String.length (s ++ t) = (String.length s + String.length t)%nat.
Proof. induction s as [|c s IH]; simpl; [reflexivity | rewrite IH; reflexivity]. Qed.

Lemma substring_length n m s :
  (n + m <= String.length s)%nat -> String.length (substring n m s) = m.
Proof.
  revert n m. induction s as [|c s IH]; intros n m H; simpl in *.
  - destruct n, m; simpl in *; try lia; reflexivity.
  - destruct n as [|n].
    + destruct m as [|m]; simpl; [reflexivity |]. rewrite IH; simpl; lia.
    + apply IH. lia.
Qed.

Lemma substring_all s : substring 0 (String.length s) s = s.
Proof. induction s as [|c s IH]; [reflexivity |]. simpl. rewrite IH. reflexivity. Qed.

Lemma substring_add s : forall n m1 m2,
  substring n (m1 + m2) s = substring n m1 s ++ substring (n + m1) m2 s.
Proof.
  induction s as [|c s IH]; intros n m1 m2.
  - destruct n, m1, m2; reflexivity.
  - destruct n as [|n].
    + destruct m1 as [|m1]; [reflexivity |].
      change (String c (substring 0 (m1 + m2) s)
              = String c (substring 0 m1 s ++ substring (0 + m1) m2 s)).
      rewrite IH. reflexivity.
    + exact (IH n m1 m2).
Qed.

Lemma append_cancel_l a x y : a ++ x = a ++ y -> x = y.
Proof.
  induction a as [|c a IH]; intros H; [exact H |].
  change (String c (a ++ x) = String c (a ++ y)) in H. injection H as H. auto.
Qed.

Lemma append_cancel_r b : forall x y, x ++ b = y ++ b -> x = y.
Proof.
  induction x as [|c x IH]; intros [|d y] H.
  - reflexivity.
  - apply (f_equal String.length) in H. rewrite !length_append in H. simpl in H. lia.
  - apply (f_equal String.length) in H. rewrite !length_append in H. simpl in H. lia.
  - change (String c (x ++ b) = String d (y ++ b)) in H. injection H as -> H.
    rewrite (IH y H). reflexivity.
Qed.

(** A value of more than eight bytes is its first four bytes, its middle
    and its last four bytes. *)
Lemma ends_and_middle v :
  8 < len v ->
  v = substring 0 4 v ++ substring 4 (String.length v - 8) v
        ++ substring (String.length v - 4) 4 v.
Proof.
  unfold len. intros H.
  rewrite <- (substring_all v) at 1.
  replace (String.length v) with (4 + ((String.length v - 8) + 4))%nat at 1 by lia.
  rewrite !substring_add.
  replace (0 + 4 + (String.length v - 8))%nat with (String.length v - 4)%nat by lia.
  reflexivity.
Qed.

(** Whatever the separator is: the two ends of a value with the
    separator between them are the value again only when its middle is
    the separator. *)
Lemma masked_is_itself (sep v : string) :
  8 < len v ->
  substring 0 4 v ++ sep ++ substring (String.length v - 4) 4 v = v
  <-> substring 4 (String.length v - 8) v = sep.
Proof.
  intros H. pose proof (ends_and_middle v H) as V. split; intros E.
  - rewrite V in E at 4.
    apply append_cancel_l, append_cancel_r in E. auto.
  - rewrite <- E. symmetry. exact V.
Qed.

Lemma redactValue_long v :
  8 < len v ->
  redactValue v = substring 0 4 v ++ ellipsis ++ substring (String.length v - 4) 4 v
  /\ (redactValue v = v <-> substring 4 (String.length v - 8) v = ellipsis).
Proof.
  intros H. unfold redactValue.
  destruct (Z.ltb_spec 8 (len v)) as [_ | N]; [| lia].
  split; [reflexivity | apply masked_is_itself; exact H].
Qed.

Lemma redactValue_short v : len v <= 8 -> redactValue v = "********".
Proof.
  unfold redactValue. intros H.
  destruct (Z.ltb_spec 8 (len v)) as [N | _]; [lia | reflexivity].
Qed.

Section Logged.
Context {S In Out : Type} (rt : Runtime S In Out).
Variables (c : Client) (ctx : Context) (method u : string) (hdr : Header)
          (in_ : option In) (out : bool) (retries maxBack : Z).

Lemma observed_logResponse res a (w : World S) :
  loggedHeaders (trace (logResponse c method u res a w)) = loggedHeaders (trace w)
  /\ sent (trace (logResponse c method u res a w)) = sent (trace w).
Proof. unfold logResponse. destruct (Logger c); split; reflexivity. Qed.

Lemma observed_afterHooks res (w : World S) :
  loggedHeaders (trace (runAfterHooks c res w)) = loggedHeaders (trace w)
  /\ sent (trace (runAfterHooks c res w)) = sent (trace w).
Proof.
  unfold runAfterHooks. generalize (seq 0 (AfterHooks c)). intros l.
  revert w. induction l as [|i l IH]; intros w; simpl; auto.
  destruct (IH (record (AfterHook i res) w)) as [-> ->]. split; reflexivity.
Qed.

Lemma observed_afterDo rc attempt (w : World S) res clock s' :
  Logger c = true ->
  let req := applyHeaders c hdr (Request.mk method u ∅ rc) in
  loggedHeaders (trace (afterDo c method u hdr rc attempt w res clock s'))
  = redactHeaders (Request.Header req) :: loggedHeaders (trace w)
  /\ sent (trace (afterDo c method u hdr rc attempt w res clock s'))
     = runBeforeHooks c req :: sent (trace w).
Proof.
  intros L. cbv zeta. unfold afterDo.
  rewrite (proj1 (observed_afterHooks _ _)), (proj2 (observed_afterHooks _ _)).
  rewrite (proj1 (observed_logResponse _ _ _)), (proj2 (observed_logResponse _ _ _)).
  unfold logRequest. rewrite L. split; reflexivity.
Qed.

Lemma observed_pause {A} attempt backoff le (w : World S) f w' :
  pause (A := A) ctx retries maxBack attempt backoff le w = (f, w') ->
  loggedHeaders (trace w') = loggedHeaders (trace w) /\ sent (trace w') = sent (trace w).
Proof.
  unfold pause. destruct (attempt <? retries); intros H; inversion H; subst;
    split; reflexivity.
Qed.

Lemma doJSON_round_observed rc attempt backoff (w : World S) f w' :
  Logger c = true ->
  buildable rt method u in_ rc ->
  doJSON_round rt c ctx method u hdr in_ out retries maxBack attempt backoff w = (f, w') ->
  let req := applyHeaders c hdr (Request.mk method u ∅ rc) in
  loggedHeaders (trace w') = redactHeaders (Request.Header req) :: loggedHeaders (trace w)
  /\ sent (trace w') = runBeforeHooks c req :: sent (trace w).
Proof.
  intros L Hb.
  destruct (RoundTrip rt ctx (outgoing c method u hdr rc) (now w) (server w))
    as [[res clock] s'] eqn:HR.
  rewrite (doJSON_round_eq rt c ctx method u hdr in_ out retries maxBack rc attempt
             backoff w res clock s' Hb HR).
  cbv zeta.
  pose proof (observed_afterDo rc attempt w res clock s' L) as SA. cbv zeta in SA.
  assert (HP : forall b le,
             pause (A := option Out) ctx retries maxBack attempt b le
               (afterDo c method u hdr rc attempt w res clock s') = (f, w') ->
             loggedHeaders (trace w')
             = redactHeaders (Request.Header (applyHeaders c hdr (Request.mk method u ∅ rc)))
                 :: loggedHeaders (trace w)
             /\ sent (trace w')
                = runBeforeHooks c (applyHeaders c hdr (Request.mk method u ∅ rc))
                    :: sent (trace w)).
  { intros b le H. apply observed_pause in H as [-> ->]. exact SA. }
  assert (HRt : forall r : Outcome (option Out),
             (Return r, afterDo c method u hdr rc attempt w res clock s') = (f, w') ->
             loggedHeaders (trace w')
             = redactHeaders (Request.Header (applyHeaders c hdr (Request.mk method u ∅ rc)))
                 :: loggedHeaders (trace w)
             /\ sent (trace w')
                = runBeforeHooks c (applyHeaders c hdr (Request.mk method u ∅ rc))
                    :: sent (trace w)).
  { intros r H. inversion H; subst. exact SA. }
  destruct res as [e | r].
  - apply HP.
  - destruct (Z.quot (Response.StatusCode r) 100 =? 2).
    + destruct (out && (0 <? len (Response.Body r))).
      * destruct (Unmarshal rt (Response.Body r)); [apply HRt | apply HP].
      * apply HRt.
    + destruct ((Response.StatusCode r =? 429) || (Z.quot (Response.StatusCode r) 100 =? 5));
        [apply HP | apply HRt].
Qed.

Lemma doJSON_loop_observed rc fuel :
  Logger c = true ->
  buildable rt method u in_ rc ->
  forall attempt backoff le (w : World S) r w',
    doJSON_loop rt fuel c ctx method u hdr in_ out retries maxBack attempt backoff le w
    = Some (r, w') ->
    let req := applyHeaders c hdr (Request.mk method u ∅ rc) in
    exists n,
      loggedHeaders (trace w')
      = (repeat (redactHeaders (Request.Header req)) n ++ loggedHeaders (trace w))%list
      /\ sent (trace w') = (repeat (runBeforeHooks c req) n ++ sent (trace w))%list.
Proof.
  intros L Hb.
  induction fuel as [|fuel IH]; intros attempt backoff le w r w' H; [discriminate |].
  simpl in H. destruct (attempt <=? retries).
  - destruct (doJSON_round rt c ctx method u hdr in_ out retries maxBack attempt backoff w)
      as [f w1] eqn:E.
    apply (doJSON_round_observed rc) in E; auto. cbv zeta in E. destruct E as [E1 E2].
    destruct f as [r1 | le1 b1].
    + inversion H; subst. exists 1%nat. simpl. auto.
    + apply IH in H. cbv zeta in H. destruct H as (n & F1 & F2).
      exists (n + 1)%nat. rewrite F1, F2, E1, E2.
      rewrite !repeat_app, <- !app_assoc. simpl. auto.
  - inversion H; subst. exists 0%nat. simpl. auto.
Qed.
End Logged.

(** C9. What the Logger gets: with a Logger set, every "request" event
    of a call holds the masked copy of the headers of the attempt, and
    every request handed on holds the headers themselves.  The copy
    differs from them only under the keys that fold to [x-api-key], where
    each value is masked: a value of more than eight bytes becomes its
    first four bytes, the separator and its last four bytes, which is the
    value again only when the bytes between its two ends are the
    separator; a shorter one becomes eight stars. *)
Theorem C9_logger_gets_a_masked_copy {S In Out} (rt : Runtime S In Out) (c : Client)
        (ctx : Context) (method path : string) (hdr : Header) (in_ : option In)
        (out : bool) (w : World S) (rc : option string) r w' :
  Logger c = true ->
  buildable rt method (BaseURL c ++ path) in_ rc ->
  doJSON rt c ctx method path hdr in_ out w = Some (r, w') ->
  let req := applyHeaders c hdr (Request.mk method (BaseURL c ++ path) ∅ rc) in
  let real := Request.Header req in
  let logged := redactHeaders real in
  (exists n,
      loggedHeaders (trace w') = (repeat logged n ++ loggedHeaders (trace w))%list
      /\ sent (trace w') = (repeat (runBeforeHooks c req) n ++ sent (trace w))%list)
  /\ (forall k, values logged k
                = if EqualFold k "x-api-key" then map redactValue (values real k)
                  else values real k)
  /\ (forall v, 8 < len v ->
        redactValue v = substring 0 4 v ++ ellipsis ++ substring (String.length v - 4) 4 v
        /\ (redactValue v = v <-> substring 4 (String.length v - 8) v = ellipsis))
  /\ (forall v, len v <= 8 -> redactValue v = "********").
Proof.
  intros L Hb H req real logged. split; [| split; [| split]].
  - revert H. unfold doJSON.
    destruct (normalizeBackoff (InitialBackoff c) (MaxBackoff c)) as [backoff maxBack].
    intros H. eapply (doJSON_loop_observed rt c ctx method (BaseURL c ++ path) hdr in_ out)
      in H; eauto.
  - apply redactHeaders_values. unfold real, req, applyHeaders. simpl.
    apply canonicalKeys_range.
    destruct (String.eqb (UserAgent c) "");
      repeat apply canonicalKeys_Set; apply canonicalKeys_empty.
  - apply redactValue_long.
  - apply redactValue_short.
Qed.


(** The key [selfMasked], whose middle is the separator, reaches the
    Logger as it is. *)
Lemma C9_counterexample :
  ~ keyNeverLogged (scripted (serving "true")) (client selfMasked 0 0 0) background
      "GET" "/t" None false (start 0).
Proof.
  intros H.
  destruct (doJSON (scripted (serving "true")) (client selfMasked 0 0 0) background
              "GET" "/t" (authHeaders (client selfMasked 0 0 0)) None false (start 0))
    as [[r w'] |] eqn:E; [| vm_compute in E; discriminate].
  specialize (H ltac:(vm_compute; reflexivity) r w' E).
  vm_compute in E. inversion E; subst. clear E.
  inversion H as [| h t Hh Ht]; subst. apply Hh. vm_compute. reflexivity.
Qed.

(** A call with a key of eighteen bytes. *)
Lemma C9_logger_gets_a_masked_copy_witness :
  exists r w',
    doJSON (scripted (serving "true")) (client "sk_live_0123456789" 0 0 0) background
      "GET" "/t" (authHeaders (client "sk_live_0123456789" 0 0 0)) None false (start 0)
    = Some (r, w')
    /\ exists n,
      loggedHeaders (trace w')
      = (repeat (redactHeaders
                   (Request.Header
                      (applyHeaders (client "sk_live_0123456789" 0 0 0)
                         (authHeaders (client "sk_live_0123456789" 0 0 0))
                         (Request.mk "GET" "https://api.example/t" ∅ None)))) n
           ++ loggedHeaders (trace (start 0)))%list
      /\ sent (trace w')
         = (repeat (runBeforeHooks (client "sk_live_0123456789" 0 0 0)
                      (applyHeaders (client "sk_live_0123456789" 0 0 0)
                         (authHeaders (client "sk_live_0123456789" 0 0 0))
                         (Request.mk "GET" "https://api.example/t" ∅ None))) n
              ++ sent (trace (start 0)))%list.
Proof.
  destruct (doJSON (scripted (serving "true")) (client "sk_live_0123456789" 0 0 0) background
              "GET" "/t" (authHeaders (client "sk_live_0123456789" 0 0 0)) None false
              (start 0))
    as [[r w'] |] eqn:E; [| vm_compute in E; discriminate].
  exists r, w'. split; [reflexivity |].
  exact (proj1 (C9_logger_gets_a_masked_copy (scripted (serving "true"))
                  (client "sk_live_0123456789" 0 0 0) background "GET" "/t"
                  (authHeaders (client "sk_live_0123456789" 0 0 0)) None false (start 0)
                  None r w' eq_refl (conj eq_refl eq_refl) E)).
Defined.

(** In that call the Logger sees [sk_l], the separator and [6789], and
    the request sent holds the key. *)
Example masked_key_in_the_log :
  exists r w',
    doJSON (scripted (serving "true")) (client "sk_live_0123456789" 0 0 0) background
      "GET" "/t" (authHeaders (client "sk_live_0123456789" 0 0 0)) None false (start 0)
    = Some (r, w')
    /\ map (fun h => Get h "x-api-key") (loggedHeaders (trace w'))
       = ["sk_l" ++ ellipsis ++ "6789"]
    /\ map (fun q => Get (Request.Header q) "x-api-key") (sent (trace w'))
       = ["sk_live_0123456789"].
Proof.
  do 2 eexists. split; [vm_compute; reflexivity |].
  split; vm_compute; reflexivity.
Qed.

(** ** The executors at concrete calls *)

(** Two retries against a service that is never available: three
    requests. *)
Lemma C3_attempt_budget_witness :
  exists res w',
    doJSON (scripted unavailable) (client "k" 2 0 0) background "POST" "/sql" ∅
      (Some "q") false (start 0)
    = Some (Failed (ErrAttempts (2 + 1)
                      (Some (ErrCall "POST" (BaseURL (client "k" 2 0 0) ++ "/sql")
                               (ErrAPI (parseAPIError (fun _ => None) 503
                                          (Response.Body res)))))), w')
    /\ requests (trace w') = requests (trace (start 0)) + (2 + 1)
    /\ lastDo (trace w') = Some (DoResponse res).
Proof.
  apply (C3_attempt_budget (scripted unavailable) (client "k" 2 0 0) background
           "POST" "/sql" ∅ (Some "q") false (start 0) (Some "q") 2).
  - reflexivity.
  - unfold maxInt64. lia.
  - split; reflexivity.
  - intros req clock s. do 3 eexists. split; reflexivity.
Defined.

(** Two retries against a service whose 200 responses are not JSON:
    three requests, then the attempts error. *)
Lemma C1_decode_failure_is_retried_witness :
  exists res w',
    doJSON (scripted (fun _ => malformed)) (client "k" 2 0 0) background "POST" "/sql" ∅
      (Some "q") true (start 0)
    = Some (Failed (ErrAttempts (2 + 1) (Some (ErrDecode (Response.Body res)))), w')
    /\ requests (trace w') = requests (trace (start 0)) + (2 + 1)
    /\ lastDo (trace w') = Some (DoResponse res).
Proof.
  apply (C1_decode_failure_is_retried (scripted (fun _ => malformed)) (client "k" 2 0 0)
           background "POST" "/sql" ∅ (Some "q") (start 0) (Some "q") 2).
  - reflexivity.
  - unfold maxInt64. lia.
  - split; reflexivity.
  - intros req clock s. do 3 eexists.
    split; [reflexivity |]. split; [reflexivity |]. split; [reflexivity |].
    vm_compute. reflexivity.
Defined.

(** A 404 ends both executors after one request; a 503 is tried again. *)
Lemma C5_retryable_statuses_witness :
  ((exists w',
      doJSON (scripted missing) (client "k" 2 0 0) background "GET" "/t" ∅ None false (start 0)
      = Some (Failed (ErrAPI (parseAPIError (fun _ => None) 404 "missing")), w')
      /\ requests (trace w') = requests (trace (start 0)) + 1)
   /\ exists w',
      doRequest (scripted missing) (client "k" 2 0 0) background "GET" "/t" ∅ None (start 0)
      = Some (Failed (ErrAPI (parseAPIError (fun _ => None) 404 "missing")), w')
      /\ requests (trace w') = requests (trace (start 0)) + 1)
  /\ ((exists r w',
      doJSON (scripted unavailable) (client "k" 2 0 0) background "GET" "/t" ∅ None false (start 0)
      = Some (r, w')
      /\ requests (trace (start 0)) + 2 <= requests (trace w'))
   /\ exists r w',
      doRequest (scripted unavailable) (client "k" 2 0 0) background "GET" "/t" ∅ None (start 0)
      = Some (r, w')
      /\ requests (trace (start 0)) + 2 <= requests (trace w')).
Proof.
  split.
  - apply (proj2 (C5_retryable_statuses (scripted missing) (client "k" 2 0 0) background
                    "GET" "/t" ∅ None false (start 0) None (missing 0%nat) 0 1%nat
                    (conj eq_refl eq_refl) eq_refl ltac:(discriminate))).
    simpl. lia.
  - apply (proj1 (C5_retryable_statuses (scripted unavailable) (client "k" 2 0 0) background
                    "GET" "/t" ∅ None false (start 0) None (unavailable 0%nat) 0 1%nat
                    (conj eq_refl eq_refl) eq_refl ltac:(discriminate))).
    + simpl. lia.
    + unfold maxInt64. simpl. lia.
Defined.

(** C2. The call of [Test_RetryHonorsRetryAfter]: backoff from 100ms to
    200ms, and a 429 whose Retry-After asks for one second.  The second
    attempt is made 200ms after the first: the Retry-After raises the
    backoff, and [jitterSleep] then cuts the timer to [MaxBackoff]. *)
Theorem C2_retry_after_is_cut_to_MaxBackoff :
  exists w',
    doJSON (scripted rateLimited) (client "k" 2 (100 * Millisecond) (200 * Millisecond))
      background "POST" "/sql" ∅ (Some "q") true (start 0)
    = Some (Returned (Some (Json.Bool true)), w')
    /\ parseRetryAfter (fun _ => None) 0 (Get (Response.Header (rateLimited 0%nat)) "Retry-After")
       = 1 * Second
    /\ sleeps (trace w') = [(200 * Millisecond, 200 * Millisecond)]
    /\ doTimes (trace w') = [200 * Millisecond; 0]
    /\ requests (trace w') = 2.
Proof.
  eexists. split; [vm_compute; reflexivity |].
  repeat split; vm_compute; reflexivity.
Qed.

(** With the default cap of two seconds out of the way, the wait is the
    Retry-After scaled by the jitter factor, which is below one: here
    half a second. *)
Example retry_after_is_jittered :
  exists r w',
    doJSON (scripted rateLimited) (client "k" 2 (100 * Millisecond) 0)
      background "POST" "/sql" ∅ (Some "q") true (start 0)
    = Some (r, w')
    /\ sleeps (trace w') = [(500 * Millisecond, 500 * Millisecond)].
Proof.
  do 2 eexists. split; vm_compute; reflexivity.
Qed.

(** A context cancelled at instant 1, and a call whose attempts start
    there. *)
Lemma C4_cancelled_call_witness :
  exists w',
    doJSON_loop (scripted unavailable) 4 (client "k" 2 0 0) (cancelledAt 1)
      "POST" "https://api.example/sql" ∅ (Some "q") false 2 (2 * Second)
      0 (200 * Millisecond) None (start 1)
    = Some (Failed (ErrAttempts (2 + 1)
                      (Some (ErrCall "POST" "https://api.example/sql"
                               (ErrTransport ContextCanceled)))), w')
    /\ requests (trace w') = requests (trace (start 1)) + (2 + 1 - 0)
    /\ now w' = now (start 1).
Proof.
  apply (proj2 (C4_cancelled_call_uses_up_its_attempts (scripted unavailable)
                  (client "k" 2 0 0) (cancelledAt 1) "POST" "https://api.example/sql" ∅
                  (Some "q") false 2 (2 * Second) (Some "q") 1
                  eq_refl ltac:(unfold maxInt64; lia) (conj eq_refl eq_refl)
                  ltac:(intros req clock s H; exists (Datatypes.S s); simpl;
                        unfold isDone; simpl;
                        destruct (Z.leb_spec 1 clock); [reflexivity | lia]))).
  - lia.
  - simpl. lia.
  - simpl. lia.
Defined.

(** ** The budget of a call, whatever the transport does *)

Section Calls.
Import Ledger.
Import Strconv Strings Options Api Devcli Services.

Section Accounts.
Context {S In Out : Type} (rt : Runtime S In Out).
Variables (c : Client) (ctx : Context) (method u : string) (hdr : Header)
          (in_ : option In) (out : bool) (retries maxBack : Z).

Lemma pause_accounted {A} attempt backoff le (w0 w : World S) :
  requests (trace w) = requests (trace w0) + 1 ->
  sleeps (trace w) = sleeps (trace w0) ->
  exists f w',
    pause (A := A) ctx retries maxBack attempt backoff le w = (f, w')
    /\ accounted retries maxBack attempt w0 f w'.
Proof.
  intros R Sl. unfold pause. destruct (Z.ltb_spec attempt retries) as [Lt | Ge].
  - do 2 eexists. split; [reflexivity |]. split.
    + destruct (jitterSleep_frame ctx backoff maxBack w) as (_ & F & _). lia.
    + right. split; [exact Lt |]. split; [eauto |].
      destruct (jitterSleep_capped ctx maxBack backoff w) as (x & E & Cx).
      exists x. rewrite E, Sl. auto.
  - do 2 eexists. split; [reflexivity |]. split; [exact R | left; split; [exact Sl | lia]].
Qed.

Lemma doJSON_round_accounted rc attempt backoff (w : World S) :
  buildable rt method u in_ rc ->
  exists f w',
    doJSON_round rt c ctx method u hdr in_ out retries maxBack attempt backoff w = (f, w')
    /\ accounted retries maxBack attempt w f w'.
Proof.
  intros Hb.
  destruct (RoundTrip rt ctx (outgoing c method u hdr rc) (now w) (server w))
    as [[res clock] s'] eqn:HR.
  rewrite (doJSON_round_eq rt c ctx method u hdr in_ out retries maxBack rc attempt
             backoff w res clock s' Hb HR).
  cbv zeta.
  destruct (afterDo_frame c method u hdr rc attempt w res clock s') as (_ & _ & F3 & _).
  pose proof (sleeps_afterDo c method u hdr rc attempt w res clock s') as SA.
  assert (HR' : forall r : Outcome (option Out), exists f w',
               (Return r, afterDo c method u hdr rc attempt w res clock s') = (f, w')
               /\ accounted retries maxBack attempt w f w').
  { intros r. do 2 eexists. split; [reflexivity |]. split; [exact F3 | left; split; [exact SA | eauto]]. }
  destruct res as [e | r].
  - apply pause_accounted; assumption.
  - destruct (Z.quot (Response.StatusCode r) 100 =? 2).
    + destruct (out && (0 <? len (Response.Body r))).
      * destruct (Unmarshal rt (Response.Body r)); [apply HR' |].
        apply pause_accounted; assumption.
      * apply HR'.
    + destruct ((Response.StatusCode r =? 429) || (Z.quot (Response.StatusCode r) 100 =? 5));
        [apply pause_accounted; assumption | apply HR'].
Qed.

Lemma doRequest_round_accounted rc attempt backoff (w : World S) :
  buildable rt method u in_ rc ->
  exists f w',
    doRequest_round rt c ctx method u hdr in_ retries maxBack attempt backoff w = (f, w')
    /\ accounted retries maxBack attempt w f w'.
Proof.
  intros Hb.
  destruct (RoundTrip rt ctx (outgoing c method u hdr rc) (now w) (server w))
    as [[res clock] s'] eqn:HR.
  rewrite (doRequest_round_eq rt c ctx method u hdr in_ retries maxBack rc attempt
             backoff w res clock s' Hb HR).
  cbv zeta.
  set (w1 := mkWorld clock s' _).
  assert (F3 : requests (trace w1) = requests (trace w) + 1).
  { subst w1. simpl.
    destruct (logRequest_frame c method u
                (applyHeaders c hdr (Request.mk method u ∅ rc)) attempt w)
      as (_ & _ & K3 & _).
    unfold requests in *. simpl. lia. }
  assert (SA : sleeps (trace w1) = sleeps (trace w)).
  { subst w1. simpl. apply sleeps_logRequest. }
  assert (HR' : forall r : Outcome Response.t, exists f w',
               (Return r, w1) = (f, w') /\ accounted retries maxBack attempt w f w').
  { intros r. do 2 eexists. split; [reflexivity |]. split; [exact F3 | left; split; [exact SA | eauto]]. }
  destruct res as [e | r].
  - apply pause_accounted; assumption.
  - destruct (Z.quot (Response.StatusCode r) 100 =? 2); [apply HR' |].
    destruct ((Response.StatusCode r =? 429) || (Z.quot (Response.StatusCode r) 100 =? 5));
      [apply pause_accounted; assumption | apply HR'].
Qed.

Lemma loop_bounded {A}
      (round : Z -> Z -> World S -> Flow A * World S)
      (loop : nat -> Z -> Z -> option error -> World S -> option (Outcome A * World S)) :
  (forall fuel attempt backoff le w,
      loop (Datatypes.S fuel) attempt backoff le w
      = if attempt <=? retries then
          match round attempt backoff w with
          | (Return r, w) => Some (r, w)
          | (Continue le b, w) => loop fuel (wrap64 (attempt + 1)) b le w
          end
        else Some (Failed (ErrAttempts (wrap64 (retries + 1)) le), w)) ->
  (forall attempt backoff w, exists f w',
        round attempt backoff w = (f, w') /\ accounted retries maxBack attempt w f w') ->
  retries < maxInt64 ->
  forall (m : nat) attempt backoff le (w : World S) fuel,
    0 <= attempt <= retries ->
    Z.to_nat (retries - attempt) = m ->
    (m + 1 < fuel)%nat ->
    exists r w',
      loop fuel attempt backoff le w = Some (r, w')
      /\ bounded maxBack (retries - attempt + 1) w w'.
Proof.
  intros Hloop Hround Hr m.
  induction m as [|m IH]; intros attempt backoff le w fuel Ha Hm Hf.
  - assert (attempt = retries) by lia. subst attempt.
    destruct fuel as [|[|fuel]]; try lia.
    rewrite Hloop. rewrite Z.leb_refl.
    destruct (Hround retries backoff w) as (f & w1 & E & R & Sl). rewrite E.
    assert (Sl' : sleeps (trace w1) = sleeps (trace w)).
    { destruct Sl as [[Sl _] | (Lt & _)]; [exact Sl | lia]. }
    assert (B : bounded maxBack (retries - retries + 1) w w1).
    { exists 1, []. rewrite Sl'. simpl. repeat split; try lia. constructor. }
    destruct f as [r | le1 b1].
    + eauto.
    + rewrite Hloop. rewrite wrap64_id by (unfold minInt64, maxInt64 in *; lia).
      replace (retries + 1 <=? retries) with false by (symmetry; apply Z.leb_gt; lia).
      eauto.
  - destruct fuel as [|fuel]; [lia |].
    rewrite Hloop.
    replace (attempt <=? retries) with true by (symmetry; apply Z.leb_le; lia).
    destruct (Hround attempt backoff w) as (f & w1 & E & R & Sl). rewrite E.
    destruct f as [r | le1 b1].
    + assert (Sl' : sleeps (trace w1) = sleeps (trace w)).
      { destruct Sl as [[Sl _] | (_ & (le0 & b0 & Ef) & _)]; [exact Sl | discriminate]. }
      exists r, w1. split; [reflexivity |].
      exists 1, []. rewrite Sl'. simpl. repeat split; try lia. constructor.
    + rewrite wrap64_id by (unfold minInt64, maxInt64 in *; lia).
      destruct (IH (attempt + 1) b1 le1 w1 fuel)
        as (r & w' & E' & (k & xs & K & R1 & E2 & L2 & F2)); try lia.
      exists r, w'. split; [exact E' |].
      destruct Sl as [[_ Sl] | (_ & _ & x & Ex & Cx)].
      * destruct Sl as [r0 Er]; [lia | discriminate].
      * exists (k + 1), (xs ++ [x])%list. rewrite E2, Ex, <- app_assoc. simpl.
        repeat split; auto; try lia.
        -- rewrite length_app. simpl. lia.
        -- apply Forall_app. split; [exact F2 | constructor; [exact Cx | constructor]].
Qed.

End Accounts.

(** [doJSON] returns, whatever the transport does, after at least one
    and at most [MaxRetries + 1] requests (one when [MaxRetries] is
    negative), with exactly one wait between a request and the next
    and none after the last; no wait has a timer above [MaxBackoff]. *)
Theorem doJSON_stays_within_budget {S In Out} (rt : Runtime S In Out) (c : Client)
        (ctx : Context) (method path : string) (hdr : Header) (in_ : option In)
        (out : bool) (w : World S) (rc : option string) :
  buildable rt method (BaseURL c ++ path) in_ rc ->
  MaxRetries c < maxInt64 ->
  exists r w' k xs,
    doJSON rt c ctx method path hdr in_ out w = Some (r, w')
    /\ 1 <= k <= Z.max 0 (MaxRetries c) + 1
    /\ requests (trace w') = requests (trace w) + k
    /\ sleeps (trace w') = (xs ++ sleeps (trace w))%list
    /\ Z.of_nat (List.length xs) = k - 1
    /\ Forall (capped (snd (normalizeBackoff (InitialBackoff c) (MaxBackoff c)))) xs.
Proof.
  intros Hb Hr. unfold doJSON.
  destruct (normalizeBackoff (InitialBackoff c) (MaxBackoff c)) as [backoff maxBack].
  simpl snd.
  assert (N : normalizeRetries (MaxRetries c) = Z.max 0 (MaxRetries c)).
  { unfold normalizeRetries. destruct (Z.ltb_spec (MaxRetries c) 0); lia. }
  rewrite N. set (retries := Z.max 0 (MaxRetries c)).
  assert (R0 : 0 <= retries < maxInt64) by (unfold retries, maxInt64 in *; lia).
  assert (Hloop : forall fuel a b le w0,
             (fun fuel a b le w0 => doJSON_loop rt fuel c ctx method (BaseURL c ++ path) hdr in_ out retries maxBack a b le w0) (Datatypes.S fuel) a b le w0
             = if a <=? retries then
                 match (fun a b w0 => doJSON_round rt c ctx method (BaseURL c ++ path) hdr in_ out retries maxBack a b w0) a b w0 with
                 | (Return r, w1) => Some (r, w1)
                 | (Continue le1 b1, w1) =>
                     (fun fuel a b le w0 => doJSON_loop rt fuel c ctx method (BaseURL c ++ path) hdr in_ out retries maxBack a b le w0) fuel (wrap64 (a + 1)) b1 le1 w1
                 end
               else Some (Failed (ErrAttempts (wrap64 (retries + 1)) le), w0))
    by (intros; reflexivity).
  assert (Hround : forall a b w0, exists f w',
             (fun a b w0 => doJSON_round rt c ctx method (BaseURL c ++ path) hdr in_ out retries maxBack a b w0) a b w0 = (f, w')
             /\ accounted retries maxBack a w0 f w').
  { intros a b w0. apply (doJSON_round_accounted rt c ctx method _ hdr in_ out _ _ rc). exact Hb. }
  destruct (loop_bounded (A := option Out) retries maxBack _ _ Hloop Hround (proj2 R0)
              (Z.to_nat retries) 0 backoff None w (Z.to_nat retries + 2)%nat
              ltac:(lia) ltac:(f_equal; lia) ltac:(lia))
    as (r & w' & E & (k & xs & K & R & E2 & L & F)).
  exists r, w', k, xs. replace (retries - 0 + 1) with (retries + 1) in K by lia. auto 10.
Qed.

(** A service that is never available, two retries: between one and
    three requests. *)
Lemma doJSON_stays_within_budget_witness :
  exists r w' k xs,
    doJSON (scripted unavailable) (client "k" 2 0 0) background "GET" "/t" ∅ None false
      (start 0) = Some (r, w')
    /\ 1 <= k <= Z.max 0 (MaxRetries (client "k" 2 0 0)) + 1
    /\ requests (trace w') = requests (trace (start 0)) + k
    /\ sleeps (trace w') = (xs ++ sleeps (trace (start 0)))%list
    /\ Z.of_nat (List.length xs) = k - 1
    /\ Forall (capped (snd (normalizeBackoff (InitialBackoff (client "k" 2 0 0))
                              (MaxBackoff (client "k" 2 0 0))))) xs.
Proof.
  apply (doJSON_stays_within_budget (scripted unavailable) (client "k" 2 0 0) background
           "GET" "/t" ∅ None false (start 0) None).
  - split; reflexivity.
  - reflexivity.
Defined.

(** [doRequest] keeps to the same budget: at least one and at most
    [MaxRetries + 1] requests (one when [MaxRetries] is negative), one
    wait between a request and the next and none after the last, no
    wait with a timer above [MaxBackoff]. *)
Theorem doRequest_stays_within_budget {S In Out} (rt : Runtime S In Out) (c : Client)
        (ctx : Context) (method path : string) (hdr : Header) (in_ : option In)
        (w : World S) (rc : option string) :
  buildable rt method (BaseURL c ++ path) in_ rc ->
  MaxRetries c < maxInt64 ->
  exists r w' k xs,
    doRequest rt c ctx method path hdr in_ w = Some (r, w')
    /\ 1 <= k <= Z.max 0 (MaxRetries c) + 1
    /\ requests (trace w') = requests (trace w) + k
    /\ sleeps (trace w') = (xs ++ sleeps (trace w))%list
    /\ Z.of_nat (List.length xs) = k - 1
    /\ Forall (capped (snd (normalizeBackoff (InitialBackoff c) (MaxBackoff c)))) xs.
Proof.
  intros Hb Hr. unfold doRequest.
  destruct (normalizeBackoff (InitialBackoff c) (MaxBackoff c)) as [backoff maxBack].
  simpl snd.
  assert (N : normalizeRetries (MaxRetries c) = Z.max 0 (MaxRetries c)).
  { unfold normalizeRetries. destruct (Z.ltb_spec (MaxRetries c) 0); lia. }
  rewrite N. set (retries := Z.max 0 (MaxRetries c)).
  assert (R0 : 0 <= retries < maxInt64) by (unfold retries, maxInt64 in *; lia).
  assert (Hloop : forall fuel a b le w0,
             (fun fuel a b le w0 => doRequest_loop rt fuel c ctx method (BaseURL c ++ path) hdr in_ retries maxBack a b le w0) (Datatypes.S fuel) a b le w0
             = if a <=? retries then
                 match (fun a b w0 => doRequest_round rt c ctx method (BaseURL c ++ path) hdr in_ retries maxBack a b w0) a b w0 with
                 | (Return r, w1) => Some (r, w1)
                 | (Continue le1 b1, w1) =>
                     (fun fuel a b le w0 => doRequest_loop rt fuel c ctx method (BaseURL c ++ path) hdr in_ retries maxBack a b le w0) fuel (wrap64 (a + 1)) b1 le1 w1
                 end
               else Some (Failed (ErrAttempts (wrap64 (retries + 1)) le), w0))
    by (intros; reflexivity).
  assert (Hround : forall a b w0, exists f w',
             (fun a b w0 => doRequest_round rt c ctx method (BaseURL c ++ path) hdr in_ retries maxBack a b w0) a b w0 = (f, w')
             /\ accounted retries maxBack a w0 f w').
  { intros a b w0. apply (doRequest_round_accounted rt c ctx method _ hdr in_ _ _ rc). exact Hb. }
  destruct (loop_bounded (A := Response.t) retries maxBack _ _ Hloop Hround (proj2 R0)
              (Z.to_nat retries) 0 backoff None w (Z.to_nat retries + 2)%nat
              ltac:(lia) ltac:(f_equal; lia) ltac:(lia))
    as (r & w' & E & (k & xs & K & R & E2 & L & F)).
  exists r, w', k, xs. replace (retries - 0 + 1) with (retries + 1) in K by lia. auto 10.
Qed.

Lemma doRequest_stays_within_budget_witness :
  exists r w' k xs,
    doRequest (scripted rateLimited) (client "k" 2 0 0) background "GET" "/t" ∅ None
      (start 0) = Some (r, w')
    /\ 1 <= k <= Z.max 0 (MaxRetries (client "k" 2 0 0)) + 1
    /\ requests (trace w') = requests (trace (start 0)) + k
    /\ sleeps (trace w') = (xs ++ sleeps (trace (start 0)))%list
    /\ Z.of_nat (List.length xs) = k - 1
    /\ Forall (capped (snd (normalizeBackoff (InitialBackoff (client "k" 2 0 0))
                              (MaxBackoff (client "k" 2 0 0))))) xs.
Proof.
  apply (doRequest_stays_within_budget (scripted rateLimited) (client "k" 2 0 0) background
           "GET" "/t" ∅ None (start 0) None).
  - split; reflexivity.
  - reflexivity.
Defined.

(** ** A transport that never lets the call end *)

Lemma not_success_of_retryable s : s = 429 \/ 500 <= s <= 599 -> (Z.quot s 100 =? 2) = false.
Proof.
  intros H. apply Z.eqb_neq. intros Q.
  pose proof (Z.quot_rem' s 100) as E.
  assert (0 <= s) by lia.
  pose proof (Z.rem_bound_pos s 100 ltac:(lia) ltac:(lia)). lia.
Qed.

Section Exhaust.
Context {S In Out : Type} (rt : Runtime S In Out).
Variables (c : Client) (ctx : Context) (method u : string) (hdr : Header)
          (in_ : option In) (retries maxBack : Z).

Lemma doRequest_loop_exhaust (Pre : World S -> Prop) (Inv : option error -> World S -> Prop) :
  0 <= retries < maxInt64 ->
  (forall attempt backoff w,
      Pre w ->
      exists le b' w',
        doRequest_round rt c ctx method u hdr in_ retries maxBack attempt backoff w
        = (Continue le b', w') /\
        requests (trace w') = requests (trace w) + 1 /\ Pre w' /\ Inv le w') ->
  forall (m : nat) attempt backoff le (w : World S) fuel,
    0 <= attempt <= retries + 1 ->
    Z.to_nat (retries + 1 - attempt) = m ->
    (m < fuel)%nat ->
    Pre w ->
    (m = 0%nat -> Inv le w) ->
    exists le' w',
      doRequest_loop rt fuel c ctx method u hdr in_ retries maxBack attempt backoff le w
      = Some (Failed (ErrAttempts (retries + 1) le'), w') /\
      requests (trace w') = requests (trace w) + Z.of_nat m /\ Pre w' /\ Inv le' w'.
Proof.
  intros Hr Hround m.
  induction m as [|m IH]; intros attempt backoff le w fuel Ha Hm Hf Hp Hi.
  - destruct fuel as [|fuel]; [lia |]. simpl.
    assert (attempt = retries + 1) by lia. subst attempt.
    replace (retries + 1 <=? retries) with false by (symmetry; apply Z.leb_gt; lia).
    rewrite wrap64_id by (unfold minInt64, maxInt64 in *; lia).
    exists le, w. repeat split; auto. lia.
  - destruct fuel as [|fuel]; [lia |]. simpl.
    replace (attempt <=? retries) with true by (symmetry; apply Z.leb_le; lia).
    destruct (Hround attempt backoff w Hp) as (le1 & b1 & w1 & E & R & P1 & I).
    rewrite E.
    rewrite wrap64_id by (unfold minInt64, maxInt64 in *; lia).
    destruct (IH (attempt + 1) b1 le1 w1 fuel) as (le' & w' & E' & R' & P' & I');
      try lia; auto.
    exists le', w'. repeat split; auto. lia.
Qed.

Hypothesis always_retryable :
  forall req clock s, exists res clock' s',
    RoundTrip rt ctx req clock s = (res, clock', s') /\ retryable res.

Lemma doRequest_round_goes_on rc attempt backoff (w : World S) :
  buildable rt method u in_ rc ->
  exists res b' w',
    doRequest_round rt c ctx method u hdr in_ retries maxBack attempt backoff w
    = (Continue (Some (retryError rt method u res)) b', w')
    /\ requests (trace w') = requests (trace w) + 1
    /\ lastDo (trace w') = Some res.
Proof.
  intros Hb.
  destruct (always_retryable (outgoing c method u hdr rc) (now w) (server w))
    as (res & clock & s' & HR & Rt).
  rewrite (doRequest_round_eq rt c ctx method u hdr in_ retries maxBack rc attempt
             backoff w res clock s' Hb HR).
  cbv zeta. set (w1 := mkWorld clock s' _).
  assert (F3 : requests (trace w1) = requests (trace w) + 1 /\ lastDo (trace w1) = Some res).
  { subst w1. simpl.
    destruct (logRequest_frame c method u
                (applyHeaders c hdr (Request.mk method u ∅ rc)) attempt w)
      as (_ & _ & K3 & _).
    unfold requests in *. simpl. split; [lia | reflexivity]. }
  assert (HP : forall b, exists b' w',
               pause (A := Response.t) ctx retries maxBack attempt b
                 (Some (retryError rt method u res)) w1
               = (Continue (Some (retryError rt method u res)) b', w')
               /\ requests (trace w') = requests (trace w) + 1
               /\ lastDo (trace w') = Some res).
  { intros b.
    destruct (pause_frame (A := Response.t) ctx retries maxBack attempt b
                (Some (retryError rt method u res)) w1) as (b' & w' & P & _ & P3 & P4).
    exists b', w'. rewrite P. destruct F3. repeat split; congruence. }
  exists res. destruct res as [e | r]; simpl in Rt.
  - apply HP.
  - rewrite (not_success_of_retryable _ Rt).
    rewrite (proj2 (retryable_status _) Rt). apply HP.
Qed.

Lemma doJSON_round_goes_on out rc attempt backoff (w : World S) :
  buildable rt method u in_ rc ->
  exists res b' w',
    doJSON_round rt c ctx method u hdr in_ out retries maxBack attempt backoff w
    = (Continue (Some (retryError rt method u res)) b', w')
    /\ requests (trace w') = requests (trace w) + 1
    /\ lastDo (trace w') = Some res.
Proof.
  intros Hb.
  destruct (always_retryable (outgoing c method u hdr rc) (now w) (server w))
    as (res & clock & s' & HR & Rt).
  rewrite (doJSON_round_eq rt c ctx method u hdr in_ out retries maxBack rc attempt
             backoff w res clock s' Hb HR).
  cbv zeta.
  destruct (afterDo_frame c method u hdr rc attempt w res clock s') as (_ & _ & F3 & F4).
  assert (HP : forall b, exists b' w',
               pause (A := option Out) ctx retries maxBack attempt b
                 (Some (retryError rt method u res))
                 (afterDo c method u hdr rc attempt w res clock s')
               = (Continue (Some (retryError rt method u res)) b', w')
               /\ requests (trace w') = requests (trace w) + 1
               /\ lastDo (trace w') = Some res).
  { intros b.
    destruct (pause_frame (A := option Out) ctx retries maxBack attempt b
                (Some (retryError rt method u res))
                (afterDo c method u hdr rc attempt w res clock s'))
      as (b' & w' & P & _ & P3 & P4).
    exists b', w'. rewrite P. repeat split; congruence. }
  exists res. destruct res as [e | r]; simpl in Rt.
  - apply HP.
  - rewrite (not_success_of_retryable _ Rt).
    rewrite (proj2 (retryable_status _) Rt). apply HP.
Qed.

End Exhaust.

(** [doRequest] under a transport none of whose results ends the call -
    transport errors and responses with status 429 or 5xx, in any order:
    it makes exactly [MaxRetries + 1] requests and returns the attempts
    error with that count around the error of the last result. *)
Theorem doRequest_uses_up_its_attempts {S In Out} (rt : Runtime S In Out) (c : Client)
        (ctx : Context) (method path : string) (hdr : Header) (in_ : option In)
        (w : World S) (rc : option string) (N : Z) :
  MaxRetries c = N ->
  0 <= N < maxInt64 ->
  buildable rt method (BaseURL c ++ path) in_ rc ->
  (forall req clock s, exists res clock' s',
      RoundTrip rt ctx req clock s = (res, clock', s') /\ retryable res) ->
  exists res w',
    doRequest rt c ctx method path hdr in_ w
    = Some (Failed (ErrAttempts (N + 1)
                      (Some (retryError rt method (BaseURL c ++ path) res))), w')
    /\ requests (trace w') = requests (trace w) + (N + 1)
    /\ lastDo (trace w') = Some res.
Proof.
  intros HN Hr Hb Hall. unfold doRequest. rewrite HN.
  destruct (normalizeBackoff (InitialBackoff c) (MaxBackoff c)) as [backoff maxBack].
  rewrite normalizeRetries_id by lia.
  set (u := BaseURL c ++ path) in *.
  pose (Inv := fun (le : option error) (w : World S) =>
                 exists res, lastDo (trace w) = Some res
                             /\ le = Some (retryError rt method u res)).
  destruct (doRequest_loop_exhaust rt c ctx method u hdr in_ N maxBack
              (fun _ => True) Inv Hr) with
    (m := Z.to_nat (N + 1)) (attempt := 0) (backoff := backoff) (le := @None error)
    (w := w) (fuel := (Z.to_nat N + 2)%nat)
    as (le' & w' & E & R & _ & (res & L & ->)).
  - intros attempt b w0 _.
    destruct (doRequest_round_goes_on rt c ctx method u hdr in_ N maxBack Hall rc attempt b w0 Hb)
      as (res & b' & w1 & E & R & L).
    exists (Some (retryError rt method u res)), b', w1. repeat split; auto.
    exists res. auto.
  - lia.
  - f_equal. lia.
  - lia.
  - exact I.
  - intros H0. lia.
  - exists res, w'. rewrite E. repeat split; auto. lia.
Qed.

Lemma doRequest_uses_up_its_attempts_witness :
  exists res w',
    doRequest (scripted unavailable) (client "k" 2 0 0) (cancelledAt 0) "GET" "/t" ∅ None
      (start 0)
    = Some (Failed (ErrAttempts (2 + 1)
                      (Some (retryError (scripted unavailable) "GET"
                               (BaseURL (client "k" 2 0 0) ++ "/t") res))), w')
    /\ requests (trace w') = requests (trace (start 0)) + (2 + 1)
    /\ lastDo (trace w') = Some res.
Proof.
  apply (doRequest_uses_up_its_attempts (scripted unavailable) (client "k" 2 0 0)
           (cancelledAt 0) "GET" "/t" ∅ None (start 0) None 2).
  - reflexivity.
  - unfold maxInt64. lia.
  - split; reflexivity.
  - intros req clock s. unfold scripted, RoundTrip.
    destruct (isDone (cancelledAt 0) clock); do 3 eexists; (split; [reflexivity |]).
    + exact I.
    + right. simpl. lia.
Defined.

(** [doJSON] under a transport none of whose results ends the call -
    transport errors and responses with status 429 or 5xx, in any order:
    it makes exactly [MaxRetries + 1] requests and returns the attempts
    error with that count around the error of the last result; a
    transport error counts against the budget as a 429 or a 5xx does. *)
Theorem doJSON_uses_up_its_attempts {S In Out} (rt : Runtime S In Out) (c : Client)
        (ctx : Context) (method path : string) (hdr : Header) (in_ : option In)
        (out : bool) (w : World S) (rc : option string) (N : Z) :
  MaxRetries c = N ->
  0 <= N < maxInt64 ->
  buildable rt method (BaseURL c ++ path) in_ rc ->
  (forall req clock s, exists res clock' s',
      RoundTrip rt ctx req clock s = (res, clock', s') /\ retryable res) ->
  exists res w',
    doJSON rt c ctx method path hdr in_ out w
    = Some (Failed (ErrAttempts (N + 1)
                      (Some (retryError rt method (BaseURL c ++ path) res))), w')
    /\ requests (trace w') = requests (trace w) + (N + 1)
    /\ lastDo (trace w') = Some res.
Proof.
  intros HN Hr Hb Hall. unfold doJSON. rewrite HN.
  destruct (normalizeBackoff (InitialBackoff c) (MaxBackoff c)) as [backoff maxBack].
  rewrite normalizeRetries_id by lia.
  set (u := BaseURL c ++ path) in *.
  pose (Inv := fun (le : option error) (w : World S) =>
                 exists res, lastDo (trace w) = Some res
                             /\ le = Some (retryError rt method u res)).
  destruct (doJSON_loop_exhaust rt c ctx method u hdr in_ out N maxBack
              (fun _ => True) Inv Hr) with
    (m := Z.to_nat (N + 1)) (attempt := 0) (backoff := backoff) (le := @None error)
    (w := w) (fuel := (Z.to_nat N + 2)%nat)
    as (le' & w' & E & R & _ & (res & L & ->)).
  - intros attempt b w0 _.
    destruct (doJSON_round_goes_on rt c ctx method u hdr in_ N maxBack Hall out rc attempt b w0 Hb)
      as (res & b' & w1 & E & R & L).
    exists (Some (retryError rt method u res)), b', w1. repeat split; auto.
    exists res. auto.
  - lia.
  - f_equal. lia.
  - lia.
  - exact I.
  - intros H0. lia.
  - exists res, w'. rewrite E. repeat split; auto. lia.
Qed.

Lemma doJSON_uses_up_its_attempts_witness :
  exists res w',
    doJSON (scripted unavailable) (client "k" 2 0 0) (cancelledAt 0) "GET" "/t" ∅ None
      false (start 0)
    = Some (Failed (ErrAttempts (2 + 1)
                      (Some (retryError (scripted unavailable) "GET"
                               (BaseURL (client "k" 2 0 0) ++ "/t") res))), w')
    /\ requests (trace w') = requests (trace (start 0)) + (2 + 1)
    /\ lastDo (trace w') = Some res.
Proof.
  apply (doJSON_uses_up_its_attempts (scripted unavailable) (client "k" 2 0 0)
           (cancelledAt 0) "GET" "/t" ∅ None false (start 0) None 2).
  - reflexivity.
  - unfold maxInt64. lia.
  - split; reflexivity.
  - intros req clock s. unfold scripted, RoundTrip.
    destruct (isDone (cancelledAt 0) clock); do 3 eexists; (split; [reflexivity |]).
    + exact I.
    + right. simpl. lia.
Defined.

(** ** Requests that are not built, and first successes *)

Lemma normalizeRetries_nonneg n : 0 <= normalizeRetries n.
Proof. unfold normalizeRetries. destruct (Z.ltb_spec n 0); lia. Qed.

Lemma fuel_two n : (Z.to_nat n + 2)%nat = Datatypes.S (Datatypes.S (Z.to_nat n)).
Proof. lia. Qed.

Lemma doJSON_unbuilt {S In Out} (rt : Runtime S In Out) (c : Client)
      (ctx : Context) (method path : string) (hdr : Header) (in_ : option In)
      (out : bool) (w : World S) (err : error) :
  makeBody rt in_ = Failed err
  \/ (exists rc, makeBody rt in_ = Returned rc)
     /\ ValidRequest rt method (BaseURL c ++ path) = false
     /\ err = ErrNewRequest method (BaseURL c ++ path) ->
  doJSON rt c ctx method path hdr in_ out w = Some (Failed err, w).
Proof.
  intros H. unfold doJSON.
  destruct (normalizeBackoff (InitialBackoff c) (MaxBackoff c)) as [backoff maxBack].
  rewrite fuel_two. cbn [doJSON_loop].
  pose proof (normalizeRetries_nonneg (MaxRetries c)) as Nn.
  replace (0 <=? normalizeRetries (MaxRetries c)) with true
    by (symmetry; apply Z.leb_le; exact Nn).
  unfold doJSON_round, NewRequestWithContext.
  destruct H as [Hm | ((rc & Hm) & Hv & ->)]; rewrite Hm; [reflexivity |].
  rewrite Hv. reflexivity.
Qed.

Lemma doRequest_unbuilt {S In Out} (rt : Runtime S In Out) (c : Client)
      (ctx : Context) (method path : string) (hdr : Header) (in_ : option In)
      (w : World S) (err : error) :
  makeBody rt in_ = Failed err
  \/ (exists rc, makeBody rt in_ = Returned rc)
     /\ ValidRequest rt method (BaseURL c ++ path) = false
     /\ err = ErrNewRequest method (BaseURL c ++ path) ->
  doRequest rt c ctx method path hdr in_ w = Some (Failed err, w).
Proof.
  intros H. unfold doRequest.
  destruct (normalizeBackoff (InitialBackoff c) (MaxBackoff c)) as [backoff maxBack].
  rewrite fuel_two. cbn [doRequest_loop].
  pose proof (normalizeRetries_nonneg (MaxRetries c)) as Nn.
  replace (0 <=? normalizeRetries (MaxRetries c)) with true
    by (symmetry; apply Z.leb_le; exact Nn).
  unfold doRequest_round, NewRequestWithContext.
  destruct H as [Hm | ((rc & Hm) & Hv & ->)]; rewrite Hm; [reflexivity |].
  rewrite Hv. reflexivity.
Qed.

(** A request that cannot be built is not sent: when the body does not
    encode, or [http.NewRequestWithContext] refuses the method or the
    URL, both executors return that error and leave the world as it
    was - no request, no log event, no wait. *)
Theorem unbuilt_request_is_not_sent {S In Out} (rt : Runtime S In Out) (c : Client)
        (ctx : Context) (method path : string) (hdr : Header) (in_ : option In)
        (out : bool) (w : World S) (err : error) :
  makeBody rt in_ = Failed err
  \/ (exists rc, makeBody rt in_ = Returned rc)
     /\ ValidRequest rt method (BaseURL c ++ path) = false
     /\ err = ErrNewRequest method (BaseURL c ++ path) ->
  doJSON rt c ctx method path hdr in_ out w = Some (Failed err, w)
  /\ doRequest rt c ctx method path hdr in_ w = Some (Failed err, w).
Proof.
  intros H. split; [apply doJSON_unbuilt | apply doRequest_unbuilt]; exact H.
Qed.

Lemma unbuilt_request_is_not_sent_witness :
  doJSON unencodable (client "k" 2 0 0) background "POST" "/sql" ∅ (Some "q") true (start 0)
  = Some (Failed ErrMarshal, start 0)
  /\ doRequest unencodable (client "k" 2 0 0) background "POST" "/sql" ∅ (Some "q") (start 0)
     = Some (Failed ErrMarshal, start 0).
Proof.
  apply (unbuilt_request_is_not_sent unencodable (client "k" 2 0 0) background
           "POST" "/sql" ∅ (Some "q") true (start 0) ErrMarshal).
  left. reflexivity.
Defined.

Section Success.
Context {S In Out : Type} (rt : Runtime S In Out).
Variables (c : Client) (ctx : Context) (method u : string) (hdr : Header)
          (in_ : option In) (out : bool) (retries maxBack : Z).

Lemma doJSON_round_success rc attempt backoff (w : World S) res clock s' v :
  buildable rt method u in_ rc ->
  RoundTrip rt ctx (outgoing c method u hdr rc) (now w) (server w)
  = (DoResponse res, clock, s') ->
  Z.quot (Response.StatusCode res) 100 = 2 ->
  decoded rt out res v ->
  doJSON_round rt c ctx method u hdr in_ out retries maxBack attempt backoff w
  = (Return (Returned v), afterDo c method u hdr rc attempt w (DoResponse res) clock s').
Proof.
  intros Hb HR H2 Hd.
  rewrite (doJSON_round_eq rt c ctx method u hdr in_ out retries maxBack rc attempt
             backoff w _ clock s' Hb HR).
  cbv zeta. rewrite H2. simpl. unfold decoded in Hd.
  destruct (out && (0 <? len (Response.Body res))).
  - destruct Hd as (x & -> & ->). reflexivity.
  - subst v. reflexivity.
Qed.

Lemma doJSON_round_retry rc attempt backoff (w : World S) res clock s' :
  buildable rt method u in_ rc ->
  RoundTrip rt ctx (outgoing c method u hdr rc) (now w) (server w)
  = (DoResponse res, clock, s') ->
  Response.StatusCode res = 429 \/ 500 <= Response.StatusCode res <= 599 ->
  attempt < retries ->
  doJSON_round rt c ctx method u hdr in_ out retries maxBack attempt backoff w
  = (Continue (Some (ErrCall method u
                       (ErrAPI (parseAPIError (UnmarshalMsg rt) (Response.StatusCode res)
                                  (Response.Body res)))))
       (nextBackoff (raiseBackoff rt res clock backoff) maxBack),
     jitterSleep ctx (raiseBackoff rt res clock backoff) maxBack
       (afterDo c method u hdr rc attempt w (DoResponse res) clock s')).
Proof.
  intros Hb HR Rt Lt.
  rewrite (doJSON_round_eq rt c ctx method u hdr in_ out retries maxBack rc attempt
             backoff w _ clock s' Hb HR).
  cbv zeta.
  assert (Q : (Z.quot (Response.StatusCode res) 100 =? 2) = false).
  { apply Z.eqb_neq. intros Q.
    pose proof (Z.quot_rem' (Response.StatusCode res) 100) as E.
    assert (0 <= Response.StatusCode res) by lia.
    pose proof (Z.rem_bound_pos (Response.StatusCode res) 100 ltac:(lia) ltac:(lia)). lia. }
  rewrite Q, (proj2 (retryable_status _) Rt).
  destruct (afterDo_frame c method u hdr rc attempt w (DoResponse res) clock s') as (F1 & _).
  rewrite F1. unfold pause.
  replace (attempt <? retries) with true by (symmetry; apply Z.ltb_lt; exact Lt).
  reflexivity.
Qed.

End Success.

Lemma doRequest_first_success {S In Out} (rt : Runtime S In Out) (c : Client)
      (ctx : Context) (method path : string) (hdr : Header) (in_ : option In)
      (w : World S) (rc : option string) (res : Response.t) (clock : Z) (s' : S) :
  buildable rt method (BaseURL c ++ path) in_ rc ->
  RoundTrip rt ctx (outgoing c method (BaseURL c ++ path) hdr rc) (now w) (server w)
  = (DoResponse res, clock, s') ->
  Z.quot (Response.StatusCode res) 100 = 2 ->
  exists w',
    doRequest rt c ctx method path hdr in_ w = Some (Returned res, w')
    /\ requests (trace w') = requests (trace w) + 1
    /\ sleeps (trace w') = sleeps (trace w)
    /\ now w' = clock.
Proof.
  intros Hb HR H2.
  pose proof (normalizeRetries_nonneg (MaxRetries c)) as Nn.
  unfold doRequest.
  destruct (normalizeBackoff (InitialBackoff c) (MaxBackoff c)) as [backoff maxBack].
  rewrite fuel_two. cbn [doRequest_loop].
  replace (0 <=? normalizeRetries (MaxRetries c)) with true
    by (symmetry; apply Z.leb_le; exact Nn).
  set (u := BaseURL c ++ path) in *.
  rewrite (doRequest_round_eq rt c ctx method u hdr in_ _ maxBack rc 0
             backoff w _ clock s' Hb HR).
  cbv zeta. rewrite H2. simpl.
  eexists. split; [reflexivity |]. simpl.
  destruct (logRequest_frame c method u
              (applyHeaders c hdr (Request.mk method u ∅ rc)) 0 w) as (_ & _ & K3 & _).
  rewrite sleeps_logRequest. unfold requests in *. simpl. repeat split; lia.
Qed.

Lemma doJSON_first_success {S In Out} (rt : Runtime S In Out) (c : Client)
      (ctx : Context) (method path : string) (hdr : Header) (in_ : option In)
      (out : bool) (w : World S) (rc : option string)
      (res : Response.t) (clock : Z) (s' : S) (v : option Out) :
  buildable rt method (BaseURL c ++ path) in_ rc ->
  RoundTrip rt ctx (outgoing c method (BaseURL c ++ path) hdr rc) (now w) (server w)
  = (DoResponse res, clock, s') ->
  Z.quot (Response.StatusCode res) 100 = 2 ->
  decoded rt out res v ->
  exists w',
    doJSON rt c ctx method path hdr in_ out w = Some (Returned v, w')
    /\ requests (trace w') = requests (trace w) + 1
    /\ sleeps (trace w') = sleeps (trace w)
    /\ now w' = clock.
Proof.
  intros Hb HR H2 Hd.
  pose proof (normalizeRetries_nonneg (MaxRetries c)) as Nn.
  set (u := BaseURL c ++ path) in *.
  exists (afterDo c method u hdr rc 0 w (DoResponse res) clock s').
  destruct (afterDo_frame c method u hdr rc 0 w (DoResponse res) clock s')
    as (F1 & _ & F3 & _).
  split; [| split; [exact F3 | split; [apply sleeps_afterDo | exact F1]]].
  unfold doJSON.
  destruct (normalizeBackoff (InitialBackoff c) (MaxBackoff c)) as [backoff maxBack].
  rewrite fuel_two. cbn [doJSON_loop].
  replace (0 <=? normalizeRetries (MaxRetries c)) with true
    by (symmetry; apply Z.leb_le; exact Nn).
  fold u.
  rewrite (doJSON_round_success rt c ctx method u hdr in_ out _ maxBack rc 0 backoff
             w res clock s' v Hb HR H2 Hd).
  reflexivity.
Qed.

(** A 2xx status on the first response ends the call there: one request
    and no wait.  [doRequest] hands back that response, [doJSON] what it
    decodes. *)
Theorem success_ends_the_call {S In Out} (rt : Runtime S In Out) (c : Client)
        (ctx : Context) (method path : string) (hdr : Header) (in_ : option In)
        (out : bool) (w : World S) (rc : option string)
        (res : Response.t) (clock : Z) (s' : S) (v : option Out) :
  let u := BaseURL c ++ path in
  buildable rt method u in_ rc ->
  RoundTrip rt ctx (outgoing c method u hdr rc) (now w) (server w)
  = (DoResponse res, clock, s') ->
  Z.quot (Response.StatusCode res) 100 = 2 ->
  decoded rt out res v ->
  (exists w',
      doRequest rt c ctx method path hdr in_ w = Some (Returned res, w')
      /\ requests (trace w') = requests (trace w) + 1
      /\ sleeps (trace w') = sleeps (trace w)
      /\ now w' = clock)
  /\ (exists w',
         doJSON rt c ctx method path hdr in_ out w = Some (Returned v, w')
         /\ requests (trace w') = requests (trace w) + 1
         /\ sleeps (trace w') = sleeps (trace w)
         /\ now w' = clock).
Proof.
  intros u Hb HR H2 Hd. split.
  - exact (doRequest_first_success rt c ctx method path hdr in_ w rc res clock s' Hb HR H2).
  - exact (doJSON_first_success rt c ctx method path hdr in_ out w rc res clock s' v
             Hb HR H2 Hd).
Qed.

Lemma success_ends_the_call_witness :
  (exists w',
      doRequest (scripted (serving "true")) (client "k" 2 0 0) background "GET" "/t" ∅ None
        (start 0)
      = Some (Returned (Response.mk 200 ∅ "true"), w')
      /\ requests (trace w') = requests (trace (start 0)) + 1
      /\ sleeps (trace w') = sleeps (trace (start 0))
      /\ now w' = 0)
  /\ (exists w',
         doJSON (scripted (serving "true")) (client "k" 2 0 0) background "GET" "/t" ∅ None
           true (start 0)
         = Some (Returned (Some (Json.Bool true)), w')
         /\ requests (trace w') = requests (trace (start 0)) + 1
         /\ sleeps (trace w') = sleeps (trace (start 0))
         /\ now w' = 0).
Proof.
  apply (success_ends_the_call (scripted (serving "true")) (client "k" 2 0 0) background
           "GET" "/t" ∅ None true (start 0) None (Response.mk 200 ∅ "true") 0 1%nat
           (Some (Json.Bool true))).
  - split; reflexivity.
  - reflexivity.
  - reflexivity.
  - exists (Json.Bool true). split; reflexivity.
Defined.

(** A retryable answer and then a success: with a retry to spend, a first
    response of status 429 or 5xx and a service that then answers 2xx,
    [doJSON] makes two requests with one wait between them and hands
    back what it decodes from the second.  The timer of the wait is the
    jitter of the backoff as the Retry-After of the first response has
    raised it. *)
Theorem retry_then_success {S In Out} (rt : Runtime S In Out) (c : Client)
        (ctx : Context) (method path : string) (hdr : Header) (in_ : option In)
        (out : bool) (w : World S) (rc : option string)
        (r1 r2 : Response.t) (clock1 : Z) (s1 : S) (v : option Out) :
  let u := BaseURL c ++ path in
  let backoff := fst (normalizeBackoff (InitialBackoff c) (MaxBackoff c)) in
  let maxBack := snd (normalizeBackoff (InitialBackoff c) (MaxBackoff c)) in
  buildable rt method u in_ rc ->
  1 <= MaxRetries c < maxInt64 ->
  RoundTrip rt ctx (outgoing c method u hdr rc) (now w) (server w)
  = (DoResponse r1, clock1, s1) ->
  Response.StatusCode r1 = 429 \/ 500 <= Response.StatusCode r1 <= 599 ->
  (forall clock, exists clock2 s2,
      RoundTrip rt ctx (outgoing c method u hdr rc) clock s1 = (DoResponse r2, clock2, s2)) ->
  Z.quot (Response.StatusCode r2) 100 = 2 ->
  decoded rt out r2 v ->
  exists w' slept,
    doJSON rt c ctx method path hdr in_ out w = Some (Returned v, w')
    /\ requests (trace w') = requests (trace w) + 2
    /\ sleeps (trace w')
       = (jitter (raiseBackoff rt r1 clock1 backoff) maxBack (randFloat64 clock1), slept)
           :: sleeps (trace w)
    /\ lastDo (trace w') = Some (DoResponse r2).
Proof.
  intros u backoff maxBack Hb Hr HR1 Rt HR2 H2 Hd.
  subst backoff maxBack. unfold doJSON. fold u.
  destruct (normalizeBackoff (InitialBackoff c) (MaxBackoff c)) as [backoff maxBack].
  simpl fst. simpl snd.
  rewrite normalizeRetries_id by lia.
  destruct (Z.to_nat (MaxRetries c)) as [|n] eqn:En; [lia |].
  replace (Datatypes.S n + 2)%nat with (Datatypes.S (Datatypes.S (Datatypes.S n))) by lia.
  cbn [doJSON_loop].
  replace (0 <=? MaxRetries c) with true by (symmetry; apply Z.leb_le; lia).
  assert (Lt : 0 < MaxRetries c) by lia.
  rewrite (doJSON_round_retry rt c ctx method u hdr in_ out (MaxRetries c) maxBack rc 0
             backoff w r1 clock1 s1 Hb HR1 Rt Lt).
  rewrite wrap64_id by (unfold minInt64, maxInt64; lia). change (0 + 1) with 1.
  replace (1 <=? MaxRetries c) with true by (symmetry; apply Z.leb_le; lia).
  set (w1 := afterDo c method u hdr rc 0 w (DoResponse r1) clock1 s1).
  destruct (afterDo_frame c method u hdr rc 0 w (DoResponse r1) clock1 s1)
    as (F1 & F2 & F3 & _).
  fold w1 in F1, F2, F3.
  set (w2 := jitterSleep ctx (raiseBackoff rt r1 clock1 backoff) maxBack w1).
  destruct (jitterSleep_frame ctx (raiseBackoff rt r1 clock1 backoff) maxBack w1)
    as (G1 & G2 & _).
  fold w2 in G1, G2.
  destruct (HR2 (now w2)) as (clock2 & s2 & HR2').
  rewrite <- F2, <- G1 in HR2'.
  rewrite (doJSON_round_success rt c ctx method u hdr in_ out _ maxBack rc 1 _
             w2 r2 clock2 s2 v Hb HR2' H2 Hd).
  destruct (afterDo_frame c method u hdr rc 1 w2 (DoResponse r2) clock2 s2)
    as (_ & _ & K3 & K4).
  do 2 eexists. split; [reflexivity |].
  split; [lia |]. split; [| exact K4].
  rewrite sleeps_afterDo. subst w2. unfold jitterSleep. simpl.
  rewrite F1. f_equal. subst w1. apply sleeps_afterDo.
Qed.

Lemma retry_then_success_witness :
  exists w' slept,
    doJSON (scripted rateLimited) (client "k" 2 (100 * Millisecond) (200 * Millisecond))
      background "GET" "/t" ∅ None true (start 0)
    = Some (Returned (Some (Json.Bool true)), w')
    /\ requests (trace w') = requests (trace (start 0)) + 2
    /\ sleeps (trace w')
       = (jitter (raiseBackoff (scripted rateLimited) (rateLimited 0) 0
                    (fst (normalizeBackoff (100 * Millisecond) (200 * Millisecond))))
            (snd (normalizeBackoff (100 * Millisecond) (200 * Millisecond)))
            (randFloat64 0), slept)
           :: sleeps (trace (start 0))
    /\ lastDo (trace w') = Some (DoResponse (Response.mk 200 ∅ "true")).
Proof.
  apply (retry_then_success (scripted rateLimited)
           (client "k" 2 (100 * Millisecond) (200 * Millisecond)) background
           "GET" "/t" ∅ None true (start 0) None (rateLimited 0) (Response.mk 200 ∅ "true")
           0 1%nat (Some (Json.Bool true))).
  - split; reflexivity.
  - unfold maxInt64. simpl. lia.
  - reflexivity.
  - left. reflexivity.
  - intros clock. do 2 eexists. reflexivity.
  - reflexivity.
  - exists (Json.Bool true). split; reflexivity.
Defined.

(** ** Jitter and backoff *)

Lemma int64_high z : int64 z <-> z / 2 ^ 63 = 0 \/ z / 2 ^ 63 = -1.
Proof.
  unfold int64, minInt64, maxInt64.
  pose proof (Z.div_mod z (2 ^ 63) ltac:(lia)) as E.
  pose proof (Z.mod_pos_bound z (2 ^ 63) ltac:(lia)) as B.
  split; intros H; lia.
Qed.

Lemma lxor_high a b : Z.lxor a b / 2 ^ 63 = Z.lxor (a / 2 ^ 63) (b / 2 ^ 63).
Proof.
  rewrite <- !Z.shiftr_div_pow2 by lia. apply Z.shiftr_lxor.
Qed.

Lemma int64_lxor a b : int64 a -> int64 b -> int64 (Z.lxor a b).
Proof.
  rewrite !int64_high, lxor_high. intros [-> | ->] [-> | ->]; simpl; auto.
Qed.

Lemma int64_wrap64 z : int64 (wrap64 z).
Proof.
  unfold int64, wrap64, minInt64, maxInt64.
  pose proof (Z.mod_pos_bound (z + 2 ^ 63) (2 ^ 64) ltac:(lia)). lia.
Qed.

Lemma int64_shiftr z n : 0 <= n -> int64 z -> int64 (Z.shiftr z n).
Proof.
  intros Hn. unfold int64, minInt64, maxInt64. rewrite Z.shiftr_div_pow2 by lia.
  intros H.
  assert (P : 0 < 2 ^ n) by (apply Z.pow_pos_nonneg; lia).
  pose proof (Z.div_mod z (2 ^ n) ltac:(lia)) as E.
  pose proof (Z.mod_pos_bound z (2 ^ n) P) as B.
  split.
  - apply Z.div_le_lower_bound; [exact P |]. nia.
  - apply Z.lt_succ_r. apply Z.div_lt_upper_bound; [exact P |]. nia.
Qed.

Lemma wrap64_bits z i : 0 <= i < 64 -> Z.testbit (wrap64 z) i = Z.testbit z i.
Proof.
  intros Hi.
  rewrite <- (Z.mod_pow2_bits_low (wrap64 z) 64 i) by lia.
  rewrite <- (Z.mod_pow2_bits_low z 64 i) by lia.
  f_equal. unfold wrap64.
  rewrite Zminus_mod, Zmod_mod, <- Zminus_mod. f_equal. lia.
Qed.

Lemma minInt64_bits i : 0 <= i < 63 -> Z.testbit minInt64 i = false.
Proof.
  intros Hi. unfold minInt64. rewrite Z.bits_opp by lia.
  replace (Z.pred (2 ^ 63)) with (Z.ones 63) by (rewrite Z.ones_equiv; reflexivity).
  rewrite Z.ones_spec_low by lia. reflexivity.
Qed.

Lemma small_bits z i : 0 <= z < 2 ^ 63 -> 63 <= i -> Z.testbit z i = false.
Proof.
  intros Hz Hi. destruct (Z.eq_dec z 0) as [-> | Nz]; [apply Z.bits_0 |].
  apply Z.bits_above_log2; [lia |].
  assert (Z.log2 z < 63) by (apply Z.log2_lt_pow2; lia). lia.
Qed.

(** The last shift of the generator never yields the least [int64], the
    one value that [n = -n] leaves negative. *)
Lemma xorshift_not_min n2 :
  0 <= n2 < 2 ^ 63 -> Z.lxor n2 (wrap64 (Z.shiftl n2 17)) <> minInt64.
Proof.
  intros Hn E.
  assert (H : forall i, i < 63 -> Z.testbit n2 i = Z.testbit n2 (i - 17)).
  { intros i Hi. destruct (Z.neg_nonneg_cases i) as [Neg | Pos].
    - rewrite !Z.testbit_neg_r by lia. reflexivity.
    - pose proof (minInt64_bits i ltac:(lia)) as B. rewrite <- E in B.
      rewrite Z.lxor_spec, wrap64_bits in B by lia.
      rewrite Z.shiftl_spec in B by lia.
      destruct (Z.testbit n2 i), (Z.testbit n2 (i - 17)); simpl in B; congruence. }
  assert (Z0 : n2 = 0).
  { apply Z.bits_inj'. intros i Hi. rewrite Z.bits_0.
    destruct (Z.lt_ge_cases i 63) as [Lt | Ge]; [| apply small_bits; assumption].
    rewrite (H i), (H (i - 17)), (H (i - 17 - 17)), (H (i - 17 - 17 - 17)) by lia.
    apply Z.testbit_neg_r. lia. }
  subst n2. vm_compute in E. discriminate.
Qed.

Lemma randFloat64_range (clock : Z) :
  minInt64 <= clock <= maxInt64 -> 0 <= randFloat64 clock <= 999.
Proof.
  intros Hc. unfold randFloat64. cbv zeta.
  set (n1 := Z.lxor clock (wrap64 (Z.shiftl clock 13))).
  assert (I1 : int64 n1) by (apply int64_lxor; [exact Hc | apply int64_wrap64]).
  set (n2 := Z.lxor n1 (Z.shiftr n1 7)).
  assert (I2 : 0 <= n2 < 2 ^ 63).
  { assert (I : int64 n2) by (apply int64_lxor; [exact I1 | apply int64_shiftr; [lia | exact I1]]).
    assert (0 <= n2).
    { apply Z.lxor_nonneg. rewrite Z.shiftr_nonneg. tauto. }
    unfold int64, minInt64, maxInt64 in I. lia. }
  set (n3 := Z.lxor n2 (wrap64 (Z.shiftl n2 17))).
  assert (I3 : int64 n3).
  { apply int64_lxor; [| apply int64_wrap64]. unfold int64, minInt64, maxInt64. lia. }
  pose proof (xorshift_not_min n2 I2) as Nm. fold n3 in Nm.
  assert (N4 : 0 <= (if n3 <? 0 then wrap64 (- n3) else n3)).
  { destruct (Z.ltb_spec n3 0) as [Neg | Pos]; [| exact Pos].
    rewrite wrap64_id; unfold int64, minInt64, maxInt64 in *; lia. }
  pose proof (Z.rem_bound_pos _ 1000 N4 ltac:(lia)). lia.
Qed.

(** [randFloat64] returns a value in [0,1): the thousandths it is made
    of are between 0 and 999 for every reading of the clock, the least
    [int64] included, which [n = -n] would leave negative. *)
Theorem randFloat64_in_unit_interval (clock : Z) :
  minInt64 <= clock <= maxInt64 -> 0 <= randFloat64 clock <= 999.
Proof. apply randFloat64_range. Qed.


Lemma randFloat64_in_unit_interval_witness : 0 <= randFloat64 minInt64 <= 999.
Proof.
  apply (randFloat64_in_unit_interval minInt64). unfold minInt64, maxInt64. lia.
Defined.



(** [nextBackoff] doubles the backoff up to the cap; a backoff of
    [2^62] nanoseconds or more does not double: the product wraps around
    and the next backoff is negative. *)
Theorem nextBackoff_doubles_up_to_the_cap (backoff maxBack : Z) :
  0 <= backoff <= maxInt64 ->
  0 <= maxBack <= maxInt64 ->
  (backoff < 2 ^ 62 -> nextBackoff backoff maxBack = Z.min (2 * backoff) maxBack)
  /\ (2 ^ 62 <= backoff ->
      nextBackoff backoff maxBack = 2 * backoff - 2 ^ 64
      /\ nextBackoff backoff maxBack < 0).
Proof.
  unfold maxInt64. intros Hb Hm. unfold nextBackoff. cbv zeta. split.
  - intros Lt. rewrite wrap64_id by (unfold minInt64, maxInt64; lia).
    destruct (Z.ltb_spec maxBack (backoff * 2)); lia.
  - intros Ge.
    assert (W : wrap64 (backoff * 2) = 2 * backoff - 2 ^ 64).
    { unfold wrap64.
      rewrite <- (Z.mod_unique_pos (backoff * 2 + 2 ^ 63) (2 ^ 64) 1
                   (backoff * 2 + 2 ^ 63 - 2 ^ 64)); lia. }
    rewrite W. destruct (Z.ltb_spec maxBack (2 * backoff - 2 ^ 64)); lia.
Qed.

Lemma nextBackoff_doubles_up_to_the_cap_witness :
  (2 ^ 62 < 2 ^ 62 -> nextBackoff (2 ^ 62) maxInt64 = Z.min (2 * 2 ^ 62) maxInt64)
  /\ (2 ^ 62 <= 2 ^ 62 ->
      nextBackoff (2 ^ 62) maxInt64 = 2 * 2 ^ 62 - 2 ^ 64
      /\ nextBackoff (2 ^ 62) maxInt64 < 0).
Proof.
  apply (nextBackoff_doubles_up_to_the_cap (2 ^ 62) maxInt64).
  - unfold maxInt64. lia.
  - unfold maxInt64. lia.
Defined.

(** ** [strconv.Itoa] and the Retry-After header *)

Lemma digitsValue_app s t : forall a,
  digitsValue a (s ++ t) = digitsValue (digitsValue a s) t.
Proof. induction s as [|c s IH]; intros a; simpl; [reflexivity | apply IH]. Qed.

Lemma allb_app p s t : allb p (s ++ t) = allb p s && allb p t.
Proof.
  unfold allb. induction s as [|c s IH]; simpl; [reflexivity |].
  rewrite IH. apply andb_assoc.
Qed.

Lemma digit_chr d : 0 <= d <= 9 -> isDigit (chr (48 + d)) = true /\ byte (chr (48 + d)) - 48 = d.
Proof.
  intros H.
  assert (E : d = 0 \/ d = 1 \/ d = 2 \/ d = 3 \/ d = 4 \/ d = 5 \/ d = 6 \/ d = 7
              \/ d = 8 \/ d = 9) by lia.
  repeat (destruct E as [-> | E]; [split; reflexivity |]). subst d. split; reflexivity.
Qed.

Lemma append_assoc (s t r : string) : (s ++ t) ++ r = s ++ (t ++ r).
Proof.
  induction s as [|c s IH]; [reflexivity |].
  change (String c ((s ++ t) ++ r) = String c (s ++ (t ++ r))). rewrite IH. reflexivity.
Qed.

Lemma append_nil_r (s : string) : s ++ "" = s.
Proof.
  induction s as [|c s IH]; [reflexivity |].
  change (String c (s ++ "") = String c s). rewrite IH. reflexivity.
Qed.

Lemma utoa_S fuel n acc :
  utoa (Datatypes.S fuel) n acc
  = if n <? 10 then String (chr (48 + n mod 10)) acc
    else utoa fuel (n / 10) (String (chr (48 + n mod 10)) acc).
Proof. reflexivity. Qed.

Lemma utoa_digits fuel : forall n acc,
  0 <= n < 10 ^ Z.of_nat (Datatypes.S fuel) ->
  exists ds,
    utoa (Datatypes.S fuel) n acc = ds ++ acc
    /\ (0 < String.length ds)%nat
    /\ allb isDigit ds = true
    /\ digitsValue 0 ds = n.
Proof.
  induction fuel as [|fuel IH]; intros n acc Hn;
    rewrite utoa_S;
    pose proof (Z.mod_pos_bound n 10 ltac:(lia)) as Bm;
    destruct (digit_chr (n mod 10) ltac:(lia)) as [Dg Dv];
    (destruct (Z.ltb_spec n 10) as [Lt | Ge];
     [ exists (String (chr (48 + n mod 10)) ""); simpl;
       unfold allb; simpl; rewrite Dg, Dv; rewrite Z.mod_small by lia;
       repeat split; auto; lia |]).
  - change (10 ^ Z.of_nat 1) with 10 in Hn. lia.
  - destruct (IH (n / 10) (String (chr (48 + n mod 10)) acc)) as (ds & E & L & A & V).
    { rewrite Nat2Z.inj_succ, Z.pow_succ_r in Hn by lia.
      split; [apply Z.div_pos; lia |].
      apply Z.div_lt_upper_bound; lia. }
    exists (ds ++ String (chr (48 + n mod 10)) "").
    rewrite E, append_assoc. simpl. split; [reflexivity |].
    split; [rewrite length_append; lia |].
    split.
    + rewrite allb_app, A. unfold allb. simpl. rewrite Dg. reflexivity.
    + rewrite digitsValue_app, V. simpl. rewrite Dv.
      pose proof (Z.div_mod n 10 ltac:(lia)). lia.
Qed.

Lemma Atoi_digits s :
  (0 < String.length s)%nat -> allb isDigit s = true ->
  Atoi s = if (minInt64 <=? digitsValue 0 s) && (digitsValue 0 s <=? maxInt64)
           then Some (digitsValue 0 s) else None.
Proof.
  intros L A. destruct s as [|c s]; [simpl in L; lia |].
  assert (Hlen : (0 <? len (String c s)) = true).
  { unfold len. simpl String.length. apply Z.ltb_lt. lia. }
  unfold Atoi.
  destruct c as [[] [] [] [] [] [] [] []];
    try (unfold allb in A; simpl in A; discriminate);
    cbv iota; rewrite Hlen, A; reflexivity.
Qed.

Lemma Atoi_minus s :
  Atoi (String "-" s)
  = if (0 <? len s) && allb isDigit s then
      if (minInt64 <=? - digitsValue 0 s) && (- digitsValue 0 s <=? maxInt64)
      then Some (- digitsValue 0 s) else None
    else None.
Proof. reflexivity. Qed.

(** [strconv.Atoi] reads back what [strconv.Itoa] writes. *)
Lemma Atoi_Itoa n : minInt64 <= n <= maxInt64 -> Atoi (Itoa n) = Some n.
Proof.
  unfold minInt64, maxInt64. intros Hn. unfold Itoa.
  destruct (Z.ltb_spec n 0) as [Neg | Pos].
  - destruct (utoa_digits 19 (- n) "") as (ds & E & L & A & V).
    { change (10 ^ Z.of_nat 20) with 100000000000000000000. lia. }
    rewrite E, append_nil_r. rewrite Atoi_minus, A, V.
    replace (0 <? len ds) with true by (symmetry; apply Z.ltb_lt; unfold len; lia).
    simpl andb at 1. rewrite Z.opp_involutive.
    replace ((minInt64 <=? n) && (n <=? maxInt64)) with true; [reflexivity |].
    symmetry. apply andb_true_intro. unfold minInt64, maxInt64.
    split; apply Z.leb_le; lia.
  - destruct (utoa_digits 19 n "") as (ds & E & L & A & V).
    { change (10 ^ Z.of_nat 20) with 100000000000000000000. lia. }
    rewrite E, append_nil_r. rewrite (Atoi_digits ds L A), V.
    replace ((minInt64 <=? n) && (n <=? maxInt64)) with true; [reflexivity |].
    symmetry. apply andb_true_intro. unfold minInt64, maxInt64.
    split; apply Z.leb_le; lia.
Qed.

Lemma utoa_nonempty g : forall k acc, acc <> "" -> utoa g k acc <> "".
Proof.
  induction g as [|g IH]; intros k acc Ha; [exact Ha |].
  rewrite utoa_S. destruct (k <? 10); [discriminate | apply IH; discriminate].
Qed.

Lemma Itoa_nonempty n : Itoa n <> "".
Proof.
  unfold Itoa. destruct (n <? 0); [discriminate |].
  change 20%nat with (Datatypes.S 19). rewrite utoa_S.
  destruct (n <? 10); [discriminate | apply utoa_nonempty; discriminate].
Qed.

(** A Retry-After of whole seconds is that many seconds, up to the
    9223372036 that a [time.Duration] holds; and whatever the header
    says, short of a greater number of seconds, the result is not
    negative: zero for an empty value, for what is neither a number nor a
    date, and for a date that has passed. *)
Theorem parseRetryAfter_seconds (parseTime : string -> option Z) (clock : Z) :
  (forall n, 0 <= n <= 9223372036 ->
             parseRetryAfter parseTime clock (Itoa n) = n * Second)
  /\ (forall v, (forall secs, Atoi v = Some secs -> secs <= 9223372036) ->
                0 <= parseRetryAfter parseTime clock v)
  /\ parseRetryAfter parseTime clock "" = 0
  /\ (forall v t, Atoi v = None -> parseTime v = Some t -> t <= clock ->
                  parseRetryAfter parseTime clock v = 0)
  /\ (forall v, Atoi v = None -> parseTime v = None ->
                parseRetryAfter parseTime clock v = 0).
Proof.
  split; [| split; [| split; [| split]]].
  - intros n Hn. unfold parseRetryAfter.
    destruct (String.eqb_spec (Itoa n) "") as [E | _]; [destruct (Itoa_nonempty n E) |].
    rewrite Atoi_Itoa by (unfold minInt64, maxInt64; lia).
    replace (0 <=? n) with true by (symmetry; apply Z.leb_le; lia).
    apply wrap64_id. unfold minInt64, maxInt64, Second. lia.
  - intros v Hv. unfold parseRetryAfter.
    destruct (String.eqb v ""); [lia |].
    assert (D : forall o : option Z,
               0 <= match o with
                    | Some t => let d := sat64 (t - clock) in if 0 <? d then d else 0
                    | None => 0
                    end).
    { intros [t |]; [| lia]. cbv zeta. destruct (Z.ltb_spec 0 (sat64 (t - clock))); lia. }
    destruct (Atoi v) as [secs |]; [| apply D].
    destruct (Z.leb_spec 0 secs) as [Pos | Neg]; [| apply D].
    specialize (Hv secs eq_refl).
    rewrite wrap64_id; unfold minInt64, maxInt64, Second; lia.
  - reflexivity.
  - intros v t Ha Ht Le. unfold parseRetryAfter. rewrite Ha, Ht.
    destruct (String.eqb v ""); [reflexivity |]. cbv zeta.
    unfold sat64, minInt64, maxInt64.
    destruct (Z.ltb_spec (t - clock) (- 2 ^ 63)); [reflexivity |].
    destruct (Z.ltb_spec (2 ^ 63 - 1) (t - clock)); [lia |].
    destruct (Z.ltb_spec 0 (t - clock)); [lia | reflexivity].
  - intros v Ha Ht. unfold parseRetryAfter. rewrite Ha, Ht.
    destruct (String.eqb v ""); reflexivity.
Qed.

(** ** The headers of a call *)

Lemma values_Set (h : Header) key v k :
  values (Set_ h key v) k = if decide (k = CanonicalMIMEHeaderKey key) then [v] else values h k.
Proof. unfold Set_. apply values_insert. Qed.

Lemma values_Add (h : Header) key v k :
  values (Add h key v) k
  = if decide (k = CanonicalMIMEHeaderKey key)
    then (values h (CanonicalMIMEHeaderKey key) ++ [v])%list else values h k.
Proof. unfold Add. apply values_insert. Qed.

Lemma values_empty k : values (∅ : Header) k = [].
Proof. unfold values. rewrite lookup_empty. reflexivity. Qed.

Lemma values_absent (h : Header) k :
  canonicalKeys h -> CanonicalMIMEHeaderKey k <> k -> values h k = [].
Proof.
  intros Hc Hk. unfold values. destruct (h !! k) as [l |] eqn:E; [| reflexivity].
  exfalso. apply Hk. apply Hc. rewrite E. eauto.
Qed.

Lemma values_merge (dst src : Header) :
  canonicalKeys src ->
  forall k, values (mergeHeaders dst src) k = (values dst k ++ values src k)%list.
Proof.
  unfold mergeHeaders, rangeValues.
  apply (map_fold_weak_ind
           (fun r (m : Header) =>
              canonicalKeys m ->
              forall k, values r k = (values dst k ++ values m k)%list)).
  - intros _ k. rewrite values_empty, app_nil_r. reflexivity.
  - intros i x m r Hi IH Hc k.
    assert (Ci : CanonicalMIMEHeaderKey i = i).
    { apply Hc. rewrite lookup_insert_eq. eauto. }
    assert (Hm : canonicalKeys m).
    { intros j Hj. apply Hc. destruct (decide (j = i)) as [-> | Ne].
      - rewrite lookup_insert_eq. eauto.
      - rewrite lookup_insert_ne by congruence. exact Hj. }
    specialize (IH Hm).
    assert (Mi : values m i = []) by (unfold values; rewrite Hi; reflexivity).
    rewrite values_insert.
    rewrite (values_fold_Add _ (fun v => v) i x Ci) by (intros; reflexivity).
    destruct (decide (k = i)) as [-> | Ne]; [| apply IH].
    rewrite IH, Mi, app_nil_r, map_id. reflexivity.
Qed.

Lemma canonicalKeys_merge (dst src : Header) :
  canonicalKeys dst -> canonicalKeys (mergeHeaders dst src).
Proof. apply canonicalKeys_range. Qed.

Lemma canonicalKeys_authHeaders c : canonicalKeys (authHeaders c).
Proof.
  unfold authHeaders.
  destruct (String.eqb (APIKey c) ""), (String.eqb (HolderID c) ""),
    (String.eqb (ProjectName c) "");
    repeat apply canonicalKeys_Set; apply canonicalKeys_empty.
Qed.

Lemma keepsCanonical_WithIdempotencyKey k : keepsCanonical (Stream.WithIdempotencyKey k).
Proof. intros h. apply canonicalKeys_Set. Qed.

Lemma keepsCanonical_WithHeader key v : keepsCanonical (Stream.WithHeader key v).
Proof. intros h. apply canonicalKeys_Add. Qed.

Lemma canonicalKeys_options opts : forall h,
  Forall keepsCanonical opts -> canonicalKeys h ->
  canonicalKeys (fold_left (fun co o => o co) opts h).
Proof.
  induction opts as [|o opts IH]; intros h Ho Hh; simpl; [exact Hh |].
  inversion Ho; subst. apply IH; auto.
Qed.

Lemma values_buildHeaders opts k :
  Forall keepsCanonical opts ->
  values (Stream.buildHeaders ∅ opts) k = values (fold_left (fun co o => o co) opts ∅) k.
Proof.
  intros Ho. unfold Stream.buildHeaders.
  rewrite values_merge by (apply canonicalKeys_options; [exact Ho | apply canonicalKeys_empty]).
  rewrite values_empty. reflexivity.
Qed.

Lemma canonicalKeys_buildHeaders opts : canonicalKeys (Stream.buildHeaders ∅ opts).
Proof. unfold Stream.buildHeaders. apply canonicalKeys_merge, canonicalKeys_empty. Qed.

Lemma values_authHeaders c k :
  values (authHeaders c) k
  = if decide (k = "X-Api-Key") then (if String.eqb (APIKey c) "" then [] else [APIKey c])
    else if decide (k = "X-Holder-Id")
         then (if String.eqb (HolderID c) "" then [] else [HolderID c])
    else if decide (k = "X-Project-Name")
         then (if String.eqb (ProjectName c) "" then [] else [ProjectName c])
    else [].
Proof.
  unfold authHeaders.
  change (CanonicalMIMEHeaderKey "x-api-key") with "X-Api-Key".
  destruct (String.eqb (APIKey c) ""), (String.eqb (HolderID c) ""),
    (String.eqb (ProjectName c) "");
    rewrite ?values_Set, ?values_empty;
    change (CanonicalMIMEHeaderKey "x-api-key") with "X-Api-Key";
    change (CanonicalMIMEHeaderKey "x-holder-id") with "X-Holder-Id";
    change (CanonicalMIMEHeaderKey "x-project-name") with "X-Project-Name";
    repeat (destruct (decide _) as [-> | ?]; try discriminate; try reflexivity).
Qed.

Lemma Get_values (h : Header) k :
  Get h k = match values h (CanonicalMIMEHeaderKey k) with v :: _ => v | [] => "" end.
Proof. reflexivity. Qed.

Lemma eqb_empty s : (if String.eqb s "" then [] else [s]) = [] -> s = "".
Proof. destruct (String.eqb_spec s ""); [auto | discriminate]. Qed.

(** [authHeaders] carries the three fields of the configuration under
    their header names, whatever the case the name is asked in; an empty
    field sets no header, and no other header is set. *)
Theorem authHeaders_carries_the_configuration (c : Client) :
  (forall k, CanonicalMIMEHeaderKey k = "X-Api-Key" -> Get (authHeaders c) k = APIKey c)
  /\ (forall k, CanonicalMIMEHeaderKey k = "X-Holder-Id" -> Get (authHeaders c) k = HolderID c)
  /\ (forall k, CanonicalMIMEHeaderKey k = "X-Project-Name" ->
                Get (authHeaders c) k = ProjectName c)
  /\ (forall k, values (authHeaders c) k <> [] ->
                (k = "X-Api-Key" /\ values (authHeaders c) k = [APIKey c] /\ APIKey c <> "")
                \/ (k = "X-Holder-Id" /\ values (authHeaders c) k = [HolderID c]
                    /\ HolderID c <> "")
                \/ (k = "X-Project-Name" /\ values (authHeaders c) k = [ProjectName c]
                    /\ ProjectName c <> "")).
Proof.
  repeat split.
  - intros k Hk. rewrite Get_values, Hk, values_authHeaders. simpl.
    destruct (String.eqb_spec (APIKey c) ""); congruence.
  - intros k Hk. rewrite Get_values, Hk, values_authHeaders. simpl.
    destruct (String.eqb_spec (HolderID c) ""); congruence.
  - intros k Hk. rewrite Get_values, Hk, values_authHeaders. simpl.
    destruct (String.eqb_spec (ProjectName c) ""); congruence.
  - intros k. rewrite values_authHeaders.
    destruct (decide (k = "X-Api-Key")) as [-> | ?].
    { destruct (String.eqb_spec (APIKey c) ""); [congruence | auto]. }
    destruct (decide (k = "X-Holder-Id")) as [-> | ?].
    { destruct (String.eqb_spec (HolderID c) ""); [congruence | auto]. }
    destruct (decide (k = "X-Project-Name")) as [-> | ?]; [| congruence].
    destruct (String.eqb_spec (ProjectName c) ""); [congruence | auto 6].
Qed.

(** [mergeHeaders] appends: under every key the values of [dst] come
    first and in their order, then those of [src] - nothing of [dst] is
    replaced or dropped, so [Get] still answers from [dst] where [dst]
    has a value. *)
Theorem mergeHeaders_appends (dst src : Header) :
  canonicalKeys src ->
  (forall k, values (mergeHeaders dst src) k = (values dst k ++ values src k)%list)
  /\ (forall k, values dst (CanonicalMIMEHeaderKey k) <> [] ->
                Get (mergeHeaders dst src) k = Get dst k).
Proof.
  intros Hc. split; [apply values_merge; exact Hc |].
  intros k Hk. rewrite !Get_values, values_merge by exact Hc.
  destruct (values dst (CanonicalMIMEHeaderKey k)); [congruence | reflexivity].
Qed.

Lemma mergeHeaders_appends_witness :
  (forall k, values (mergeHeaders (authHeaders (client "k" 0 0 0))
                       (Stream.buildHeaders ∅ [Stream.WithHeader "x-api-key" "other"])) k
             = (values (authHeaders (client "k" 0 0 0)) k
                  ++ values (Stream.buildHeaders ∅ [Stream.WithHeader "x-api-key" "other"]) k)%list)
  /\ (forall k, values (authHeaders (client "k" 0 0 0)) (CanonicalMIMEHeaderKey k) <> [] ->
                Get (mergeHeaders (authHeaders (client "k" 0 0 0))
                       (Stream.buildHeaders ∅ [Stream.WithHeader "x-api-key" "other"])) k
                = Get (authHeaders (client "k" 0 0 0)) k).
Proof.
  apply (mergeHeaders_appends (authHeaders (client "k" 0 0 0))
           (Stream.buildHeaders ∅ [Stream.WithHeader "x-api-key" "other"])).
  apply canonicalKeys_buildHeaders.
Defined.

Lemma fold_options_app (opts : list Stream.CallOption) o (h : Header) :
  fold_left (fun co o => o co) (opts ++ [o]) h = o (fold_left (fun co o => o co) opts h).
Proof. rewrite fold_left_app. reflexivity. Qed.

Lemma Forall_keeps_app opts o :
  Forall keepsCanonical opts -> keepsCanonical o -> Forall keepsCanonical (opts ++ [o]).
Proof. intros H1 H2. apply Forall_app. split; [exact H1 | constructor; [exact H2 | constructor]]. Qed.

(** How call options compose: an idempotency key replaces what the
    options before it have put under that header, so the last one wins;
    [Stream.WithHeader] adds its value after those already there and leaves the
    other headers alone. *)
Theorem call_options_compose (opts : list Stream.CallOption) (k key v : string) :
  Forall keepsCanonical opts ->
  values (Stream.buildHeaders ∅ (opts ++ [Stream.WithIdempotencyKey k])) "X-Idempotency-Key" = [k]
  /\ values (Stream.buildHeaders ∅ (opts ++ [Stream.WithHeader key v])) (CanonicalMIMEHeaderKey key)
     = (values (Stream.buildHeaders ∅ opts) (CanonicalMIMEHeaderKey key) ++ [v])%list
  /\ (forall k', k' <> CanonicalMIMEHeaderKey key ->
                 values (Stream.buildHeaders ∅ (opts ++ [Stream.WithHeader key v])) k'
                 = values (Stream.buildHeaders ∅ opts) k').
Proof.
  intros Ho.
  pose proof (Forall_keeps_app opts _ Ho (keepsCanonical_WithIdempotencyKey k)) as H1.
  pose proof (Forall_keeps_app opts _ Ho (keepsCanonical_WithHeader key v)) as H2.
  repeat split.
  - rewrite values_buildHeaders, fold_options_app by exact H1.
    unfold Stream.WithIdempotencyKey. rewrite values_Set.
    change (CanonicalMIMEHeaderKey "x-idempotency-key") with "X-Idempotency-Key".
    destruct (decide _); [reflexivity | congruence].
  - rewrite !values_buildHeaders, fold_options_app by assumption.
    unfold Stream.WithHeader. rewrite values_Add.
    destruct (decide _); [reflexivity | congruence].
  - intros k' Hk. rewrite !values_buildHeaders, fold_options_app by assumption.
    unfold Stream.WithHeader. rewrite values_Add.
    destruct (decide _); [congruence | reflexivity].
Qed.

Lemma call_options_compose_witness :
  values (Stream.buildHeaders ∅ ([Stream.WithIdempotencyKey "first"]
                                   ++ [Stream.WithIdempotencyKey "second"]))
    "X-Idempotency-Key" = ["second"]
  /\ values (Stream.buildHeaders ∅ ([Stream.WithIdempotencyKey "first"]
                                      ++ [Stream.WithHeader "x-trace" "t"]))
       (CanonicalMIMEHeaderKey "x-trace")
     = (values (Stream.buildHeaders ∅ [Stream.WithIdempotencyKey "first"])
          (CanonicalMIMEHeaderKey "x-trace") ++ ["t"])%list
  /\ (forall k', k' <> CanonicalMIMEHeaderKey "x-trace" ->
                 values (Stream.buildHeaders ∅ ([Stream.WithIdempotencyKey "first"]
                                                  ++ [Stream.WithHeader "x-trace" "t"])) k'
                 = values (Stream.buildHeaders ∅ [Stream.WithIdempotencyKey "first"]) k').
Proof.
  apply (call_options_compose [Stream.WithIdempotencyKey "first"] "second" "x-trace" "t").
  constructor; [apply keepsCanonical_WithIdempotencyKey | constructor].
Defined.

Lemma values_callHeaders c opts k :
  values (callHeaders c opts) k = (values (authHeaders c) k ++ values (Stream.buildHeaders ∅ opts) k)%list.
Proof. unfold callHeaders. apply values_merge, canonicalKeys_buildHeaders. Qed.

Lemma values_callHeaders_key c opts :
  APIKey c <> "" ->
  values (callHeaders c opts) "X-Api-Key"
  = (APIKey c :: values (Stream.buildHeaders ∅ opts) "X-Api-Key").
Proof.
  intros Hk. rewrite values_callHeaders, values_authHeaders. simpl.
  destruct (String.eqb_spec (APIKey c) ""); [congruence | reflexivity].
Qed.

(** No call option takes the place of the client's credentials: in the
    headers of a call the API key of the client, when it has one, is the
    first value under its name, which is the one [Get] gives; what the
    options put under that name comes after it. *)
Theorem options_do_not_displace_the_key (c : Client) (opts : list Stream.CallOption) :
  APIKey c <> "" ->
  values (callHeaders c opts) "X-Api-Key"
  = (APIKey c :: values (Stream.buildHeaders ∅ opts) "X-Api-Key")
  /\ Get (callHeaders c opts) "x-api-key" = APIKey c.
Proof.
  intros Hk.
  pose proof (values_callHeaders_key c opts Hk) as E.
  split; [exact E |]. rewrite Get_values.
  change (CanonicalMIMEHeaderKey "x-api-key") with "X-Api-Key". rewrite E. reflexivity.
Qed.

Lemma options_do_not_displace_the_key_witness :
  values (callHeaders (client "k" 0 0 0) [Stream.WithHeader "x-api-key" "other"]) "X-Api-Key"
  = (APIKey (client "k" 0 0 0)
       :: values (Stream.buildHeaders ∅ [Stream.WithHeader "x-api-key" "other"]) "X-Api-Key")
  /\ Get (callHeaders (client "k" 0 0 0) [Stream.WithHeader "x-api-key" "other"]) "x-api-key"
     = APIKey (client "k" 0 0 0).
Proof.
  apply (options_do_not_displace_the_key (client "k" 0 0 0)
           [Stream.WithHeader "x-api-key" "other"]).
  simpl. discriminate.
Defined.

Lemma redactValue_ends k k' :
  8 < len k -> 8 < len k' ->
  substring 0 4 k = substring 0 4 k' ->
  substring (String.length k - 4) 4 k = substring (String.length k' - 4) 4 k' ->
  redactValue k = redactValue k'.
Proof.
  intros L L' P Q. unfold redactValue.
  replace (8 <? len k) with true by (symmetry; apply Z.ltb_lt; exact L).
  replace (8 <? len k') with true by (symmetry; apply Z.ltb_lt; exact L').
  rewrite P, Q. reflexivity.
Qed.

Lemma canonicalKeys_applyHeaders c hdr req :
  Request.Header req = ∅ ->
  canonicalKeys (Request.Header (applyHeaders c hdr req)).
Proof.
  intros E. unfold applyHeaders. simpl. rewrite E. apply canonicalKeys_range.
  destruct (String.eqb (UserAgent c) "");
    repeat apply canonicalKeys_Set; apply canonicalKeys_empty.
Qed.

Lemma values_applyHeaders c hdr req k :
  canonicalKeys hdr ->
  values (Request.Header (applyHeaders c hdr req)) k
  = (values (let h := Set_ (Request.Header req) "Content-Type" "application/json" in
             if String.eqb (UserAgent c) "" then h else Set_ h "User-Agent" (UserAgent c)) k
       ++ values hdr k)%list.
Proof. intros Hc. unfold applyHeaders. simpl. apply (values_merge _ hdr Hc). Qed.

Lemma canonicalKeys_callHeaders c opts : canonicalKeys (callHeaders c opts).
Proof. apply canonicalKeys_merge, canonicalKeys_authHeaders. Qed.

(** What the Logger is given does not depend on the middle of the key:
    two clients that differ only in their API keys, both longer than eight
    bytes and with the same first four and last four bytes, log the same
    header values for the same call. *)
Theorem log_hides_the_middle_of_the_key (c : Client) (opts : list Stream.CallOption)
        (method u : string) (rc : option string) (k k' : string) :
  8 < len k -> 8 < len k' ->
  substring 0 4 k = substring 0 4 k' ->
  substring (String.length k - 4) 4 k = substring (String.length k' - 4) 4 k' ->
  forall key,
    values (redactHeaders
              (Request.Header
                 (applyHeaders (Options.WithAPIKey k c) (callHeaders (Options.WithAPIKey k c) opts)
                    (Request.mk method u ∅ rc)))) key
    = values (redactHeaders
                (Request.Header
                   (applyHeaders (Options.WithAPIKey k' c)
                      (callHeaders (Options.WithAPIKey k' c) opts)
                      (Request.mk method u ∅ rc)))) key.
Proof.
  intros L L' P Q key.
  rewrite !redactHeaders_values by (apply canonicalKeys_applyHeaders; reflexivity).
  rewrite !values_applyHeaders by apply canonicalKeys_callHeaders.
  rewrite !values_callHeaders, !values_authHeaders.
  unfold Options.WithAPIKey.
  cbn [Request.Header APIKey HolderID ProjectName UserAgent].
  assert (Nk : forall s, 8 < len s -> String.eqb s "" = false).
  { intros s Hs. destruct (String.eqb_spec s ""); [subst; vm_compute in Hs; discriminate | reflexivity]. }
  rewrite (Nk k L), (Nk k' L').
  destruct (decide (key = "X-Api-Key")) as [-> | Ne]; [| reflexivity].
  replace (EqualFold "X-Api-Key" "x-api-key") with true by (vm_compute; reflexivity).
  rewrite !map_app. cbn [map]. rewrite (redactValue_ends k k' L L' P Q). reflexivity.
Qed.

Lemma log_hides_the_middle_of_the_key_witness :
  values (redactHeaders
            (Request.Header
               (applyHeaders (Options.WithAPIKey "sk_live_0123456789" (client "" 0 0 0))
                  (callHeaders (Options.WithAPIKey "sk_live_0123456789" (client "" 0 0 0)) [])
                  (Request.mk "GET" "/t" ∅ None)))) "X-Api-Key"
  = values (redactHeaders
              (Request.Header
                 (applyHeaders (Options.WithAPIKey "sk_later_and_longer_456789" (client "" 0 0 0))
                    (callHeaders (Options.WithAPIKey "sk_later_and_longer_456789"
                                    (client "" 0 0 0)) [])
                    (Request.mk "GET" "/t" ∅ None)))) "X-Api-Key".
Proof.
  apply (log_hides_the_middle_of_the_key (client "" 0 0 0) [] "GET" "/t" None
           "sk_live_0123456789" "sk_later_and_longer_456789").
  - reflexivity.
  - reflexivity.
  - reflexivity.
  - reflexivity.
Defined.

(** ** Options and defaults *)

Lemma append_empty_r (s t : string) : s ++ t = "" -> t = "".
Proof. destruct s; [auto | discriminate]. Qed.

Lemma trimRightByte_cons a rest c :
  trimRightByte (String a rest) c
  = match trimRightByte rest c with
    | EmptyString => if Ascii.eqb a c then EmptyString else String a EmptyString
    | kept => String a kept
    end.
Proof. reflexivity. Qed.

Lemma trimRightByte_decomp s c :
  exists n, s = trimRightByte s c ++ string_of_list_ascii (repeat c n).
Proof.
  induction s as [|a rest [n IH]]; [exists 0%nat; reflexivity |].
  rewrite trimRightByte_cons.
  destruct (trimRightByte rest c) as [|b kept] eqn:E.
  - destruct (Ascii.eqb_spec a c) as [-> | Ne].
    + exists (Datatypes.S n). rewrite IH at 1. reflexivity.
    + exists n. rewrite IH at 1. reflexivity.
  - exists n. rewrite IH at 1. reflexivity.
Qed.

Lemma trimRightByte_no_trailing s c :
  forall t, trimRightByte s c <> t ++ String c "".
Proof.
  induction s as [|a rest IH]; intros t H.
  - destruct t; discriminate.
  - rewrite trimRightByte_cons in H.
    destruct (trimRightByte rest c) as [|b kept] eqn:E.
    + destruct (Ascii.eqb_spec a c) as [-> | Ne]; [destruct t; discriminate |].
      destruct t as [|a' t'].
      * change (String a "" = String c "") in H. congruence.
      * change (String a "" = String a' (t' ++ String c "")) in H.
        injection H as _ H2. destruct t'; discriminate.
    + destruct t as [|a' t'].
      * change (String a (String b kept) = String c "") in H. discriminate.
      * change (String a (String b kept) = String a' (t' ++ String c "")) in H.
        injection H as _ H2. exact (IH t' H2).
Qed.

Lemma trimRightByte_fixed s c :
  (forall t, s <> t ++ String c "") -> trimRightByte s c = s.
Proof.
  induction s as [|a rest IH]; intros H; [reflexivity |].
  rewrite trimRightByte_cons. rewrite IH.
  - destruct rest as [|b rest']; [| reflexivity].
    destruct (Ascii.eqb_spec a c) as [-> | Ne]; [| reflexivity].
    exfalso. exact (H "" eq_refl).
  - intros t Ht. apply (H (String a t)).
    change (String a rest = String a (t ++ String c "")). rewrite <- Ht. reflexivity.
Qed.

(** [WithBaseURL] keeps the base without the slashes at its end: what
    it stores is the given URL less a run of slashes, does not end in a
    slash, and is stored as it is when given again. *)
Theorem WithBaseURL_drops_trailing_slashes (u : string) (c : Client) :
  (exists n, u = BaseURL (WithBaseURL u c) ++ string_of_list_ascii (repeat "/"%char n))
  /\ (forall t, BaseURL (WithBaseURL u c) <> t ++ "/")
  /\ (forall c', BaseURL (WithBaseURL (BaseURL (WithBaseURL u c)) c')
                 = BaseURL (WithBaseURL u c)).
Proof.
  unfold WithBaseURL. simpl. split; [apply trimRightByte_decomp |].
  split; [apply trimRightByte_no_trailing |].
  intros _. apply trimRightByte_fixed, trimRightByte_no_trailing.
Qed.

(** A client that [New] builds from options that set the base through
    [WithBaseURL] or leave it alone, as those of the package do, has a
    base that does not end in a slash. *)
Theorem New_base_has_no_trailing_slash (opts : list Option_) :
  Forall (fun o => (exists u, o = WithBaseURL u) \/ forall c, BaseURL (o c) = BaseURL c) opts ->
  forall t, BaseURL (New opts) <> t ++ "/".
Proof.
  unfold New.
  assert (G : forall c, (forall t, BaseURL c <> t ++ "/") ->
              Forall (fun o => (exists u, o = WithBaseURL u)
                               \/ forall c, BaseURL (o c) = BaseURL c) opts ->
              forall t, BaseURL (fold_left (fun c f => f c) opts c) <> t ++ "/").
  { induction opts as [|o opts IH]; intros c Hc Ho; [exact Hc |].
    inversion Ho as [| ? ? [[u ->] | Keep] Hrest]; subst; simpl; apply IH; auto.
    - apply trimRightByte_no_trailing.
    - rewrite Keep. exact Hc. }
  intros Ho. apply G; [| exact Ho].
  intros t H. simpl in H.
  pose proof (f_equal String.length H) as L. rewrite length_append in L. simpl in L.
  assert (E : t = "https://warlot-api.onrender.co").
  { clear L. revert H.
    repeat (destruct t as [|? t]; [discriminate |]; simpl; intros H; inversion H; subst; clear H;
            match goal with | H : _ = _ |- _ => revert H | _ => idtac end).
    all: try discriminate. }
  subst t. discriminate.
Qed.

Lemma New_base_has_no_trailing_slash_witness :
  BaseURL (New [WithBaseURL "https://db.example//"; WithAPIKey "k"]) = "https://db.example"
  /\ forall t, BaseURL (New [WithBaseURL "https://db.example//"; WithAPIKey "k"]) <> t ++ "/".
Proof.
  split; [reflexivity |].
  apply (New_base_has_no_trailing_slash [WithBaseURL "https://db.example//"; WithAPIKey "k"]).
  constructor; [left; eexists; reflexivity |].
  constructor; [right; intros c; reflexivity | constructor].
Defined.

(** The numbers that the CLI reads from the environment: the default
    stands for a variable that is empty or is no number; any other text
    gives its number, a negative one included, and milliseconds are
    turned into a duration. *)
Theorem environment_numbers (d : Z) :
  atoiDefault "" d = d
  /\ durMsDefault "" d = d
  /\ (forall s, Atoi s = None -> atoiDefault s d = d /\ durMsDefault s d = d)
  /\ (forall n, minInt64 <= n <= maxInt64 -> atoiDefault (Itoa n) d = n)
  /\ (forall n, - 9223372036854 <= n <= 9223372036854 ->
                durMsDefault (Itoa n) d = n * Millisecond).
Proof.
  split; [reflexivity |]. split; [reflexivity |]. split; [| split].
  - intros s Hs. unfold atoiDefault, durMsDefault. rewrite Hs.
    destruct (String.eqb s ""); auto.
  - intros n Hn. unfold atoiDefault.
    destruct (String.eqb_spec (Itoa n) "") as [E | _]; [destruct (Itoa_nonempty n E) |].
    rewrite Atoi_Itoa by exact Hn. reflexivity.
  - intros n Hn. unfold durMsDefault.
    destruct (String.eqb_spec (Itoa n) "") as [E | _]; [destruct (Itoa_nonempty n E) |].
    rewrite Atoi_Itoa by (unfold minInt64, maxInt64; lia).
    apply wrap64_id. unfold minInt64, maxInt64, Millisecond. lia.
Qed.

(** ** The path of a page *)

Lemma QueryEscape_digits s : allb isDigit s = true -> Url.QueryEscape s = s.
Proof.
  unfold allb. induction s as [|c s IH]; [reflexivity |]. simpl.
  intros H. apply andb_prop in H as [Hc Hs].
  assert (E : Url.shouldEscapeQuery c = false).
  { unfold Url.shouldEscapeQuery. rewrite Hc. rewrite orb_true_r. reflexivity. }
  rewrite E, IH by exact Hs. reflexivity.
Qed.

Lemma Itoa_digits n :
  0 < n <= maxInt64 -> allb isDigit (Itoa n) = true /\ Itoa n <> "".
Proof.
  unfold maxInt64. intros Hn. unfold Itoa.
  replace (n <? 0) with false by (symmetry; apply Z.ltb_ge; lia).
  destruct (utoa_digits 19 n "") as (ds & E & L & A & V).
  { change (10 ^ Z.of_nat 20) with 100000000000000000000. lia. }
  rewrite E, append_nil_r. split; [exact A |].
  destruct ds; [simpl in L; lia | discriminate].
Qed.

Lemma Encode_limit_offset (sl so : string) :
  Url.QueryEscape sl = sl -> Url.QueryEscape so = so ->
  Url.Encode ∅ = ""
  /\ Url.Encode (Url.Set_ ∅ "limit" sl) = "limit=" ++ sl
  /\ Url.Encode (Url.Set_ ∅ "offset" so) = "offset=" ++ so
  /\ Url.Encode (Url.Set_ (Url.Set_ ∅ "limit" sl) "offset" so)
     = "limit=" ++ sl ++ "&offset=" ++ so.
Proof.
  intros El Eo. unfold Url.Encode, Url.Set_.
  repeat split.
  - replace (Url.sortedKeys (<["limit" := [sl]]> ∅)) with ["limit"] by (vm_compute; reflexivity).
    simpl. rewrite lookup_insert_eq. simpl. rewrite El. reflexivity.
  - replace (Url.sortedKeys (<["offset" := [so]]> ∅)) with ["offset"] by (vm_compute; reflexivity).
    simpl. rewrite lookup_insert_eq. simpl. rewrite Eo. reflexivity.
  - replace (Url.sortedKeys (<["offset" := [so]]> (<["limit" := [sl]]> ∅)))
      with ["limit"; "offset"] by (vm_compute; reflexivity).
    simpl. rewrite lookup_insert_eq, lookup_insert_ne by discriminate.
    rewrite lookup_insert_eq. simpl.
    rewrite El, Eo.
    change (String.eqb ("limit=" ++ sl) "") with false. cbv iota.
    rewrite !append_assoc. reflexivity.
Qed.

(** [BrowseRows] asks for a page under the path of the table's rows; a
    limit or an offset that is not positive is left out of the query, so
    the first page carries no offset; with both, the limit comes first. *)
Theorem BrowseRows_path (escape : string -> string) (projectID table : string)
        (limit offset : Z) :
  limit <= maxInt64 -> offset <= maxInt64 ->
  browsePath escape projectID table limit offset
  = ("/warlotSql/projects/" ++ escape projectID ++ "/tables/" ++ escape table ++ "/rows")
      ++ (if 0 <? limit
          then if 0 <? offset
               then "?limit=" ++ Itoa limit ++ "&offset=" ++ Itoa offset
               else "?limit=" ++ Itoa limit
          else if 0 <? offset then "?offset=" ++ Itoa offset else "").
Proof.
  intros Hl Ho. unfold browsePath. cbv zeta.
  set (base := "/warlotSql/projects/" ++ escape projectID ++ "/tables/" ++ escape table ++ "/rows").
  destruct (Z.ltb_spec 0 limit) as [Pl | Nl], (Z.ltb_spec 0 offset) as [Po | No].
  - destruct (Itoa_digits limit ltac:(lia)) as [Dl _].
    destruct (Itoa_digits offset ltac:(lia)) as [Do _].
    destruct (Encode_limit_offset _ _ (QueryEscape_digits _ Dl) (QueryEscape_digits _ Do))
      as (_ & _ & _ & E).
    rewrite E. reflexivity.
  - destruct (Itoa_digits limit ltac:(lia)) as [Dl _].
    destruct (Encode_limit_offset _ _ (QueryEscape_digits _ Dl) (QueryEscape_digits _ Dl))
      as (_ & E & _ & _).
    rewrite E. reflexivity.
  - destruct (Itoa_digits offset ltac:(lia)) as [Do _].
    destruct (Encode_limit_offset _ _ (QueryEscape_digits _ Do) (QueryEscape_digits _ Do))
      as (_ & _ & E & _).
    rewrite E. reflexivity.
  - change (Url.Encode ∅) with "". simpl. rewrite append_nil_r. reflexivity.
Qed.

Lemma BrowseRows_path_witness :
  browsePath id "p" "t" 2 4 = "/warlotSql/projects/p/tables/t/rows?limit=2&offset=4"
  /\ browsePath id "p" "t" 2 0 = "/warlotSql/projects/p/tables/t/rows?limit=2".
Proof.
  split.
  - apply (BrowseRows_path id "p" "t" 2 4); unfold maxInt64; lia.
  - apply (BrowseRows_path id "p" "t" 2 0); unfold maxInt64; lia.
Defined.

(** ** The requests of a call *)

Section Sent.
Context {S In Out : Type} (rt : Runtime S In Out).
Variables (c : Client) (ctx : Context) (method u : string) (hdr : Header)
          (in_ : option In) (out : bool) (retries maxBack : Z).

Lemma sent_afterDo rc attempt (w : World S) res clock s' :
  sent (trace (afterDo c method u hdr rc attempt w res clock s'))
  = outgoing c method u hdr rc :: sent (trace w).
Proof.
  unfold afterDo.
  rewrite (proj2 (observed_afterHooks _ _ _)), (proj2 (observed_logResponse _ _ _ _ _ _)).
  simpl. unfold logRequest. destruct (Logger c); reflexivity.
Qed.

Lemma doJSON_round_sent rc attempt backoff (w : World S) f w' :
  buildable rt method u in_ rc ->
  doJSON_round rt c ctx method u hdr in_ out retries maxBack attempt backoff w = (f, w') ->
  sent (trace w') = outgoing c method u hdr rc :: sent (trace w).
Proof.
  intros Hb.
  destruct (RoundTrip rt ctx (outgoing c method u hdr rc) (now w) (server w))
    as [[res clock] s'] eqn:HR.
  rewrite (doJSON_round_eq rt c ctx method u hdr in_ out retries maxBack rc attempt
             backoff w res clock s' Hb HR).
  cbv zeta.
  pose proof (sent_afterDo rc attempt w res clock s') as SA.
  assert (HP : forall b le,
             pause (A := option Out) ctx retries maxBack attempt b le
               (afterDo c method u hdr rc attempt w res clock s') = (f, w') ->
             sent (trace w') = outgoing c method u hdr rc :: sent (trace w)).
  { intros b le H. apply observed_pause in H as [_ ->]. exact SA. }
  assert (HRt : forall r : Outcome (option Out),
             (Return r, afterDo c method u hdr rc attempt w res clock s') = (f, w') ->
             sent (trace w') = outgoing c method u hdr rc :: sent (trace w)).
  { intros r H. inversion H; subst. exact SA. }
  destruct res as [e | r].
  - apply HP.
  - destruct (Z.quot (Response.StatusCode r) 100 =? 2).
    + destruct (out && (0 <? len (Response.Body r))).
      * destruct (Unmarshal rt (Response.Body r)); [apply HRt | apply HP].
      * apply HRt.
    + destruct ((Response.StatusCode r =? 429) || (Z.quot (Response.StatusCode r) 100 =? 5));
        [apply HP | apply HRt].
Qed.

Lemma doJSON_loop_sent rc fuel :
  buildable rt method u in_ rc ->
  forall attempt backoff le (w : World S) r w',
    doJSON_loop rt fuel c ctx method u hdr in_ out retries maxBack attempt backoff le w
    = Some (r, w') ->
    exists n, sent (trace w') = (repeat (outgoing c method u hdr rc) n ++ sent (trace w))%list.
Proof.
  intros Hb.
  induction fuel as [|fuel IH]; intros attempt backoff le w r w' H; [discriminate |].
  simpl in H. destruct (attempt <=? retries).
  - destruct (doJSON_round rt c ctx method u hdr in_ out retries maxBack attempt backoff w)
      as [f w1] eqn:E.
    apply (doJSON_round_sent rc) in E; auto.
    destruct f as [r1 | le1 b1].
    + inversion H; subst. exists 1%nat. exact E.
    + apply IH in H. destruct H as (n & F).
      exists (n + 1)%nat. rewrite F, E, repeat_app, <- app_assoc. reflexivity.
  - inversion H; subst. exists 0%nat. reflexivity.
Qed.

End Sent.

Lemma doJSON_sent {S In Out} (rt : Runtime S In Out) (c : Client)
      (ctx : Context) (method path : string) (hdr : Header) (in_ : option In)
      (out : bool) (w : World S) r w' :
  doJSON rt c ctx method path hdr in_ out w = Some (r, w') ->
  exists n rc,
    sent (trace w')
    = (repeat (outgoing c method (BaseURL c ++ path) hdr rc) n ++ sent (trace w))%list
    /\ (n = 0%nat \/ makeBody rt in_ = Returned rc).
Proof.
  intros H.
  destruct (makeBody rt in_) as [rc | e] eqn:Hm.
  - destruct (ValidRequest rt method (BaseURL c ++ path)) eqn:Hv.
    + revert H. unfold doJSON.
      destruct (normalizeBackoff (InitialBackoff c) (MaxBackoff c)) as [backoff maxBack].
      intros H.
      apply (doJSON_loop_sent rt c ctx method (BaseURL c ++ path) hdr in_ out _ _ rc) in H;
        [| split; assumption].
      destruct H as (n & E). exists n, rc. auto.
    + rewrite (doJSON_unbuilt rt c ctx method path hdr in_ out w
                 (ErrNewRequest method (BaseURL c ++ path))) in H
        by (right; eauto).
      inversion H; subst. exists 0%nat, None. auto.
  - rewrite (doJSON_unbuilt rt c ctx method path hdr in_ out w e) in H by (left; exact Hm).
    inversion H; subst. exists 0%nat, None. auto.
Qed.

Lemma values_base c k :
  k <> "Content-Type" -> k <> "User-Agent" ->
  values (let h := Set_ ∅ "Content-Type" "application/json" in
          if String.eqb (UserAgent c) "" then h else Set_ h "User-Agent" (UserAgent c)) k = [].
Proof.
  intros N1 N2. cbv zeta.
  destruct (String.eqb (UserAgent c) ""); rewrite ?values_Set, ?values_empty;
    change (CanonicalMIMEHeaderKey "Content-Type") with "Content-Type";
    change (CanonicalMIMEHeaderKey "User-Agent") with "User-Agent";
    repeat (destruct (decide _); try congruence).
Qed.

(** [ResolveProject] sends nothing of the client's credentials: each of
    its requests is a POST to the resolve path whose headers hold, under
    the names of the API key, the holder and the project, what the call
    options have put there and no more - nothing at all without
    options, whatever the client is configured with. *)
Theorem ResolveProject_sends_no_credentials {S}
        (rt : Runtime S ResolveProjectRequest ResolveProjectResponse)
        (c : Client) (ctx : Context) (req : ResolveProjectRequest)
        (opts : list Stream.CallOption) (w : World S) resp err w' :
  ResolveProject rt c ctx req opts w = Some (resp, err, w') ->
  exists n q,
    sent (trace w') = (repeat (runBeforeHooks c q) n ++ sent (trace w))%list
    /\ Request.Method q = "POST"
    /\ Request.URL q = BaseURL c ++ "/warlotSql/projects/resolve"
    /\ (forall k, k = "X-Api-Key" \/ k = "X-Holder-Id" \/ k = "X-Project-Name" ->
                  values (Request.Header q) k = values (Stream.buildHeaders ∅ opts) k)
    /\ (opts = [] ->
        forall k, k = "X-Api-Key" \/ k = "X-Holder-Id" \/ k = "X-Project-Name" ->
                  values (Request.Header q) k = []).
Proof.
  unfold ResolveProject. intros H.
  destruct (doJSON rt c ctx "POST" "/warlotSql/projects/resolve" (Stream.buildHeaders ∅ opts)
              (Some req) true w) as [[r w1] |] eqn:E; [| discriminate].
  assert (W : w1 = w') by (destruct r; inversion H; reflexivity). subst w1.
  apply doJSON_sent in E as (n & rc & E & _).
  exists n, (applyHeaders c (Stream.buildHeaders ∅ opts)
               (Request.mk "POST" (BaseURL c ++ "/warlotSql/projects/resolve") ∅ rc)).
  split; [exact E |]. split; [reflexivity |]. split; [reflexivity |].
  assert (V : forall k, k = "X-Api-Key" \/ k = "X-Holder-Id" \/ k = "X-Project-Name" ->
              values (Request.Header
                        (applyHeaders c (Stream.buildHeaders ∅ opts)
                           (Request.mk "POST" (BaseURL c ++ "/warlotSql/projects/resolve") ∅ rc))) k
              = values (Stream.buildHeaders ∅ opts) k).
  { intros k Hk. rewrite values_applyHeaders by apply canonicalKeys_buildHeaders.
    simpl Request.Header. rewrite values_base; [reflexivity | |];
      destruct Hk as [-> | [-> | ->]]; discriminate. }
  split; [exact V |].
  intros -> k Hk. rewrite V by exact Hk.
  rewrite values_buildHeaders by constructor. apply values_empty.
Qed.

(** A client with a key and a holder resolves a project: the request
    names neither. *)
Lemma ResolveProject_sends_no_credentials_witness :
  exists resp err w',
    ResolveProject (answering zeroResolveProjectResponse) (client "secret" 0 0 0) background
      (mkResolveProjectRequest "holder" "name") [] (start 0) = Some (resp, err, w')
    /\ exists n q,
      sent (trace w') = (repeat (runBeforeHooks (client "secret" 0 0 0) q) n
                           ++ sent (trace (start 0)))%list
      /\ Request.Method q = "POST"
      /\ Request.URL q = BaseURL (client "secret" 0 0 0) ++ "/warlotSql/projects/resolve"
      /\ (forall k, k = "X-Api-Key" \/ k = "X-Holder-Id" \/ k = "X-Project-Name" ->
                    values (Request.Header q) k = values (Stream.buildHeaders ∅ []) k)
      /\ (([] : list Stream.CallOption) = [] ->
          forall k, k = "X-Api-Key" \/ k = "X-Holder-Id" \/ k = "X-Project-Name" ->
                    values (Request.Header q) k = []).
Proof.
  destruct (ResolveProject (answering zeroResolveProjectResponse) (client "secret" 0 0 0)
              background (mkResolveProjectRequest "holder" "name") [] (start 0))
    as [[[resp err] w'] |] eqn:E; [| vm_compute in E; discriminate].
  exists resp, err, w'. split; [reflexivity |].
  exact (ResolveProject_sends_no_credentials (answering zeroResolveProjectResponse)
           (client "secret" 0 0 0) background (mkResolveProjectRequest "holder" "name") []
           (start 0) resp err w' E).
Defined.

(** [BrowseRows] sends GET requests without a body to the path of the
    page under the base of the client, and with the client's key, when
    it has one, as the first value of its header. *)
Theorem BrowseRows_requests {S In} (rt : Runtime S In BrowseRowsResponse)
        (escape : string -> string) (c : Client) (ctx : Context)
        (projectID table : string) (limit offset : Z)
        (opts : list Stream.CallOption) (w : World S) resp err w' :
  BrowseRows rt escape c ctx projectID table limit offset opts w = Some (resp, err, w') ->
  exists n q,
    sent (trace w') = (repeat (runBeforeHooks c q) n ++ sent (trace w))%list
    /\ Request.Method q = "GET"
    /\ Request.URL q = BaseURL c ++ browsePath escape projectID table limit offset
    /\ Request.Body q = None
    /\ (APIKey c <> "" ->
        values (Request.Header q) "X-Api-Key"
        = APIKey c :: values (Stream.buildHeaders ∅ opts) "X-Api-Key").
Proof.
  unfold BrowseRows. intros H.
  destruct (doJSON rt c ctx "GET" (browsePath escape projectID table limit offset)
              (callHeaders c opts) None true w) as [[r w1] |] eqn:E; [| discriminate].
  assert (W : w1 = w') by (destruct r; inversion H; reflexivity). subst w1.
  apply doJSON_sent in E as (n & rc & E & B).
  exists n, (applyHeaders c (callHeaders c opts)
               (Request.mk "GET" (BaseURL c ++ browsePath escape projectID table limit offset)
                  ∅ None)).
  assert (Rc : n = 0%nat \/ rc = None).
  { destruct B as [B | B]; [auto | right]. simpl in B. congruence. }
  split.
  - destruct Rc as [-> | ->]; [simpl in *; exact E | exact E].
  - split; [reflexivity |]. split; [reflexivity |]. split; [reflexivity |].
    intros Hk. rewrite values_applyHeaders by apply canonicalKeys_callHeaders.
    simpl Request.Header. rewrite values_base by discriminate.
    apply (values_callHeaders_key c opts Hk).
Qed.

Lemma BrowseRows_requests_witness :
  exists resp err w',
    BrowseRows (In := string) (answering zeroBrowseRowsResponse) id (client "secret" 0 0 0)
      background "p" "t" 2 0 [] (start 0) = Some (resp, err, w')
    /\ exists n q,
      sent (trace w') = (repeat (runBeforeHooks (client "secret" 0 0 0) q) n
                           ++ sent (trace (start 0)))%list
      /\ Request.Method q = "GET"
      /\ Request.URL q = BaseURL (client "secret" 0 0 0) ++ browsePath id "p" "t" 2 0
      /\ Request.Body q = None
      /\ (APIKey (client "secret" 0 0 0) <> "" ->
          values (Request.Header q) "X-Api-Key"
          = APIKey (client "secret" 0 0 0) :: values (Stream.buildHeaders ∅ []) "X-Api-Key").
Proof.
  destruct (BrowseRows (In := string) (answering zeroBrowseRowsResponse) id
              (client "secret" 0 0 0) background "p" "t" 2 0 [] (start 0))
    as [[[resp err] w'] |] eqn:E; [| vm_compute in E; discriminate].
  exists resp, err, w'. split; [reflexivity |].
  exact (BrowseRows_requests (answering zeroBrowseRowsResponse) id (client "secret" 0 0 0)
           background "p" "t" 2 0 [] (start 0) resp err w' E).
Defined.

(** ** What the calls make of a response *)

Lemma doJSON_decodes {S In Out} (rt : Runtime S In Out) (c : Client)
      (ctx : Context) (method path : string) (hdr : Header) (in_ : option In)
      (w : World S) (rc : option string) (res : Response.t) (clock : Z) (s' : S) (x : Out) :
  buildable rt method (BaseURL c ++ path) in_ rc ->
  RoundTrip rt ctx (outgoing c method (BaseURL c ++ path) hdr rc) (now w) (server w)
  = (DoResponse res, clock, s') ->
  Z.quot (Response.StatusCode res) 100 = 2 ->
  0 < len (Response.Body res) ->
  Unmarshal rt (Response.Body res) = Some x ->
  exists w',
    doJSON rt c ctx method path hdr in_ true w = Some (Returned (Some x), w')
    /\ requests (trace w') = requests (trace w) + 1.
Proof.
  intros Hb HR H2 Hl Hu.
  destruct (doJSON_first_success rt c ctx method path hdr in_ true w rc res clock s'
              (Some x) Hb HR H2) as (w' & E & R & _).
  - unfold decoded. simpl.
    replace (0 <? len (Response.Body res)) with true by (symmetry; apply Z.ltb_lt; exact Hl).
    eauto.
  - eauto.
Qed.

(** A statement that the service refuses inside a success response is
    an error of [ExecSQL], not a retry: when the first response has a
    2xx status and decodes to a value that is not ok and names an
    error, the call returns that value together with the error, after
    one request; a value that is ok, or names no error, comes back
    without one. *)
Theorem ExecSQL_reports_the_error_of_the_statement {S}
        (rt : Runtime S SQLRequest SQLResponse) (escape : string -> string)
        (c : Client) (ctx : Context) (projectID : string) (req : SQLRequest)
        (opts : list Stream.CallOption) (w : World S)
        (rc : option string) (res : Response.t) (clock : Z) (s' : S) (out : SQLResponse) :
  let path := "/warlotSql/projects/" ++ escape projectID ++ "/sql" in
  buildable rt "POST" (BaseURL c ++ path) (Some req) rc ->
  RoundTrip rt ctx (outgoing c "POST" (BaseURL c ++ path) (callHeaders c opts) rc)
    (now w) (server w)
  = (DoResponse res, clock, s') ->
  Z.quot (Response.StatusCode res) 100 = 2 ->
  0 < len (Response.Body res) ->
  Unmarshal rt (Response.Body res) = Some out ->
  exists w',
    ExecSQL rt escape c ctx projectID req opts w
    = Some (Some out,
            (if OK out then None
             else if String.eqb (Error out) "" then None
             else Some (Message (Error out))),
            w')
    /\ requests (trace w') = requests (trace w) + 1.
Proof.
  intros path Hb HR H2 Hl Hu.
  destruct (doJSON_decodes rt c ctx "POST" path (callHeaders c opts) (Some req) w rc res
              clock s' out Hb HR H2 Hl Hu) as (w' & E & R).
  exists w'. split; [| exact R].
  unfold ExecSQL. fold path. rewrite E. simpl.
  destruct (OK out); simpl; [reflexivity |].
  destruct (String.eqb (Error out) ""); reflexivity.
Qed.

(** A statement against a table that does not exist, refused with a
    200 response. *)
Lemma ExecSQL_reports_the_error_of_the_statement_witness :
  exists w',
    ExecSQL (answering (mkSQLResponse false None [] "no such table: t")) id
      (client "k" 2 0 0) background "p" (mkSQLRequest "SELECT 1 FROM t" []) [] (start 0)
    = Some (Some (mkSQLResponse false None [] "no such table: t"),
            Some (Message "no such table: t"), w')
    /\ requests (trace w') = requests (trace (start 0)) + 1.
Proof.
  apply (ExecSQL_reports_the_error_of_the_statement
           (answering (mkSQLResponse false None [] "no such table: t")) id
           (client "k" 2 0 0) background "p" (mkSQLRequest "SELECT 1 FROM t" []) [] (start 0)
           (Some "{}") (Response.mk 200 ∅ "{}") 0 1%nat
           (mkSQLResponse false None [] "no such table: t")).
  - split; reflexivity.
  - reflexivity.
  - reflexivity.
  - reflexivity.
  - reflexivity.
Defined.

(** [ResolveProject] gives the project and database identifiers under
    their modern names: when the first response has a 2xx status, what
    comes back is the decoded value with each modern field that is empty
    taken from its legacy field; a modern field that is set wins. *)
Theorem ResolveProject_prefers_the_modern_fields {S}
        (rt : Runtime S ResolveProjectRequest ResolveProjectResponse)
        (c : Client) (ctx : Context) (req : ResolveProjectRequest)
        (opts : list Stream.CallOption) (w : World S)
        (rc : option string) (res : Response.t) (clock : Z) (s' : S)
        (out : ResolveProjectResponse) :
  let path := "/warlotSql/projects/resolve" in
  buildable rt "POST" (BaseURL c ++ path) (Some req) rc ->
  RoundTrip rt ctx (outgoing c "POST" (BaseURL c ++ path) (Stream.buildHeaders ∅ opts) rc)
    (now w) (server w)
  = (DoResponse res, clock, s') ->
  Z.quot (Response.StatusCode res) 100 = 2 ->
  0 < len (Response.Body res) ->
  Unmarshal rt (Response.Body res) = Some out ->
  exists r w',
    ResolveProject rt c ctx req opts w = Some (Some r, None, w')
    /\ ProjectID r = (if String.eqb (ProjectID out) "" then LegacyProjectID out
                      else ProjectID out)
    /\ DBID r = (if String.eqb (DBID out) "" then LegacyDBID out else DBID out)
    /\ (ExistsMeta r, ExistsChain r, Action r, LegacyProjectID r, LegacyDBID r)
       = (ExistsMeta out, ExistsChain out, Action out, LegacyProjectID out, LegacyDBID out)
    /\ normalizeLegacy r = r.
Proof.
  intros path Hb HR H2 Hl Hu.
  destruct (doJSON_decodes rt c ctx "POST" path (Stream.buildHeaders ∅ opts) (Some req) w rc
              res clock s' out Hb HR H2 Hl Hu) as (w' & E & R).
  exists (normalizeLegacy out), w'. unfold ResolveProject. fold path. rewrite E. simpl.
  split; [reflexivity |].
  unfold normalizeLegacy. simpl.
  destruct (String.eqb_spec (ProjectID out) "") as [P | P],
    (String.eqb_spec (LegacyProjectID out) "") as [LP | LP],
    (String.eqb_spec (DBID out) "") as [D | D],
    (String.eqb_spec (LegacyDBID out) "") as [LD | LD]; simpl;
    rewrite ?P, ?LP, ?D, ?LD; simpl;
    repeat match goal with
           | |- context [String.eqb ?s ""] =>
               destruct (String.eqb_spec s ""); try congruence; simpl
           end;
    repeat split; try congruence; try reflexivity.
Qed.

(** A response in the legacy shape. *)
Lemma ResolveProject_prefers_the_modern_fields_witness :
  exists r w',
    ResolveProject (answering (mkResolveProjectResponse true false "" "D2" "none" "P1" "D1"))
      (client "k" 2 0 0) background (mkResolveProjectRequest "holder" "name") [] (start 0)
    = Some (Some r, None, w')
    /\ ProjectID r = "P1"
    /\ DBID r = "D2"
    /\ (ExistsMeta r, ExistsChain r, Action r, LegacyProjectID r, LegacyDBID r)
       = (true, false, "none", "P1", "D1")
    /\ normalizeLegacy r = r.
Proof.
  apply (ResolveProject_prefers_the_modern_fields
           (answering (mkResolveProjectResponse true false "" "D2" "none" "P1" "D1"))
           (client "k" 2 0 0) background (mkResolveProjectRequest "holder" "name") [] (start 0)
           (Some "{}") (Response.mk 200 ∅ "{}") 0 1%nat
           (mkResolveProjectResponse true false "" "D2" "none" "P1" "D1")).
  - split; reflexivity.
  - reflexivity.
  - reflexivity.
  - reflexivity.
  - reflexivity.
Defined.

Lemma decodeRows_spec {T} (decodeRow : Json.Value -> option T) rows : forall ts,
  decodeRows decodeRow rows = Some ts <-> Forall2 (fun row t => decodeRow row = Some t) rows ts.
Proof.
  induction rows as [|row rows IH]; intros ts; simpl.
  - split; [intros H; inversion H; constructor | intros H; inversion H; reflexivity].
  - destruct (decodeRow row) as [t |] eqn:D.
    + destruct (decodeRows decodeRow rows) as [out |] eqn:R.
      * split.
        -- intros H. inversion H; subst. constructor; [exact D | apply IH; reflexivity].
        -- intros H. inversion H as [| ? t' ? ts' D' F]; subst.
           apply IH in F. inversion F; subst. congruence.
      * split; [discriminate |].
        intros H. inversion H as [| ? t' ? ts' D' F]; subst.
        apply IH in F. discriminate.
    + split; [discriminate |].
      intros H. inversion H; subst. congruence.
Qed.

(** [Query] gives all the rows or none: a result holds one value for
    each row of the response, in their order, each the decoding of its
    row, and comes without an error; when a row does not decode, or
    [ExecSQL] reports an error, there is no result and the error is
    returned. *)
Theorem Query_all_or_nothing {S T}
        (rt : Runtime S SQLRequest SQLResponse) (escape : string -> string)
        (decodeRow : Json.Value -> option T)
        (c : Client) (ctx : Context) (projectID sql : string) (params : list Json.Value)
        (opts : list Stream.CallOption) (w : World S) result err w' :
  Query rt escape decodeRow c ctx projectID sql params opts w = Some (result, err, w') ->
  exists resp err0,
    ExecSQL rt escape c ctx projectID (mkSQLRequest sql params) opts w
    = Some (resp, err0, w')
    /\ match result with
       | Some ts =>
           err = None /\ err0 = None
           /\ exists res, resp = Some res
                          /\ Forall2 (fun row t => decodeRow row = Some t) (Rows res) ts
       | None =>
           (err0 <> None /\ err = err0)
           \/ (err0 = None /\ err = Some RowDecoding
               /\ exists res, resp = Some res /\ decodeRows decodeRow (Rows res) = None)
       end.
Proof.
  unfold Query. intros H.
  destruct (ExecSQL rt escape c ctx projectID (mkSQLRequest sql params) opts w)
    as [[[resp err0] w1] |] eqn:E; [| discriminate].
  assert (NN : resp = None -> err0 <> None).
  { revert E. unfold ExecSQL.
    destruct (doJSON _ _ _ _ _ _ _ _ _) as [[[v | e] w2] |]; try discriminate.
    - destruct (negb _ && negb _); intros X; inversion X; subst; discriminate.
    - intros X; inversion X; subst. discriminate. }
  destruct err0 as [e |].
  - exists resp, (Some e).
    assert (X : result = None /\ err = Some e /\ w1 = w')
      by (destruct resp; inversion H; auto).
    destruct X as (-> & -> & ->). split; [reflexivity |].
    left. split; [discriminate | reflexivity].
  - destruct resp as [res |]; [| exfalso; exact (NN eq_refl eq_refl)].
    destruct (Nat.eqb_spec (List.length (Rows res)) 0) as [Z0 | NZ].
    + inversion H; subst. exists (Some res), None. split; [reflexivity |].
      repeat split. exists res. split; [reflexivity |].
      destruct (Rows res); [constructor | discriminate].
    + destruct (decodeRows decodeRow (Rows res)) as [ts |] eqn:D; inversion H; subst.
      * exists (Some res), None. split; [reflexivity |]. repeat split.
        exists res. split; [reflexivity | apply decodeRows_spec; exact D].
      * exists (Some res), None. split; [reflexivity |]. right. eauto.
Qed.

(** Two rows of which the second is no number: no result. *)
Lemma Query_all_or_nothing_witness :
  exists result err w',
    Query (answering (mkSQLResponse true None [Json.Number "1"; Json.Bool true] ""))
      id (fun v => match v with Json.Number n => Some n | _ => None end)
      (client "k" 2 0 0) background "p" "SELECT x FROM t" [] [] (start 0)
    = Some (result, err, w')
    /\ exists resp err0,
      ExecSQL (answering (mkSQLResponse true None [Json.Number "1"; Json.Bool true] "")) id
        (client "k" 2 0 0) background "p" (mkSQLRequest "SELECT x FROM t" []) [] (start 0)
      = Some (resp, err0, w')
      /\ match result with
         | Some ts =>
             err = None /\ err0 = None
             /\ exists res, resp = Some res
                            /\ Forall2 (fun row t =>
                                          match row with Json.Number n => Some n | _ => None end
                                          = Some t) (Rows res) ts
         | None =>
             (err0 <> None /\ err = err0)
             \/ (err0 = None /\ err = Some RowDecoding
                 /\ exists res, resp = Some res
                                /\ decodeRows (fun v => match v with
                                                        | Json.Number n => Some n
                                                        | _ => None
                                                        end) (Rows res) = None)
         end.
Proof.
  destruct (Query (answering (mkSQLResponse true None [Json.Number "1"; Json.Bool true] ""))
              id (fun v => match v with Json.Number n => Some n | _ => None end)
              (client "k" 2 0 0) background "p" "SELECT x FROM t" [] [] (start 0))
    as [[[result err] w'] |] eqn:E; [| vm_compute in E; discriminate].
  exists result, err, w'. split; [reflexivity |].
  exact (Query_all_or_nothing
           (answering (mkSQLResponse true None [Json.Number "1"; Json.Bool true] ""))
           id (fun v => match v with Json.Number n => Some n | _ => None end)
           (client "k" 2 0 0) background "p" "SELECT x FROM t" [] [] (start 0)
           result err w' E).
Defined.

End Calls.

(** ** Streaming *)

Import Json Stream.

Local Ltac evaluated := split; [vm_compute; reflexivity |].

(** C6. A 2xx response with the body
    [{"ok":true,"rows":[{"id":1},{"id":2},{"id":3}]}] gives a scanner on
    which three calls of [Next] return true with the rows 1, 2, 3 in that
    order and the fourth returns false; [Err] is nil then, the closing
    bracket of the array is consumed, and the body, open until the last
    call, is closed by it. *)
Theorem C6_streaming_round_trip :
  exists s0 s1 s2 s3 s4 w',
    ExecSQLStream (scripted (serving threeRows)) id (client "k" 2 0 0) background
      "p" "SELECT id FROM t" [] (start 0)
    = Some (Returned (Scanner s0), w')
    /\ s0 = scannerOf threeRows
    /\ Stream.Next unmarshalAny s0 = Some (true, Some (row "1"), s1)
    /\ Stream.Next unmarshalAny s1 = Some (true, Some (row "2"), s2)
    /\ Stream.Next unmarshalAny s2 = Some (true, Some (row "3"), s3)
    /\ Stream.Next unmarshalAny s3 = Some (false, None, s4)
    /\ Err s4 = None
    /\ (buf (dec s3) = "]}" /\ buf (dec s4) = "}")
    /\ (closed (dec s3) = false /\ closed (dec s4) = true)
    /\ (done s3 = false /\ done s4 = true)
    /\ Stream.Next unmarshalAny s4 = Some (false, None, s4).
Proof.
  do 6 eexists. do 6 evaluated.
  repeat split; vm_compute; reflexivity.
Qed.

(** C7. On the body [{"ok":true,"rows":[{"id":1},{"id":2}], which ends
    before the array closes, [Next] gives the two rows and then returns
    false with [Err] nil: the end of the input is taken for the end of
    the rows, and the truncation is reported nowhere. *)
Theorem C7_truncated_stream_ends_without_error :
  exists s1 s2 s3,
    open (Response.mk 200 ∅ truncated) = Scanner (scannerOf truncated)
    /\ Stream.Next unmarshalAny (scannerOf truncated) = Some (true, Some (row "1"), s1)
    /\ Stream.Next unmarshalAny s1 = Some (true, Some (row "2"), s2)
    /\ Stream.Next unmarshalAny s2 = Some (false, None, s3)
    /\ Err s3 = None
    /\ done s3 = true
    /\ buf (dec s2) = ""
    /\ Json.Unmarshal truncated = None.
Proof.
  do 3 eexists. do 4 evaluated.
  repeat split; vm_compute; reflexivity.
Qed.

(** *** Every token takes input *)

Lemma skipSpace_length s : (String.length (skipSpace s) <= String.length s)%nat.
Proof.
  induction s as [|c s IH]; simpl; [lia |].
  destruct (isSpace c); simpl; lia.
Qed.

Lemma peek_inr d c d' :
  peek d = (inr c, d') ->
  exists rest, buf d' = String c rest
               /\ (String.length (buf d') <= String.length (buf d))%nat
               /\ closed d' = closed d /\ derr d' = derr d
               /\ tokenState d' = tokenState d /\ tokenStack d' = tokenStack d.
Proof.
  unfold peek. pose proof (skipSpace_length (buf d)) as L.
  destruct (skipSpace (buf d)) as [|a rest]; intros H; inversion H; subst.
  exists rest. simpl. repeat split; auto.
Qed.

Lemma scanValue_le s input atEnd ns n :
  scanValue s input atEnd ns = inr n -> (n <= String.length input)%nat.
Proof.
  revert s n. induction input as [|c rest IH]; intros s n H; simpl in H.
  - destruct atEnd; try discriminate.
    destruct (fst (scanStep s " ")); try discriminate. inversion H. simpl. lia.
  - destruct (scanStep s c) as [code s'].
    assert (G : forall s0, oneMore (scanValue s0 rest atEnd ns) = inr n ->
                           (n <= String.length (String c rest))%nat).
    { intros s0 H0. destruct (scanValue s0 rest atEnd ns) as [e | k] eqn:E; [discriminate |].
      simpl in H0. inversion H0; subst. apply IH in E. simpl. lia. }
    destruct code; try (apply G in H; exact H); try discriminate;
      try (inversion H; subst; simpl; lia).
    + destruct (stateEndValue s' " ") as [code2 s''].
      destruct code2; try (apply G in H; exact H); inversion H; subst; simpl; lia.
    + destruct (stateEndValue s' " ") as [code2 s''].
      destruct code2; try (apply G in H; exact H); inversion H; subst; simpl; lia.
Qed.

Lemma stateBeginValue_code c :
  match fst (stateBeginValue reset c) with
  | scanEnd | scanEndObject | scanEndArray => False
  | _ => True
  end.
Proof.
  unfold stateBeginValue.
  repeat match goal with
         | |- context [if ?b then _ else _] => destruct b; simpl; auto
         end.
Qed.

Lemma scanValue_reset_pos input atEnd ns n :
  scanValue reset input atEnd ns = inr n -> (1 <= n)%nat.
Proof.
  destruct input as [|c rest]; simpl.
  - destruct atEnd; discriminate.
  - change (scanStep reset c) with (stateBeginValue reset c).
    pose proof (stateBeginValue_code c) as B.
    destruct (stateBeginValue reset c) as [code s']. simpl in B.
    destruct code; try contradiction; try discriminate;
      (destruct (scanValue s' rest atEnd ns); simpl; intros H; inversion H; lia).
Qed.

Lemma advance_length d c rest :
  buf d = String c rest -> String.length (buf (advance d)) = String.length rest.
Proof. unfold advance. intros ->. reflexivity. Qed.

Lemma tokenValueEnd_buf d : buf (tokenValueEnd d) = buf d.
Proof. unfold tokenValueEnd. destruct (tokenState d); reflexivity. Qed.

Lemma popState_buf d : buf (popState d) = buf d.
Proof. unfold popState. destruct (tokenStack d); reflexivity. Qed.

Lemma tokenPrepareForDecode_length d d' :
  tokenPrepareForDecode d = (None, d') ->
  (String.length (buf d') <= String.length (buf d))%nat.
Proof.
  unfold tokenPrepareForDecode.
  destruct (tokenState d);
    try (intros H; inversion H; subst; lia);
    (destruct (peek d) as [[e | c] d1] eqn:P; [discriminate |];
     apply peek_inr in P as (rest & B & L & _);
     destruct (Ascii.eqb c _); [| discriminate];
     intros H; inversion H; subst; simpl;
     rewrite (advance_length _ _ _ B); rewrite B in L; simpl in L; lia).
Qed.

Lemma Decode_progress {A} (unmarshal : string -> jerror + A) d v d' :
  Decode unmarshal d = (inr v, d') ->
  (String.length (buf d') < String.length (buf d))%nat.
Proof.
  unfold Decode. destruct (derr d); [discriminate |].
  destruct (tokenPrepareForDecode d) as [[e |] d1] eqn:P; [discriminate |].
  apply tokenPrepareForDecode_length in P.
  destruct (negb (tokenValueAllowed d1)); [discriminate |].
  unfold readValue.
  destruct (scanValue reset (buf d1) (readError d1) _) as [e | n] eqn:R; [discriminate |].
  pose proof (scanValue_le _ _ _ _ _ R) as Le.
  pose proof (scanValue_reset_pos _ _ _ _ R) as Pos.
  intros H. inversion H; subst. rewrite tokenValueEnd_buf. simpl.
  rewrite substring_length; lia.
Qed.

Lemma tokenStep_progress d :
  match tokenStep d with
  | Yield (inr _) d' => shorter d' d
  | Yield (inl _) _ => True
  | Again d' => shorter d' d
  end.
Proof.
  unfold tokenStep, shorter.
  destruct (peek d) as [[e | c] d1] eqn:P; [exact I |].
  apply peek_inr in P as (rest & B & L & _).
  assert (Adv : (String.length (buf (advance d1)) < String.length (buf d))%nat).
  { rewrite (advance_length _ _ _ B). rewrite B in L. simpl in L. lia. }
  assert (Dec : forall d2, (String.length (buf d2) <= String.length (buf d))%nat ->
            match basicValue d2 with
            | Yield (inr _) d' => (String.length (buf d') < String.length (buf d))%nat
            | Yield (inl _) _ => True
            | Again d' => (String.length (buf d') < String.length (buf d))%nat
            end).
  { intros d2 L2. unfold basicValue.
    destruct (Decode unmarshalAny d2) as [[e | v] d3] eqn:D; [exact I |].
    apply Decode_progress in D. lia. }
  repeat match goal with
         | |- context [if ?b then _ else _] => destruct b
         | |- context [match tokenState d1 with _ => _ end] => destruct (tokenState d1) eqn:?
         end;
    simpl; rewrite ?tokenValueEnd_buf, ?popState_buf; simpl;
    try exact I; try exact Adv; try (apply Dec; exact L);
    (destruct (Decode unmarshalAny (setState d1 tokenTopValue)) as [[e | v] d3] eqn:D;
     [exact I | apply Decode_progress in D; simpl in *; lia]).
Qed.

Lemma Token_progress d tok d' :
  Token_ d = (inr tok, d') -> shorter d' d.
Proof.
  unfold Token_, shorter.
  pose proof (tokenStep_progress d) as P1.
  destruct (tokenStep d) as [[e | t] d1 | d1].
  - discriminate.
  - intros H; inversion H; subst. exact P1.
  - pose proof (tokenStep_progress d1) as P2.
    destruct (tokenStep d1) as [[e | t] d2 | d2]; try discriminate.
    intros H; inversion H; subst. unfold shorter in *. lia.
Qed.

(** *** The first string "rows" *)

Lemma seekRows_unexpected n : forall s pre d1 key d2 tok d3 fuel,
  readTokens n (dec s) = Some (pre, d1) ->
  forallb (fun t => negb (isRows t)) pre = true ->
  Token_ d1 = (inr key, d2) -> isRows key = true ->
  Token_ d2 = (inr tok, d3) -> isArrayOpen tok = false ->
  (String.length (buf (dec s)) < fuel)%nat ->
  seekRows fuel s = Some (false, fail (withDec s d3) (UnexpectedTokenAfterRows tok)).
Proof.
  induction n as [|n IH]; intros s pre d1 key d2 tok d3 fuel R Pre K1 K2 T1 T2 F;
    (destruct fuel as [|fuel]; [lia |]); simpl in R |- *.
  - inversion R; subst. rewrite K1, K2, T1, T2. reflexivity.
  - destruct (Token_ (dec s)) as [[e | t0] d0] eqn:T0; [discriminate |].
    destruct (readTokens n d0) as [[toks d1'] |] eqn:R0; [| discriminate].
    inversion R; subst. simpl in Pre. apply andb_prop in Pre as [P0 Pre].
    apply negb_true_iff in P0. rewrite P0.
    apply Token_progress in T0. unfold shorter in T0.
    rewrite (IH (withDec s d0) toks d1 key d2 tok d3 fuel); auto.
    simpl. lia.
Qed.

Lemma isRows_true tok : isRows tok = true <-> tok = Basic (Str "rows").
Proof.
  split; [| intros ->; reflexivity].
  destruct tok as [c | v]; try discriminate. destruct v; try discriminate.
  simpl. intros H. apply String.eqb_eq in H. congruence.
Qed.

Lemma isArrayOpen_false tok : isArrayOpen tok = false <-> tok <> Delim "[".
Proof.
  destruct tok as [c | v]; simpl.
  - rewrite Ascii.eqb_neq. split; congruence.
  - split; [discriminate | reflexivity].
Qed.

(** C10. While it seeks the rows array, [Next] takes the first string
    token equal to "rows" for the rows field, whatever came before it and
    whether it is a key or a value: when the token after it is not the
    delimiter [[], [Next] returns false, [Err] is the error "unexpected
    token after rows" carrying that token, and the body is closed. *)
Theorem C10_first_rows_string_is_taken_for_the_field {A} (unmarshal : string -> jerror + A)
        (s : RowScanner) (n : nat) (pre : list Token) (d1 d2 d3 : Decoder) (tok : Token) :
  done s = false -> inRows s = false ->
  readTokens n (dec s) = Some (pre, d1) ->
  Forall (fun t => t <> Basic (Str "rows")) pre ->
  Token_ d1 = (inr (Basic (Str "rows")), d2) ->
  Token_ d2 = (inr tok, d3) ->
  tok <> Delim "[" ->
  exists s',
    Stream.Next unmarshal s = Some (false, None, s')
    /\ Err s' = Some (UnexpectedTokenAfterRows tok)
    /\ closed (dec s') = (closer s || closed d3)
    /\ buf (dec s') = buf d3
    /\ closer s' = false
    /\ inRows s' = false.
Proof.
  intros Dn In R Pre K T NA.
  exists (fail (withDec s d3) (UnexpectedTokenAfterRows tok)).
  unfold Stream.Next. rewrite Dn, In. simpl negb. cbv iota.
  rewrite (seekRows_unexpected n s pre d1 (Basic (Str "rows")) d2 tok d3); auto.
  - unfold fail, Close, Err. simpl. destruct (closer s); simpl; auto 10.
  - apply forallb_forall. intros t Ht.
    apply negb_true_iff. destruct (isRows t) eqn:E; [| reflexivity].
    apply isRows_true in E. exfalso. apply list_elem_of_In in Ht.
    rewrite Forall_forall in Pre. exact (Pre t Ht E).
  - apply isArrayOpen_false. exact NA.
Qed.

(** In [{"note":"rows","rows":[{"id":1}]}] the value of [note] is taken
    for the rows field, and the key that follows it stops the scanner. *)
Lemma C10_shadowed_rows_witness :
  exists s',
    Stream.Next unmarshalAny (scannerOf shadowed) = Some (false, None, s')
    /\ Err s' = Some (UnexpectedTokenAfterRows (Basic (Str "rows")))
    /\ closed (dec s') = true
    /\ buf (dec s') = (":[" ++ rowText "1" ++ "]}")%string
    /\ closer s' = false
    /\ inRows s' = false.
Proof.
  pose (d1 := snd (Token_ (dec (scannerOf shadowed)))).
  pose (d2 := snd (Token_ d1)).
  pose (d3 := snd (Token_ d2)).
  apply (C10_first_rows_string_is_taken_for_the_field unmarshalAny
           (scannerOf shadowed) 1 [Basic (Str "note")] d1 d2 d3 (Basic (Str "rows"))).
  - reflexivity.
  - reflexivity.
  - vm_compute. reflexivity.
  - repeat constructor. discriminate.
  - vm_compute. reflexivity.
  - vm_compute. reflexivity.
  - discriminate.
Defined.

(** ** Paging *)

Section Pages.
Context {W Row E : Type}.
Variable Browse : string -> Z -> Z -> W -> (E + list Row) * W.

(** C8. With page size 2 and a fetch that gives two rows at offset 0,
    two rows at offset 2 and none at offset 4, [Next] returns the first
    batch, the second batch, then nil rows and a nil error, having asked
    for these offsets and no others; a pager marked done returns nil,
    nil and leaves the state of the fetch as it was; on an error of
    the fetch [Next] returns it and the pager is unchanged. *)
Theorem C8_pager_walks_the_pages (table : string) (w0 w1 w2 w3 : W) (r1 r2 : list Row) :
  Browse table 2 0 w0 = (inr r1, w1) -> List.length r1 = 2%nat ->
  Browse table 2 2 w1 = (inr r2, w2) -> List.length r2 = 2%nat ->
  Browse table 2 4 w2 = (inr [], w3) ->
  let p0 := Paging.mkPager table 2 0 false in
  let p1 := Paging.mkPager table 2 2 false in
  let p2 := Paging.mkPager table 2 4 false in
  let p3 := Paging.mkPager table 2 4 true in
  (Paging.Next Browse p0 w0 = (Some r1, None, p1, w1)
   /\ Paging.Next Browse p1 w1 = (Some r2, None, p2, w2)
   /\ Paging.Next Browse p2 w2 = (None, None, p3, w3))
  /\ (forall p w, Paging.Done p = true -> Paging.Next Browse p w = (None, None, p, w))
  /\ (forall p w err w',
         Paging.Done p = false ->
         Browse (Paging.Table p) (Paging.Limit p) (Paging.Offset p) w = (inl err, w') ->
         Paging.Next Browse p w = (None, Some err, p, w')).
Proof.
  intros B1 L1 B2 L2 B3. cbv zeta. split; [| split].
  - unfold Paging.Next. simpl. rewrite B1, B2, B3, L1, L2. simpl. auto.
  - intros p w D. unfold Paging.Next. rewrite D. reflexivity.
  - intros p w err w' D B. unfold Paging.Next. rewrite D, B. reflexivity.
Qed.
End Pages.

(** The table [fourRows]: the fetch is called with the offsets 0, 2, 4. *)
Lemma C8_pager_walks_the_pages_witness :
  (Paging.Next fourRows (Paging.mkPager "t" 2 0 false) []
   = (Some [row "1"; row "2"], None, Paging.mkPager "t" 2 2 false, [(2, 0)])
   /\ Paging.Next fourRows (Paging.mkPager "t" 2 2 false) [(2, 0)]
      = (Some [row "3"; row "4"], None, Paging.mkPager "t" 2 4 false, [(2, 2); (2, 0)])
   /\ Paging.Next fourRows (Paging.mkPager "t" 2 4 false) [(2, 2); (2, 0)]
      = (None, None, Paging.mkPager "t" 2 4 true, [(2, 4); (2, 2); (2, 0)]))
  /\ (forall p w, Paging.Done p = true -> Paging.Next fourRows p w = (None, None, p, w))
  /\ (forall p w err w',
         Paging.Done p = false ->
         fourRows (Paging.Table p) (Paging.Limit p) (Paging.Offset p) w = (inl err, w') ->
         Paging.Next fourRows p w = (None, Some err, p, w')).
Proof.
  apply (C8_pager_walks_the_pages fourRows "t" [] [(2, 0)] [(2, 2); (2, 0)]
           [(2, 4); (2, 2); (2, 0)] [row "1"; row "2"] [row "3"; row "4"]); reflexivity.
Defined.

(** A fetch that fails after two pages: the error comes back, and the
    pager keeps its offset and is not done. *)
Example pager_error_keeps_the_cursor :
  Paging.Next failing (Paging.mkPager "t" 2 4 false) [(2, 2); (2, 0)]
  = (None, Some "browse failed", Paging.mkPager "t" 2 4 false, [(2, 4); (2, 2); (2, 0)]).
Proof. reflexivity. Qed.

(** ** What a scanner does, on any body *)

Lemma seekRows_total fuel : forall s,
  (String.length (buf (dec s)) < fuel)%nat -> exists r, seekRows fuel s = Some r.
Proof.
  induction fuel as [|fuel IH]; intros s Hf; [lia |]. simpl.
  destruct (Token_ (dec s)) as [[e | tok] d] eqn:T; [eauto |].
  destruct (isRows tok).
  - destruct (Token_ d) as [[e | tok'] d']; [eauto |].
    destruct (negb (isArrayOpen tok')); eauto.
  - apply IH. apply Token_progress in T. unfold shorter in T. simpl. lia.
Qed.

(** [Next] returns: the loop that seeks the rows array ends, because
    every token it reads takes at least one byte of the body. *)
Theorem Next_returns {A} (unmarshal : string -> jerror + A) (s : RowScanner) :
  exists more row s', Stream.Next unmarshal s = Some (more, row, s').
Proof.
  unfold Stream.Next. destruct (done s); [eauto |].
  destruct (negb (inRows s)).
  - destruct (seekRows_total (Datatypes.S (String.length (buf (dec s)))) s ltac:(lia))
      as ([b s1] & E).
    rewrite E. destruct b; [| eauto].
    destruct (nextElement unmarshal s1) as [[more row] s']. eauto.
  - destruct (nextElement unmarshal s) as [[more row] s']. eauto.
Qed.

Lemma fail_spec s e :
  closer (fail s e) = false
  /\ lastErr (fail s e) = Some e
  /\ done (fail s e) = done s
  /\ inRows (fail s e) = inRows s
  /\ (closer s = true -> closed (dec (fail s e)) = true).
Proof.
  unfold fail, Close. simpl. destruct (closer s); simpl; repeat split; auto; discriminate.
Qed.

Lemma seekRows_spec fuel : forall s b s1,
  seekRows fuel s = Some (b, s1) ->
  done s1 = done s
  /\ if b then inRows s1 = true /\ closer s1 = closer s /\ lastErr s1 = lastErr s
     else closer s1 = false /\ (exists e, lastErr s1 = Some e)
          /\ (closer s = true -> closed (dec s1) = true).
Proof.
  induction fuel as [|fuel IH]; intros s b s1 H; [discriminate |]. simpl in H.
  assert (F : forall d e, Some (false, fail (withDec s d) e) = Some (b, s1) ->
              done s1 = done s
              /\ if b then inRows s1 = true /\ closer s1 = closer s /\ lastErr s1 = lastErr s
                 else closer s1 = false /\ (exists e, lastErr s1 = Some e)
                      /\ (closer s = true -> closed (dec s1) = true)).
  { intros d e E. inversion E; subst.
    destruct (fail_spec (withDec s d) e) as (F1 & F2 & F3 & _ & F5). simpl in *.
    split; [exact F3 |]. split; [exact F1 |]. split; [eauto | exact F5]. }
  destruct (Token_ (dec s)) as [[e | tok] d]; [eapply F; exact H |].
  destruct (isRows tok).
  - destruct (Token_ d) as [[e | tok'] d']; [eapply F; exact H |].
    destruct (negb (isArrayOpen tok')); [eapply F; exact H |].
    inversion H; subst. simpl. auto.
  - apply IH in H. simpl in H. exact H.
Qed.

Lemma nextElement_spec {A} (unmarshal : string -> jerror + A) s more row s' :
  nextElement unmarshal s = (more, row, s') ->
  inRows s' = inRows s
  /\ if more
     then (exists r, row = Some r) /\ lastErr s' = lastErr s /\ done s' = done s
          /\ closer s' = closer s
     else row = None /\ closer s' = false
          /\ (closer s = true -> closed (dec s') = true)
          /\ ((done s' = true /\ lastErr s' = lastErr s) \/ exists e, lastErr s' = Some e).
Proof.
  unfold nextElement. destruct (More (dec s)) as [[|] d].
  - destruct (Decode unmarshal d) as [[e | r] d']; intros H; inversion H; subst.
    + destruct (fail_spec (withDec s d') (DecoderError e)) as (F1 & F2 & F3 & F4 & F5).
      simpl in *. split; [exact F4 |]. repeat split; eauto.
    + simpl. repeat split; eauto.
  - destruct (Token_ d) as [r d']. intros H; inversion H; subst.
    unfold Close. simpl. destruct (closer s) eqn:C; simpl; repeat split; auto; congruence.
Qed.

(** What a call of [Next] leaves behind on a scanner that is not done.
    When it returns true, a row was decoded, the scanner is in the
    rows array and keeps its body and its error.  When it returns false,
    there is no row, the body has been closed, and either the scanner is
    done or [Err] holds an error. *)
Theorem Next_outcome {A} (unmarshal : string -> jerror + A) (s : RowScanner) more row s' :
  done s = false ->
  Stream.Next unmarshal s = Some (more, row, s') ->
  if more
  then (exists r, row = Some r) /\ inRows s' = true /\ done s' = false
       /\ lastErr s' = lastErr s /\ closer s' = closer s
  else row = None /\ closer s' = false
       /\ (closer s = true -> closed (dec s') = true)
       /\ ((done s' = true /\ lastErr s' = lastErr s) \/ exists e, Err s' = Some e).
Proof.
  intros Dn. unfold Stream.Next, Err. rewrite Dn.
  destruct (inRows s) eqn:In; simpl negb; cbv iota.
  - intros H. inversion H as [E]. apply nextElement_spec in E as (I & E).
    destruct more.
    + destruct E as (R & L & D & C). repeat split; auto; congruence.
    + exact E.
  - destruct (seekRows _ s) as [[[|] s1] |] eqn:Sk; [| | discriminate].
    + apply seekRows_spec in Sk as (D1 & I1 & C1 & L1).
      intros H. inversion H as [E]. apply nextElement_spec in E as (I & E).
      destruct more.
      * destruct E as (R & L & D & C). repeat split; auto; congruence.
      * destruct E as (R & C & Cl & O). repeat split; auto.
        -- intros Hc. apply Cl. congruence.
        -- destruct O as [[Od Ol] | Oe]; [left; split; congruence | right; exact Oe].
    + apply seekRows_spec in Sk as (D1 & C1 & Er & Cl).
      intros H. inversion H; subst. repeat split; auto.
Qed.

(** The first call of [Next] on the truncated body of the documented
    test. *)
Lemma Next_outcome_witness :
  exists more row s',
    Stream.Next unmarshalAny (scannerOf truncated) = Some (more, row, s')
    /\ if more
       then (exists r, row = Some r) /\ inRows s' = true /\ done s' = false
            /\ lastErr s' = lastErr (scannerOf truncated)
            /\ closer s' = closer (scannerOf truncated)
       else row = None /\ closer s' = false
            /\ (closer (scannerOf truncated) = true -> closed (dec s') = true)
            /\ ((done s' = true /\ lastErr s' = lastErr (scannerOf truncated))
                \/ exists e, Err s' = Some e).
Proof.
  destruct (Stream.Next unmarshalAny (scannerOf truncated)) as [[[more row] s'] |] eqn:E;
    [| vm_compute in E; discriminate].
  exists more, row, s'. split; [reflexivity |].
  exact (Next_outcome unmarshalAny (scannerOf truncated) more row s' eq_refl E).
Defined.

(** [ExecSQLStream] makes a scanner of a response exactly when the first
    byte of its body that is not a space is an opening brace; the scanner
    then starts right after that brace, holding the body open.  Any other
    body - an empty one, an array, a bare value - is refused. *)
Theorem stream_opens_on_an_object (res : Response.t) (s : RowScanner) :
  open res = Scanner s
  <-> exists rest,
        skipSpace (Response.Body res) = String "{" rest
        /\ s = mkRowScanner
                 (mkDecoder rest false None tokenObjectStart [tokenTopValue])
                 true false false None.
Proof.
  unfold open, Token_, tokenStep, NewDecoder, peek. simpl.
  destruct (skipSpace (Response.Body res)) as [|c rest] eqn:Sk; simpl.
  - split; [discriminate | intros (r & H & _); discriminate].
  - destruct (Ascii.eqb_spec c "{") as [-> | Ne].
    + simpl. split.
      * intros H. inversion H; subst. eauto.
      * intros (r & H & ->). inversion H; subst. reflexivity.
    + split; [| intros (r & H & _); congruence].
      intros H. exfalso. revert H.
      destruct (Ascii.eqb_spec c "[") as [-> | N1]; [simpl; discriminate |].
      destruct (Ascii.eqb_spec c "]") as [-> | N2]; [simpl; discriminate |].
      destruct (Ascii.eqb_spec c "}") as [-> | N3]; [simpl; discriminate |].
      destruct (Ascii.eqb_spec c ":") as [-> | N4]; [simpl; discriminate |].
      destruct (Ascii.eqb_spec c ",") as [-> | N5]; [simpl; discriminate |].
      assert (B : forall d,
                 match basicValue d with
                 | Yield (inr (Delim _)) _ => False
                 | Again _ => False
                 | _ => True
                 end).
      { intros d. unfold basicValue. destruct (Decode unmarshalAny d) as [[e | v] d']; exact I. }
      simpl.
      match goal with
      | |- context [basicValue ?d] => specialize (B d); destruct (basicValue d) as [[e | [c0 | v]] d' | d']
      end; try contradiction;
        destruct (Ascii.eqb c dquote); simpl; discriminate.
Qed.
